(** * License / reseller entitlement backend: a shallow embedding

    The Express routes and the Mongoose models of the repository are
    embedded as pure functions over an explicit database value.  Every
    collection is the list of its documents in insertion order; a route
    takes the database and the parts of the request it reads, and returns
    the HTTP response together with the database it leaves behind.

    A route is its middleware chain in order: authentication, the
    express-validator chain where the router wires one in, and last the
    handler.  A handler is named after its route ([register], [login],
    [create_license], ...); the route with the validation chain in front
    of the handler carries the suffix [_route].

    External collaborators are inputs: the clock ([now]), the outputs of
    [crypto.randomBytes] ([rnd]), the identity carried by a verified JWT,
    the HMAC function, the password hash, the payment gateway's answers,
    the rendering of a number in a template literal, and what validator.js
    decides about lengths and email addresses.

    A string is the UTF-8 encoding of the JavaScript string; a number that
    a request can set freely is a rational. *)

From Stdlib Require Import ZArith QArith Qminmax Qround List String Ascii Bool.
From Stdlib Require Import Lia Lqa DecimalString.
Import ListNotations.

Local Open Scope string_scope.
Local Open Scope list_scope.
Local Open Scope Z_scope.

(** ** JavaScript values used by the handlers *)

Definition ObjectId := nat.
Bind Scope nat_scope with ObjectId.

(** A [Date] is its epoch time in milliseconds. *)
Definition Date := Z.

(** A request field that is either absent ([undefined]), [null] or a
    string; [!==] on such values is structural inequality. *)
Inductive JsString : Type :=
  | JsUndefined
  | JsNull
  | JsStr (s : string).

(** Truthiness of a string-or-undefined value: [if (key)], [!webhookSecret]. *)
Definition truthy (o : option string) : bool :=
  match o with
  | Some s => negb (String.eqb s "")
  | None => false
  end.

(** Template-literal rendering of an integer. *)
Definition showZ (z : Z) : string := NilZero.string_of_int (Z.to_int z).

Definition is_some {A} (o : option A) : bool :=
  match o with Some _ => true | None => false end.

(** *** Strings

    [s.length] counts UTF-16 code units: one for every character of up to
    three bytes, two for a character of four bytes. *)
Definition utf16_units (c : ascii) : nat :=
  let n := nat_of_ascii c in
  if (n <? 128)%nat then 1%nat
  else if (n <? 192)%nat then 0%nat
  else if (n <? 240)%nat then 1%nat
  else 2%nat.

Fixpoint js_length (s : string) : nat :=
  match s with
  | EmptyString => 0%nat
  | String c s' => (utf16_units c + js_length s')%nat
  end.

(** The white space of ECMAScript ([WhiteSpace] and [LineTerminator]), by
    the length of its encoding: U+0009 to U+000D and U+0020; U+00A0;
    U+1680, U+2000 to U+200A, U+2028, U+2029, U+202F, U+205F, U+3000 and
    U+FEFF. *)
Definition ws1 (a : ascii) : bool :=
  let x := nat_of_ascii a in
  ((9 <=? x)%nat && (x <=? 13)%nat) || Nat.eqb x 32.

Definition ws2 (a b : ascii) : bool :=
  Nat.eqb (nat_of_ascii a) 194 && Nat.eqb (nat_of_ascii b) 160.

Definition ws3 (a b c : ascii) : bool :=
  let x := nat_of_ascii a in
  let y := nat_of_ascii b in
  let z := nat_of_ascii c in
  (Nat.eqb x 225 && Nat.eqb y 154 && Nat.eqb z 128)
  || (Nat.eqb x 226 && Nat.eqb y 128
      && (((128 <=? z)%nat && (z <=? 138)%nat)
          || Nat.eqb z 168 || Nat.eqb z 169 || Nat.eqb z 175))
  || (Nat.eqb x 226 && Nat.eqb y 129 && Nat.eqb z 159)
  || (Nat.eqb x 227 && Nat.eqb y 128 && Nat.eqb z 128)
  || (Nat.eqb x 239 && Nat.eqb y 187 && Nat.eqb z 191).

(** [strip_spaces w1 w2 w3 l] drops from the front of [l] every character
    that [w1], [w2] or [w3] recognises on its one, two or three bytes. *)
Fixpoint strip_spaces (w1 : ascii -> bool) (w2 : ascii -> ascii -> bool)
    (w3 : ascii -> ascii -> ascii -> bool) (l : list ascii) : list ascii :=
  match l with
  | [] => []
  | a :: l1 =>
      if w1 a then strip_spaces w1 w2 w3 l1
      else
        match l1 with
        | [] => l
        | b :: l2 =>
            if w2 a b then strip_spaces w1 w2 w3 l2
            else
              match l2 with
              | [] => l
              | c :: l3 =>
                  if w3 a b c then strip_spaces w1 w2 w3 l3 else l
              end
        end
  end.

(** [String.prototype.trimStart], [trimEnd] (on the reversed bytes, where
    the bytes of a character come last first) and [trim]. *)
Definition trim_start (s : string) : string :=
  string_of_list_ascii (strip_spaces ws1 ws2 ws3 (list_ascii_of_string s)).

Definition trim_end (s : string) : string :=
  string_of_list_ascii
    (rev (strip_spaces ws1 (fun b a => ws2 a b) (fun c b a => ws3 a b c)
            (rev (list_ascii_of_string s)))).

Definition trim (s : string) : string := trim_end (trim_start s).

(** *** Numbers

    [Number] is the type of a number the body of a request may set to any
    JSON number, and of the counter such numbers are added to: a rational,
    with the arithmetic of the reals.  [<] on it as a boolean: *)
Definition Number := Q.
Bind Scope Q_scope with Number.

Definition Qlt_bool (x y : Q) : bool := negb (Qle_bool y x).

(** ** Collections *)

Section Collection.
Context {A : Type}.
Variable id_of : A -> ObjectId.

Definition findOne (p : A -> bool) (c : list A) : option A := find p c.

Definition findById (i : ObjectId) (c : list A) : option A :=
  find (fun d => Nat.eqb (id_of d) i) c.

Definition countDocuments (p : A -> bool) (c : list A) : nat :=
  List.length (filter p c).

Definition insertOne (d : A) (c : list A) : list A := c ++ [d].

(** [findByIdAndUpdate] and [doc.save()] on a stored document: the first
    document carrying the id is rewritten, nothing happens when there is
    none. *)
Fixpoint updateById (i : ObjectId) (f : A -> A) (c : list A) : list A :=
  match c with
  | [] => []
  | d :: c' =>
      if Nat.eqb (id_of d) i then f d :: c' else d :: updateById i f c'
  end.

Fixpoint findByIdAndDelete (i : ObjectId) (c : list A) : list A :=
  match c with
  | [] => []
  | d :: c' =>
      if Nat.eqb (id_of d) i then c' else d :: findByIdAndDelete i c'
  end.

Definition deleteMany (p : A -> bool) (c : list A) : list A :=
  filter (fun d => negb (p d)) c.
End Collection.

(** ** models/User.js *)

Inductive Plan : Type := free | premium.

Definition Plan_eqb (a b : Plan) : bool :=
  match a, b with
  | free, free | premium, premium => true
  | _, _ => false
  end.

Inductive PaidStatus : Type := unpaid | paid.

Module User.
Record t : Type := mk {
  _id : ObjectId;
  name : string;
  email : string;
  password : string;
  plan : Plan;
  maxApps : Z;
  maxResellers : Z;
  maxLicensesPerApp : Z;
  apps : list ObjectId;
  paymentStatus : PaidStatus
}.

(** The schema defaults, evaluated in schema order once [plan] is set. *)
Definition default_maxApps (p : Plan) : Z :=
  match p with premium => -1 | free => 2 end.
Definition default_maxResellers (p : Plan) : Z :=
  match p with premium => -1 | free => 0 end.
Definition default_maxLicensesPerApp (p : Plan) : Z :=
  match p with premium => -1 | free => 30 end.

(** [userSchema.pre('save')], second hook: "Update limits when plan
    changes". *)
Definition pre_save (planModified : bool) (u : t) : t :=
  if planModified then
    match plan u with
    | premium =>
        mk (_id u) (name u) (email u) (password u) (plan u)
           (-1) (-1) (-1) (apps u) (paymentStatus u)
    | free =>
        mk (_id u) (name u) (email u) (password u) (plan u)
           2 0 30 (apps u) (paymentStatus u)
    end
  else u.

(** [User.create({ name, email, password })]: [plan] and the limits take
    their defaults, so [plan] is not a modified path for the hook. *)
Definition create (i : ObjectId) (nm em pwHash : string) : t :=
  pre_save false
    (mk i nm em pwHash free
        (default_maxApps free) (default_maxResellers free)
        (default_maxLicensesPerApp free) [] unpaid).

Definition canCreateApp (u : t) : bool :=
  (maxApps u =? -1) || (Z.of_nat (List.length (apps u)) <? maxApps u).

(** The three limits as the spec's triple. *)
Definition limits (u : t) : Z * Z * Z :=
  (maxApps u, maxResellers u, maxLicensesPerApp u).
End User.

(** The limits the entitlement model assigns to a plan. *)
Definition plan_limits (p : Plan) : Z * Z * Z :=
  match p with
  | free => (2, 0, 30)
  | premium => (-1, -1, -1)
  end.

(** ** models/App.js *)

(** The nineteen configurable message keys of [appSchema.errorMessages]. *)
Inductive MessageKey : Type :=
  | appDisabled | usernameTaken | keyNotFound | keyUsed | usernameNotFound
  | passMismatch | hwidMismatch | noActiveSubs | hwidBlacklisted | pausedSub
  | vpnBlocked | keyBanned | userBanned | sessionUnauthed | hashCheckFail
  | loggedInMsg | pausedApp | unTooShort | pwLeaked.

Definition default_message (k : MessageKey) : string :=
  match k with
  | appDisabled => "This application is disabled"
  | usernameTaken => "Username already taken, choose a different one"
  | keyNotFound => "Invalid license key"
  | keyUsed => "License key has already been used"
  | usernameNotFound => "Invalid username"
  | passMismatch => "Password does not match."
  | hwidMismatch => "HWID doesn't match. Ask for a HWID reset"
  | noActiveSubs => "No active subscription(s) found"
  | hwidBlacklisted => "You've been blacklisted from our application"
  | pausedSub => "Your subscription is paused and can't be used right now"
  | vpnBlocked => "VPNs are blocked on this application"
  | keyBanned => "Your license is banned"
  | userBanned => "The user is banned"
  | sessionUnauthed => "Session is not validated"
  | hashCheckFail =>
      "This program hash does not match, make sure you're using latest version"
  | loggedInMsg => "Logged in!"
  | pausedApp =>
      "Application is currently paused, please wait for the developer to say otherwise."
  | unTooShort => "Username too short, try longer one."
  | pwLeaked =>
      "This password has been leaked in a data breach (not from us), please use a different one."
  end.

Module App.
Record Settings : Type := mkSettings {
  hwidLock : bool;
  allowCustomLicenseKey : bool
}.

(** A stored message is a string, or [None] when the owner stored [null]. *)
Record t : Type := mk {
  _id : ObjectId;
  name : string;
  owner : ObjectId;
  appId : string;
  appSecret : string;
  version : string;
  paused : bool;
  settings : Settings;
  errorMessages : MessageKey -> option string
}.

Definition default_settings : Settings := mkSettings true false.

Definition default_errorMessages : MessageKey -> option string :=
  fun k => Some (default_message k).
End App.

(** ** models/License.js *)

Inductive Status : Type := ACTIVE | REVOKED | EXPIRED | BANNED.

Definition Status_eqb (a b : Status) : bool :=
  match a, b with
  | ACTIVE, ACTIVE | REVOKED, REVOKED | EXPIRED, EXPIRED | BANNED, BANNED =>
      true
  | _, _ => false
  end.

(** [createdByType]: ['owner'] or ['reseller']. *)
Inductive CreatedByType : Type := byOwner | byReseller.

Definition CreatedByType_eqb (a b : CreatedByType) : bool :=
  match a, b with
  | byOwner, byOwner | byReseller, byReseller => true
  | _, _ => false
  end.

Module License.
Record t : Type := mk {
  _id : ObjectId;
  app : ObjectId;
  key : string;
  createdByUser : ObjectId;
  createdByType : CreatedByType;
  reseller : option ObjectId;
  used : bool;
  usedBy : option ObjectId;
  status : Status;
  note : option string;
  expiresAt : Date
}.

Definition set_status (s : Status) (l : t) : t :=
  mk (_id l) (app l) (key l) (createdByUser l) (createdByType l)
     (reseller l) (used l) (usedBy l) s (note l) (expiresAt l).

Definition set_expiresAt (e : Date) (l : t) : t :=
  mk (_id l) (app l) (key l) (createdByUser l) (createdByType l)
     (reseller l) (used l) (usedBy l) (status l) (note l) e.

Definition set_note (n : option string) (l : t) : t :=
  mk (_id l) (app l) (key l) (createdByUser l) (createdByType l)
     (reseller l) (used l) (usedBy l) (status l) n (expiresAt l).

Definition set_usage (u : bool) (by_ : option ObjectId) (l : t) : t :=
  mk (_id l) (app l) (key l) (createdByUser l) (createdByType l)
     (reseller l) u by_ (status l) (note l) (expiresAt l).

(** The key loop of [licenseSchema.pre('save')]: each element of [rnd] is
    one value of [crypto.randomBytes(12).toString('hex').toUpperCase()];
    a candidate is kept when no stored license carries it.  [None] stands
    for a loop that has not left after all of [rnd]. *)
Fixpoint generateKey (rnd : list string) (c : list t)
  : option (string * list string) :=
  match rnd with
  | [] => None
  | k :: rnd' =>
      if is_some (findOne (fun l => String.eqb (key l) k) c)
      then generateKey rnd' c
      else Some (k, rnd')
  end.

(** virtual [isExpired]: [new Date() > this.expiresAt]. *)
Definition isExpired (now : Date) (l : t) : bool := expiresAt l <? now.

(** virtual [isActive]. *)
Definition isActive (now : Date) (l : t) : bool :=
  Status_eqb (status l) ACTIVE && negb (isExpired now l).

(** [licenseSchema.methods.toggleBan], before its [save()]. *)
Definition toggleBan (l : t) : t :=
  match status l with
  | BANNED => set_status ACTIVE l
  | ACTIVE => set_status BANNED l
  | _ => l
  end.

(** [licenseSchema.methods.revoke], before its [save()]. *)
Definition revoke (l : t) : t := set_status REVOKED l.
End License.

(** ** models/Reseller.js *)

Module Reseller.
Record AllowedActions : Type := mkActions {
  create : bool;
  banUnban : bool;
  editExpiry : bool;
  delete : bool
}.

Inductive Action : Type := ActCreate | ActBanUnban | ActEditExpiry | ActDelete.

(** [usedLicenses] is a [Number]: the bulk creation adds the [count] of
    its body to it, whatever number that is. *)
Record t : Type := mk {
  _id : ObjectId;
  email : string;
  password : string;
  app : ObjectId;
  licenseLimit : Z;
  usedLicenses : Number;
  active : bool;
  allowedActions : AllowedActions
}.

Definition default_allowedActions : AllowedActions :=
  mkActions true true true false.

Definition set_usedLicenses (n : Number) (r : t) : t :=
  mk (_id r) (email r) (password r) (app r) (licenseLimit r) n (active r)
     (allowedActions r).

(** virtual [remainingLicenses]. *)
Definition remainingLicenses (r : t) : Number :=
  if licenseLimit r =? -1 then (-1)%Q
  else Qmax 0 (inject_Z (licenseLimit r) - usedLicenses r)%Q.

Definition canCreateLicense (r : t) : bool :=
  if negb (active r) then false
  else if licenseLimit r =? -1 then true
  else Qlt_bool (usedLicenses r) (inject_Z (licenseLimit r)).

(** [incrementUsedLicenses], before its [save()]. *)
Definition incrementUsedLicenses (r : t) : t :=
  set_usedLicenses (usedLicenses r + 1)%Q r.

(** [decrementUsedLicenses], before its [save()]: guarded by
    [usedLicenses > 0]. *)
Definition decrementUsedLicenses (r : t) : t :=
  if Qlt_bool 0 (usedLicenses r) then set_usedLicenses (usedLicenses r - 1)%Q r
  else r.

Definition hasPermission (a : Action) (r : t) : bool :=
  if negb (active r) then false
  else match a with
       | ActCreate => create (allowedActions r)
       | ActBanUnban => banUnban (allowedActions r)
       | ActEditExpiry => editExpiry (allowedActions r)
       | ActDelete => delete (allowedActions r)
       end.
End Reseller.

(** ** models/Client.js *)

Module Client.
(** A stored [hwid] is a string or [null] (the schema default). *)
Record t : Type := mk {
  _id : ObjectId;
  username : string;
  password : string;
  hwid : option string;
  app : ObjectId;
  licenseKey : string;
  ban : bool;
  expiresAt : Date;
  lastLogin : option Date;
  loginCount : Z
}.

(** What assigning a request value to the [hwid] path stores: the schema's
    [trim] setter runs on strings, [undefined] and [null] leave no string. *)
Definition cast_hwid (h : JsString) : option string :=
  match h with
  | JsStr s => Some (trim s)
  | _ => None
  end.

(** [client.hwid !== hwid] for a loaded document and a request value. *)
Definition hwid_differs (c : t) (h : JsString) : bool :=
  match hwid c, h with
  | None, JsNull => false
  | Some s, JsStr s' => negb (String.eqb s s')
  | _, _ => true
  end.

Definition set_hwid (h : option string) (c : t) : t :=
  mk (_id c) (username c) (password c) h (app c) (licenseKey c) (ban c)
     (expiresAt c) (lastLogin c) (loginCount c).

Definition set_ban (b : bool) (c : t) : t :=
  mk (_id c) (username c) (password c) (hwid c) (app c) (licenseKey c) b
     (expiresAt c) (lastLogin c) (loginCount c).

(** Schema validation of a new document: [username] is trimmed, then
    required with 3 to 50 characters; [password] is required with at least
    6 characters. *)
Definition valid (uname pw : string) : bool :=
  (3 <=? js_length (trim uname))%nat
  && (js_length (trim uname) <=? 50)%nat
  && (6 <=? js_length pw)%nat.

(** The document [Client.create] builds once validation has passed;
    [pwHash] is the password after the bcrypt hook. *)
Definition new_doc (i : ObjectId) (uname pwHash : string) (h : JsString)
    (a : ObjectId) (lk : string) (e : Date) : t :=
  mk i (trim uname) pwHash (cast_hwid h) a lk false e None 0.

(** virtual [isExpired]: [new Date() > this.expiresAt]. *)
Definition isExpired (now : Date) (c : t) : bool := expiresAt c <? now.

(** virtual [isActive]. *)
Definition isActive (now : Date) (c : t) : bool :=
  negb (ban c) && negb (isExpired now c).

(** [updateLoginInfo], before its [save()]. *)
Definition updateLoginInfo (now : Date) (c : t) : t :=
  mk (_id c) (username c) (password c) (hwid c) (app c) (licenseKey c)
     (ban c) (expiresAt c) (Some now) (loginCount c + 1).
End Client.

(** ** models/Payment.js *)

Inductive PayStatus : Type :=
  | pay_created | pay_authorized | pay_captured | pay_refunded | pay_failed.

Definition PayStatus_eqb (a b : PayStatus) : bool :=
  match a, b with
  | pay_created, pay_created | pay_authorized, pay_authorized
  | pay_captured, pay_captured | pay_refunded, pay_refunded
  | pay_failed, pay_failed => true
  | _, _ => false
  end.

Inductive PlanDuration : Type := monthly | yearly.

(** A JSON object with string values, as an association list. *)
Definition JsObject := list (string * string).

Fixpoint js_assign (k v : string) (o : JsObject) : JsObject :=
  match o with
  | [] => [(k, v)]
  | (k', v') :: o' =>
      if String.eqb k' k then (k, v) :: o' else (k', v') :: js_assign k v o'
  end.

(** Object spread [{ ...a, ...b }]. *)
Definition js_spread (a b : JsObject) : JsObject :=
  fold_left (fun acc kv => js_assign (fst kv) (snd kv) acc) b a.

Module Payment.
Record Refund : Type := mkRefund {
  refundId : string;
  refundAmount : Z;
  refundStatus : string;
  reason : string
}.

Record t : Type := mk {
  _id : ObjectId;
  user : ObjectId;
  razorpayPaymentId : string;
  razorpayOrderId : string;
  razorpaySignature : string;
  amount : Z;
  currency : string;
  status : PayStatus;
  method : string;
  planType : Plan;
  planDuration : PlanDuration;
  paymentDetails : JsObject;
  refunds : list Refund;
  isVerified : bool;
  isMockPayment : bool
}.

Definition set_status_details (s : PayStatus) (d : JsObject) (p : t) : t :=
  mk (_id p) (user p) (razorpayPaymentId p) (razorpayOrderId p)
     (razorpaySignature p) (amount p) (currency p) s (method p)
     (planType p) (planDuration p) d (refunds p) (isVerified p)
     (isMockPayment p).

(** [paymentSchema.methods.addRefund], before its [save()]. *)
Definition addRefund (r : Refund) (p : t) : t :=
  mk (_id p) (user p) (razorpayPaymentId p) (razorpayOrderId p)
     (razorpaySignature p) (amount p) (currency p) (status p) (method p)
     (planType p) (planDuration p) (paymentDetails p) (refunds p ++ [r])
     (isVerified p) (isMockPayment p).
End Payment.

(** ** The database and the responses *)

Record DB : Type := mkDB {
  users : list User.t;
  apps : list App.t;
  licenses : list License.t;
  resellers : list Reseller.t;
  clients : list Client.t;
  payments : list Payment.t;
  nextId : ObjectId
}.

Definition empty_db : DB := mkDB [] [] [] [] [] [] 0%nat.

Definition with_users (us : list User.t) (db : DB) : DB :=
  mkDB us (apps db) (licenses db) (resellers db) (clients db) (payments db)
       (nextId db).

Definition with_licenses (ls : list License.t) (db : DB) : DB :=
  mkDB (users db) (apps db) ls (resellers db) (clients db) (payments db)
       (nextId db).

Definition with_resellers (rs : list Reseller.t) (db : DB) : DB :=
  mkDB (users db) (apps db) (licenses db) rs (clients db) (payments db)
       (nextId db).

Definition with_clients (cs : list Client.t) (db : DB) : DB :=
  mkDB (users db) (apps db) (licenses db) (resellers db) cs (payments db)
       (nextId db).

Definition with_payments (ps : list Payment.t) (db : DB) : DB :=
  mkDB (users db) (apps db) (licenses db) (resellers db) (clients db) ps
       (nextId db).

Definition with_apps (aps : list App.t) (db : DB) : DB :=
  mkDB (users db) aps (licenses db) (resellers db) (clients db) (payments db)
       (nextId db).

(** A new [ObjectId]: ids are handed out in increasing order. *)
Definition fresh_id (db : DB) : ObjectId * DB :=
  (nextId db,
   mkDB (users db) (apps db) (licenses db) (resellers db) (clients db)
        (payments db) (S (nextId db))).

(** The [data] member of a JSON response, as far as the handlers below
    fill it. *)
Inductive Data : Type :=
  | NoData
  | DataUser (u : User.t)
  | DataLicense (l : License.t)
  | DataLicenses (ls : list License.t)
  | DataClient (c : Client.t).

(** What a handler answers:
    [Json code success message data] is
    [res.status(code).json({ success, message, data })];
    [Received code] is [res.status(code).json({ received: true })];
    [ErrorJson code e] is [res.status(code).json({ error: e })];
    [Threw] is an exception that leaves the handler for [asyncHandler]. *)
Inductive Response : Type :=
  | Json (code : nat) (success : bool) (message : string) (data : Data)
  | Received (code : nat)
  | ErrorJson (code : nat) (error : string)
  | Threw.

Definition is_success (r : Response) : bool :=
  match r with
  | Json _ s _ _ => s
  | Received _ => true
  | _ => false
  end.

Definition response_message (r : Response) : option string :=
  match r with
  | Json _ _ m _ => Some m
  | _ => None
  end.

(** [getErrorMessage] of routes/clients.js:
    [app.errorMessages[messageKey] || 'An error occurred']. *)
Definition getErrorMessage (a : App.t) (k : MessageKey) : string :=
  match App.errorMessages a k with
  | Some s => if String.eqb s "" then "An error occurred" else s
  | None => "An error occurred"
  end.

(** ** middleware/auth.js *)

(** What [jwt.verify] makes of the bearer token of a request. *)
Inductive Token : Type :=
  | NoToken
  | InvalidToken
  | ExpiredToken
  | Verified (userId : ObjectId).

(** [populate('apps')] keeps the referenced apps that still exist. *)
Definition populate_apps (db : DB) (ids : list ObjectId) : list App.t :=
  flat_map (fun i => match findById App._id i (apps db) with
                     | Some a => [a]
                     | None => []
                     end) ids.

Definition authenticateToken (tok : Token) (db : DB) : Response + User.t :=
  match tok with
  | NoToken => inl (Json 401 false "Access token is required" NoData)
  | InvalidToken => inl (Json 401 false "Invalid token" NoData)
  | ExpiredToken => inl (Json 401 false "Token expired" NoData)
  | Verified uid =>
      match findById User._id uid (users db) with
      | None => inl (Json 401 false "Invalid token - user not found" NoData)
      | Some u => inr u
      end
  end.

Definition authenticateResellerToken (tok : Token) (db : DB)
  : Response + Reseller.t :=
  match tok with
  | NoToken => inl (Json 401 false "Access token is required" NoData)
  | InvalidToken => inl (Json 401 false "Invalid token" NoData)
  | ExpiredToken => inl (Json 401 false "Token expired" NoData)
  | Verified rid =>
      match findById Reseller._id rid (resellers db) with
      | None =>
          inl (Json 401 false "Invalid token - reseller not found" NoData)
      | Some r => inr r
      end
  end.

(** [requireAppOwnership]: the app of the route is among the caller's
    populated apps. *)
Definition requireAppOwnership (db : DB) (user : User.t) (appId : ObjectId)
  : bool :=
  existsb (fun a => Nat.eqb (App._id a) appId)
          (populate_apps db (User.apps user)).

(** ** routes/payments.js *)

(** The update document of the upgrade in [POST /payments/razorpay/verify]. *)
Definition upgrade_update (u : User.t) : User.t :=
  User.mk (User._id u) (User.name u) (User.email u) (User.password u)
          premium (-1) (-1) (-1) (User.apps u) paid.

(** The update document of [POST /payments/cancel-subscription]. *)
Definition downgrade_update (u : User.t) : User.t :=
  User.mk (User._id u) (User.name u) (User.email u) (User.password u)
          free 2 1 30 (User.apps u) unpaid.

(** [User.findByIdAndUpdate(id, update, { new: true })]: a query update;
    the [pre('save')] hooks of the schema do not run. *)
Definition User_findByIdAndUpdate (i : ObjectId) (f : User.t -> User.t)
    (db : DB) : option User.t * DB :=
  let db' := with_users (updateById User._id i f (users db)) db in
  (findById User._id i (users db'), db').

Definition cancel_subscription (tok : Token) (db : DB) : Response * DB :=
  match authenticateToken tok db with
  | inl r => (r, db)
  | inr u =>
      if Plan_eqb (User.plan u) free then
        (Json 400 false "You are already on the free plan" NoData, db)
      else
        let userAppsCount :=
          Z.of_nat (List.length (populate_apps db (User.apps u))) in
        if 2 <? userAppsCount then
          (Json 400 false
             ("You have " ++ showZ userAppsCount ++ " apps. Please delete "
              ++ showZ (userAppsCount - 2)
              ++ " apps before downgrading to free plan.") NoData, db)
        else
          match User_findByIdAndUpdate (User._id u) downgrade_update db with
          | (Some user, db') =>
              (Json 200 true "Successfully downgraded to free plan"
                    (DataUser user), db')
          | (None, db') => (Threw, db')
          end
  end.

(** What the gateway client returns for [payments.fetch] and
    [orders.fetch]. *)
Record GatewayPayment : Type := mkGatewayPayment {
  gp_id : string;
  gp_order_id : string;
  gp_amount : Z;
  gp_currency : string;
  gp_status : string;
  gp_method : option string;
  gp_details : JsObject
}.

Record GatewayOrder : Type := mkGatewayOrder {
  go_userId : option ObjectId;
  go_planType : option string;
  go_planDuration : option string
}.

(** [None] is a rejected promise of the gateway client. *)
Record Gateway : Type := mkGateway {
  payments_fetch : string -> option GatewayPayment;
  orders_fetch : string -> option GatewayOrder
}.

Definition parse_status (s : string) : option PayStatus :=
  if String.eqb s "created" then Some pay_created
  else if String.eqb s "authorized" then Some pay_authorized
  else if String.eqb s "captured" then Some pay_captured
  else if String.eqb s "refunded" then Some pay_refunded
  else if String.eqb s "failed" then Some pay_failed
  else None.

Definition parse_planType (s : string) : option Plan :=
  if String.eqb s "free" then Some free
  else if String.eqb s "premium" then Some premium
  else None.

Definition parse_planDuration (s : string) : option PlanDuration :=
  if String.eqb s "monthly" then Some monthly
  else if String.eqb s "yearly" then Some yearly
  else None.

(** [a || b] on an optional string. *)
Definition or_default (o : option string) (d : string) : string :=
  if truthy o then match o with Some s => s | None => d end else d.

Section Payments.
Variable hmac_sha256_hex : string -> string -> string.

(** [paymentRecord.save()]: schema validation, then the unique index on
    [razorpayPaymentId]. *)
Definition Payment_save (p : Payment.t) (db : DB) : option DB :=
  if is_some (findOne (fun q => String.eqb (Payment.razorpayPaymentId q)
                                           (Payment.razorpayPaymentId p))
                      (payments db))
  then None
  else Some (with_payments (insertOne p (payments db)) db).

(** [POST /payments/razorpay/verify].  In the mock branch the template
    literal reads [order] ahead of its [const] declaration further down the
    same [try] block, so that branch always ends in the [catch]. *)
Definition razorpay_verify (isDevelopmentMode : bool)
    (keySecret : option string) (gw : Gateway) (tok : Token)
    (razorpay_order_id razorpay_payment_id razorpay_signature : option string)
    (db : DB) : Response * DB :=
  match authenticateToken tok db with
  | inl r => (r, db)
  | inr u =>
      match razorpay_order_id, razorpay_payment_id, razorpay_signature with
      | Some oid, Some pid, Some sig =>
          if negb (truthy (Some oid) && truthy (Some pid)
                   && truthy (Some sig)) then
            (Json 400 false "Missing required payment verification data"
                  NoData, db)
          else
          let failed_ := Json 500 false "Payment verification failed" NoData in
          if isDevelopmentMode || String.prefix "order_mock_" oid then
            (failed_, db)
          else
            match keySecret with
            | None => (failed_, db)
            | Some secret =>
                if negb (String.eqb (hmac_sha256_hex secret (oid ++ "|" ++ pid))
                                    sig) then
                  (Json 400 false "Invalid payment signature" NoData, db)
                else
                  match payments_fetch gw pid with
                  | None => (failed_, db)
                  | Some payment =>
                      if negb (String.eqb (gp_status payment) "captured") then
                        (Json 400 false "Payment not completed" NoData, db)
                      else
                        match orders_fetch gw oid with
                        | None => (failed_, db)
                        | Some order =>
                            if negb match go_userId order with
                                    | Some i => Nat.eqb i (User._id u)
                                    | None => false
                                    end then
                              (Json 400 false
                                 "Payment verification failed - user mismatch"
                                 NoData, db)
                            else
                              let (pid', db1) := fresh_id db in
                              match
                                parse_status (gp_status payment),
                                gp_method payment,
                                parse_planType
                                  (or_default (go_planType order) "premium"),
                                parse_planDuration
                                  (or_default (go_planDuration order) "monthly")
                              with
                              | Some st, Some meth, Some pt, Some pd =>
                                  let rec_ :=
                                    Payment.mk pid' (User._id u)
                                      (gp_id payment) (gp_order_id payment) sig
                                      (gp_amount payment) (gp_currency payment)
                                      st meth pt pd (gp_details payment) []
                                      true false in
                                  match Payment_save rec_ db1 with
                                  | None => (failed_, db1)
                                  | Some db2 =>
                                      match User_findByIdAndUpdate
                                              (User._id u) upgrade_update db2
                                      with
                                      | (Some user, db3) =>
                                          (Json 200 true
                                             "Payment verified successfully. Welcome to premium!"
                                             (DataUser user), db3)
                                      | (None, db3) => (failed_, db3)
                                      end
                                  end
                              | _, _, _, _ => (failed_, db1)
                              end
                        end
                  end
            end
      | _, _, _ =>
          (Json 400 false "Missing required payment verification data"
                NoData, db)
      end
  end.
End Payments.

(** *** The webhook *)

(** [payload.payment.entity] or [payload.refund.entity] of a webhook body. *)
Record Entity : Type := mkEntity {
  entity_id : string;
  entity_payment_id : string;
  entity_amount : Z;
  entity_fields : JsObject
}.

(** The parts of [req.body] the webhook reads.  [wb_payment] is [None]
    when [payload.payment] is missing (reading [.entity] then throws),
    [Some None] when the entity itself is missing; likewise
    [wb_refund]. *)
Record WebhookBody : Type := mkWebhookBody {
  wb_stringified : string;
  wb_event : string;
  wb_payment : option (option Entity);
  wb_refund : option (option Entity)
}.

(** The paths the Payment schema declares under [paymentDetails]: an
    assignment to [paymentDetails] keeps these keys and, the schema being
    strict, drops every other one. *)
Definition paymentDetails_paths : list string :=
  ["card"; "bank"; "wallet"; "vpa"; "email"; "contact"; "fee"; "tax";
   "acquirer_data"].

Definition strict_paymentDetails (o : JsObject) : JsObject :=
  filter (fun kv => existsb (String.eqb (fst kv)) paymentDetails_paths) o.

Definition Payment_findByPaymentId (pid : string) (db : DB)
  : option Payment.t :=
  findOne (fun p => String.eqb (Payment.razorpayPaymentId p) pid)
          (payments db).

Definition Payment_update (p : Payment.t) (db : DB) : DB :=
  with_payments (updateById Payment._id (Payment._id p) (fun _ => p)
                            (payments db)) db.

(** [handlePaymentCaptured]; its own [try]/[catch] swallows every
    exception, a missing entity included. *)
Definition handlePaymentCaptured (paymentData : option Entity) (db : DB)
  : DB :=
  match paymentData with
  | None => db
  | Some e =>
      match Payment_findByPaymentId (entity_id e) db with
      | Some payment =>
          if negb (PayStatus_eqb (Payment.status payment) pay_captured) then
            Payment_update
              (Payment.set_status_details pay_captured
                 (strict_paymentDetails
                    (js_spread (Payment.paymentDetails payment)
                               (entity_fields e)))
                 payment) db
          else db
      | None => db
      end
  end.

Definition js_field (k : string) (o : JsObject) : string :=
  match find (fun kv => String.eqb (fst kv) k) o with
  | Some kv => snd kv
  | None => ""
  end.

Definition handlePaymentFailed (paymentData : option Entity) (db : DB)
  : DB :=
  match paymentData with
  | None => db
  | Some e =>
      match Payment_findByPaymentId (entity_id e) db with
      | Some payment =>
          Payment_update
            (Payment.set_status_details pay_failed
               (strict_paymentDetails
                  (js_spread (Payment.paymentDetails payment)
                     [("error_code", js_field "error_code" (entity_fields e));
                      ("error_description",
                       js_field "error_description" (entity_fields e))]))
               payment) db
      | None => db
      end
  end.

Definition handleRefundProcessed (refundData : option Entity) (db : DB)
  : DB :=
  match refundData with
  | None => db
  | Some e =>
      match Payment_findByPaymentId (entity_payment_id e) db with
      | Some payment =>
          Payment_update
            (Payment.addRefund
               (Payment.mkRefund (entity_id e) (entity_amount e)
                  (js_field "status" (entity_fields e))
                  (or_default (Some (js_field "reason" (entity_fields e)))
                              "Refund requested"))
               payment) db
      | None => db
      end
  end.

Section Webhook.
Variable hmac_sha256_hex : string -> string -> string.

(** [POST /payments/webhook]: [webhookSignature] is the
    [X-Razorpay-Signature] header, [webhookSecret] is
    [process.env.RAZORPAY_WEBHOOK_SECRET]. *)
Definition webhook (webhookSignature webhookSecret : option string)
    (body : WebhookBody) (db : DB) : Response * DB :=
  if negb (truthy webhookSecret) then (Received 200, db)
  else
    match webhookSecret with
    | None => (Received 200, db)
    | Some secret =>
        let expectedSignature :=
          hmac_sha256_hex secret (wb_stringified body) in
        if negb match webhookSignature with
                | Some s => String.eqb s expectedSignature
                | None => false
                end then
          (ErrorJson 400 "Invalid signature", db)
        else if String.eqb (wb_event body) "payment.captured" then
          match wb_payment body with
          | None => (ErrorJson 500 "Webhook processing failed", db)
          | Some e => (Received 200, handlePaymentCaptured e db)
          end
        else if String.eqb (wb_event body) "payment.failed" then
          match wb_payment body with
          | None => (ErrorJson 500 "Webhook processing failed", db)
          | Some e => (Received 200, handlePaymentFailed e db)
          end
        else if String.eqb (wb_event body) "refund.processed" then
          match wb_refund body with
          | None => (ErrorJson 500 "Webhook processing failed", db)
          | Some e => (Received 200, handleRefundProcessed e db)
          end
        else (Received 200, db)
    end.
End Webhook.

(** ** routes/clients.js *)

Definition License_findByKey (k : string) (db : DB) : option License.t :=
  findOne (fun l => String.eqb (License.key l) k) (licenses db).

(** [Client.findOne({ app, username })]: the filter is cast through the
    [trim] setter of the [username] path. *)
Definition Client_findByAppUsername (a : ObjectId) (uname : string) (db : DB)
  : option Client.t :=
  findOne (fun c => Nat.eqb (Client.app c) a
                    && String.eqb (Client.username c) (trim uname))
          (clients db).

(** [license.save()] / [client.save()] of a loaded document. *)
Definition License_save (l : License.t) (db : DB) : DB :=
  with_licenses (updateById License._id (License._id l) (fun _ => l)
                            (licenses db)) db.

Definition Client_save (c : Client.t) (db : DB) : DB :=
  with_clients (updateById Client._id (Client._id c) (fun _ => c)
                           (clients db)) db.

Section Clients.
Variable bcrypt_hash : string -> string.
Variable bcrypt_compare : string -> string -> bool.

(** [Client.create]: validation, the password hook, then the insert under
    the unique index on [(app, username)].  [None] is a thrown error. *)
Definition Client_create (uname pw : string) (h : JsString) (a : ObjectId)
    (lk : string) (e : Date) (db : DB) : option (Client.t * DB) :=
  if negb (Client.valid uname pw) then None
  else if is_some (Client_findByAppUsername a (trim uname) db) then None
  else
    let (i, db1) := fresh_id db in
    let c := Client.new_doc i uname (bcrypt_hash pw) h a lk e in
    Some (c, with_clients (insertOne c (clients db1)) db1).

(** The handler of [POST /clients/register], behind
    [validateClientRegistration]. *)
Definition register (now : Date) (username password licenseKey : string)
    (hwid : JsString) (db : DB) : Response * DB :=
  match License_findByKey licenseKey db with
  | None => (Json 400 false "Invalid license key" NoData, db)
  | Some license =>
      match findById App._id (License.app license) (apps db) with
      | None => (Threw, db)
      | Some app =>
          if App.paused app then
            (Json 400 false (getErrorMessage app pausedApp) NoData, db)
          else if License.used license then
            (Json 400 false (getErrorMessage app keyUsed) NoData, db)
          else if negb (Status_eqb (License.status license) ACTIVE) then
            (Json 400 false (getErrorMessage app keyBanned) NoData, db)
          else if License.isExpired now license then
            (Json 400 false (getErrorMessage app noActiveSubs) NoData, db)
          else if (js_length username <? 3)%nat then
            (Json 400 false (getErrorMessage app unTooShort) NoData, db)
          else if is_some (Client_findByAppUsername (App._id app) username db)
          then
            (Json 400 false (getErrorMessage app usernameTaken) NoData, db)
          else
            match Client_create username password hwid (App._id app)
                                licenseKey (License.expiresAt license) db with
            | None => (Threw, db)
            | Some (client, db1) =>
                let license' :=
                  License.set_usage true (Some (Client._id client)) license in
                (Json 201 true "Registration successful" (DataClient client),
                 License_save license' db1)
            end
      end
  end.

(** The handler of [POST /clients/login], behind [validateClientLogin]. *)
Definition login (now : Date) (username password : string) (hwid : JsString)
    (appId appSecret : string) (db : DB) : Response * DB :=
  match findOne (fun a => String.eqb (App.appId a) appId
                          && String.eqb (App.appSecret a) appSecret)
                (apps db) with
  | None => (Json 401 false "Invalid application credentials" NoData, db)
  | Some app =>
      if App.paused app then
        (Json 400 false (getErrorMessage app pausedApp) NoData, db)
      else
        match Client_findByAppUsername (App._id app) username db with
        | None =>
            (Json 401 false (getErrorMessage app usernameNotFound) NoData, db)
        | Some client =>
            if negb (bcrypt_compare password (Client.password client)) then
              (Json 401 false (getErrorMessage app passMismatch) NoData, db)
            else if Client.ban client then
              (Json 403 false (getErrorMessage app userBanned) NoData, db)
            else if Client.isExpired now client then
              (Json 403 false (getErrorMessage app noActiveSubs) NoData, db)
            else
              match
                if App.hwidLock (App.settings app) then
                  if Client.hwid_differs client hwid then None
                  else Some client
                else
                  if Client.hwid_differs client hwid
                  then Some (Client.set_hwid (Client.cast_hwid hwid) client)
                  else Some client
              with
              | None =>
                  (Json 403 false (getErrorMessage app hwidMismatch) NoData,
                   db)
              | Some client1 =>
                  let client2 := Client.updateLoginInfo now client1 in
                  (Json 200 true (getErrorMessage app loggedInMsg)
                        (DataClient client2),
                   Client_save client2 db)
              end
        end
  end.
End Clients.

(** [DELETE /clients/:id]. *)
Definition delete_client (tok : Token) (clientId : ObjectId) (db : DB)
  : Response * DB :=
  match authenticateToken tok db with
  | inl r => (r, db)
  | inr user =>
      match findById Client._id clientId (clients db) with
      | None => (Json 404 false "Client not found" NoData, db)
      | Some client =>
          match findById App._id (Client.app client) (apps db) with
          | None => (Threw, db)
          | Some app =>
              if negb (Nat.eqb (App.owner app) (User._id user)) then
                (Json 403 false
                   "You do not have permission to delete this client"
                   NoData, db)
              else
                let db1 :=
                  match License_findByKey (Client.licenseKey client) db with
                  | Some license =>
                      License_save (License.set_usage false None license) db
                  | None => db
                  end in
                (Json 200 true
                   "Client deleted successfully and license has been freed"
                   NoData,
                 with_clients
                   (findByIdAndDelete Client._id clientId (clients db1)) db1)
          end
      end
  end.

(** ** routes/licenses.js *)

(** [appSchema.methods.canCreateLicense(userId)]. *)
Definition App_canCreateLicense (a : App.t) (userId : ObjectId) (db : DB)
  : bool :=
  match findById User._id userId (users db) with
  | None => false
  | Some user =>
      if User.maxLicensesPerApp user =? -1 then true
      else
        Z.of_nat (countDocuments
                    (fun l => Nat.eqb (License.app l) (App._id a))
                    (licenses db))
        <? User.maxLicensesPerApp user
  end.

(** [Reseller.findOne({ user: userId, app: appId, active: true })].  The
    Reseller schema declares no [user] path: under [strictQuery] the path
    is dropped from the filter, otherwise it stays and no stored document
    carries it. *)
Definition Reseller_findForUser (strictQuery : bool) (userId appId : ObjectId)
    (db : DB) : option Reseller.t :=
  if strictQuery then
    findOne (fun r => Nat.eqb (Reseller.app r) appId && Reseller.active r)
            (resellers db)
  else None.

Definition Reseller_save (r : Reseller.t) (db : DB) : DB :=
  with_resellers (updateById Reseller._id (Reseller._id r) (fun _ => r)
                             (resellers db)) db.

(** The outcome of [License.create]. *)
Inductive CreateResult : Type :=
  | Created (l : License.t) (rnd' : list string) (db' : DB)
  | Invalid
  | Spinning.

(** [License.create(licenseData)]: schema validation ([note] of at most 500
    characters), the key hook when no key is given, the insert.
    [Invalid] is a thrown validation error, [Spinning] a key loop that has
    not left after all of [rnd]. *)
Definition License_create (a createdBy : ObjectId) (ty : CreatedByType)
    (res : option ObjectId) (k : option string) (e : Date)
    (n : option string) (rnd : list string) (db : DB) : CreateResult :=
  if match n with
     | Some s => (500 <? js_length s)%nat
     | None => false
     end then Invalid
  else
    let (i, db1) := fresh_id db in
    let insert k' rnd' :=
      let l := License.mk i a k' createdBy ty res false None ACTIVE n e in
      Created l rnd' (with_licenses (insertOne l (licenses db1)) db1) in
    if truthy k then
      match k with
      | Some k' => insert k' rnd
      | None => Invalid
      end
    else
      match License.generateKey rnd (licenses db1) with
      | Some (k', rnd') => insert k' rnd'
      | None => Spinning
      end.

(** The handler of [POST /licenses], behind [validateLicenseCreation].
    [None] is a request whose key loop has not left after all of [rnd]. *)
Definition create_license (strictQuery : bool) (tok : Token)
    (appId : ObjectId) (key : option string) (expiresAt : Date)
    (note : option string) (rnd : list string) (db : DB)
  : option (Response * DB) :=
  match authenticateToken tok db with
  | inl r => Some (r, db)
  | inr user =>
      let userId := User._id user in
      match findById App._id appId (apps db) with
      | None => Some (Json 404 false "App not found" NoData, db)
      | Some app =>
          match
            if Nat.eqb (App.owner app) userId then inr (byOwner, None)
            else
              match Reseller_findForUser strictQuery userId appId db with
              | None =>
                  inl (Json 403 false
                         "You do not have permission to create licenses for this app"
                         NoData)
              | Some r =>
                  if negb (Reseller.hasPermission Reseller.ActCreate r) then
                    inl (Json 403 false
                           "You do not have permission to create licenses"
                           NoData)
                  else if negb (Reseller.canCreateLicense r) then
                    inl (Json 403 false
                           "You have reached your license creation limit"
                           NoData)
                  else inr (byReseller, Some r)
              end
          with
          | inl r => Some (r, db)
          | inr (createdByType, res) =>
              if CreatedByType_eqb createdByType byOwner
                 && negb (App_canCreateLicense app userId db) then
                Some (Json 403 false
                        ("App has reached the maximum limit of "
                         ++ showZ (User.maxLicensesPerApp user)
                         ++ " licenses for your plan") NoData, db)
              else if truthy key
                      && negb (App.allowCustomLicenseKey (App.settings app))
              then
                Some (Json 400 false
                        "Custom license keys are not allowed for this app"
                        NoData, db)
              else if truthy key
                      && match key with
                         | Some k => is_some (License_findByKey k db)
                         | None => false
                         end
              then
                Some (Json 400 false "License key already exists" NoData, db)
              else
                match License_create appId userId createdByType
                        (option_map Reseller._id res)
                        (if truthy key then key else None)
                        expiresAt note rnd db with
                | Invalid => Some (Threw, db)
                | Spinning => None
                | Created license _ db1 =>
                    let db2 :=
                      match res with
                      | Some r =>
                          Reseller_save (Reseller.incrementUsedLicenses r) db1
                      | None => db1
                      end in
                    Some (Json 201 true "License created successfully"
                               (DataLicense license), db2)
                end
          end
      end
  end.

(** [PUT /licenses/:id]; the body fields are [None] when [undefined]. *)
Definition update_license (strictQuery : bool) (tok : Token)
    (licenseId : ObjectId) (status : option Status)
    (expiresAt : option Date) (note : option string) (db : DB)
  : Response * DB :=
  match authenticateToken tok db with
  | inl r => (r, db)
  | inr user =>
      match findById License._id licenseId (licenses db) with
      | None => (Json 404 false "License not found" NoData, db)
      | Some license =>
          match findById App._id (License.app license) (apps db) with
          | None => (Threw, db)
          | Some app =>
              let isOwner := Nat.eqb (App.owner app) (User._id user) in
              match
                if isOwner then None
                else
                  match Reseller_findForUser strictQuery (User._id user)
                          (App._id app) db with
                  | None =>
                      Some "You do not have permission to update this license"
                  | Some r =>
                      if is_some status
                         && negb (Reseller.hasPermission
                                    Reseller.ActBanUnban r) then
                        Some "You do not have permission to change license status"
                      else if is_some expiresAt
                              && negb (Reseller.hasPermission
                                         Reseller.ActEditExpiry r) then
                        Some "You do not have permission to edit license expiry"
                      else None
                  end
              with
              | Some m => (Json 403 false m NoData, db)
              | None =>
                  let l1 := match status with
                            | Some s => License.set_status s license
                            | None => license
                            end in
                  let l2 := match expiresAt with
                            | Some e => License.set_expiresAt e l1
                            | None => l1
                            end in
                  let l3 := match note with
                            | Some n => License.set_note (Some n) l2
                            | None => l2
                            end in
                  if match License.note l3 with
                     | Some s => (500 <? js_length s)%nat
                     | None => false
                     end then (Threw, db)
                  else
                    (Json 200 true "License updated successfully"
                          (DataLicense l3), License_save l3 db)
              end
          end
      end
  end.

(** [Reseller.findByIdAndUpdate(id, { $inc: { usedLicenses: -1 } })]. *)
Definition Reseller_inc_usedLicenses (i : ObjectId) (delta : Number)
    (db : DB) : DB :=
  with_resellers
    (updateById Reseller._id i
       (fun r =>
          Reseller.set_usedLicenses (Reseller.usedLicenses r + delta)%Q r)
       (resellers db)) db.

(** [populate('reseller')]: the referenced reseller when it still exists. *)
Definition populate_reseller (l : License.t) (db : DB) : option Reseller.t :=
  match License.reseller l with
  | Some i => findById Reseller._id i (resellers db)
  | None => None
  end.

(** [DELETE /licenses/:id]. *)
Definition delete_license (tok : Token) (licenseId : ObjectId) (db : DB)
  : Response * DB :=
  match authenticateToken tok db with
  | inl r => (r, db)
  | inr user =>
      match findById License._id licenseId (licenses db) with
      | None => (Json 404 false "License not found" NoData, db)
      | Some license =>
          match findById App._id (License.app license) (apps db) with
          | None => (Threw, db)
          | Some app =>
              if negb (Nat.eqb (App.owner app) (User._id user)) then
                (Json 403 false "Only app owners can delete licenses" NoData,
                 db)
              else
                let db1 :=
                  match populate_reseller license db with
                  | Some r => Reseller_inc_usedLicenses (Reseller._id r) (-1) db
                  | None => db
                  end in
                (Json 200 true "License deleted successfully" NoData,
                 with_licenses
                   (findByIdAndDelete License._id licenseId (licenses db1))
                   db1)
          end
      end
  end.

(** [PATCH /licenses/:id/toggle-ban]. *)
Definition toggle_ban (strictQuery : bool) (tok : Token)
    (licenseId : ObjectId) (db : DB) : Response * DB :=
  match authenticateToken tok db with
  | inl r => (r, db)
  | inr user =>
      match findById License._id licenseId (licenses db) with
      | None => (Json 404 false "License not found" NoData, db)
      | Some license =>
          match findById App._id (License.app license) (apps db) with
          | None => (Threw, db)
          | Some app =>
              let isOwner := Nat.eqb (App.owner app) (User._id user) in
              if negb isOwner
                 && match Reseller_findForUser strictQuery (User._id user)
                            (App._id app) db with
                    | None => true
                    | Some r =>
                        negb (Reseller.hasPermission Reseller.ActBanUnban r)
                    end
              then
                (Json 403 false
                   "You do not have permission to ban/unban licenses" NoData,
                 db)
              else
                let license' := License.toggleBan license in
                (Json 200 true
                   (if Status_eqb (License.status license') BANNED
                    then "License banned successfully"
                    else "License unbanned successfully")
                   (DataLicense license'),
                 License_save license' db)
          end
      end
  end.

(** [DELETE /licenses]: the owner-created licenses of one app, or of all the
    caller's apps. *)
Definition delete_licenses (tok : Token) (appId : option ObjectId) (db : DB)
  : Response * DB :=
  match authenticateToken tok db with
  | inl r => (r, db)
  | inr user =>
      let userId := User._id user in
      match
        match appId with
        | Some a =>
            match findOne (fun x => Nat.eqb (App._id x) a
                                    && Nat.eqb (App.owner x) userId)
                          (apps db) with
            | None => None
            | Some _ => Some (fun l : License.t => Nat.eqb (License.app l) a)
            end
        | None =>
            let userApps :=
              filter (fun x => Nat.eqb (App.owner x) userId) (apps db) in
            Some (fun l : License.t =>
                    existsb (fun x => Nat.eqb (App._id x) (License.app l))
                            userApps)
        end
      with
      | None =>
          (Json 404 false "App not found or you are not the owner" NoData, db)
      | Some inApp =>
          let query (l : License.t) :=
            inApp l && CreatedByType_eqb (License.createdByType l) byOwner in
          let licenseCount := countDocuments query (licenses db) in
          let usedLicenses :=
            filter (fun l => query l && License.used l) (licenses db) in
          let db1 :=
            fold_left
              (fun acc l =>
                 match License.reseller l with
                 | Some i => Reseller_inc_usedLicenses i (-1) acc
                 | None => acc
                 end) usedLicenses db in
          (Json 200 true
             ("Successfully deleted " ++ showZ (Z.of_nat licenseCount)
              ++ " license(s)") NoData,
           with_licenses (deleteMany query (licenses db1)) db1)
      end
  end.

(** ** routes/resellers.js *)

(** The loop of [POST /resellers/auth/licenses]: [n] iterations left,
    [acc] the licenses created so far. *)
Fixpoint create_loop (n : nat) (a : ObjectId) (r : ObjectId) (e : Date)
    (note : option string) (rnd : list string) (db : DB)
    (acc : list License.t) : option (option (list License.t) * DB) :=
  match n with
  | O => Some (Some acc, db)
  | S n' =>
      match License_create a r byReseller (Some r) None e note rnd db with
      | Invalid => Some (None, db)
      | Spinning => None
      | Created l rnd' db' => create_loop n' a r e note rnd' db' (acc ++ [l])
      end
  end.

(** [POST /resellers/auth/licenses], a route without a validation chain.
    [count] is [None] when the body has no [count], otherwise the JSON
    number it carries, an integer or not (a [count] that is no number is
    left out); [expiresAt] likewise, as a date.  The loop [for (let i = 0; i < count; i++)] runs once for
    every natural number below [count].  [show] renders a number in a
    template literal.  [None] is a request whose key loop has not left
    after all of [rnd]. *)
Definition reseller_create_licenses (show : Number -> string) (now : Date)
    (tok : Token) (count : option Number) (expiresAt : option Date)
    (note : option string) (rnd : list string) (db : DB)
  : option (Response * DB) :=
  match authenticateResellerToken tok db with
  | inl r => Some (r, db)
  | inr reseller =>
      if negb (Reseller.active reseller) then
        Some (Json 404 false "Reseller account not found or inactive" NoData,
              db)
      else
        match count with
        | None =>
            Some (Json 400 false "Count must be between 1 and 100" NoData, db)
        | Some count =>
            if Qeq_bool count 0 || Qlt_bool count 1 || Qlt_bool 100 count then
              Some (Json 400 false "Count must be between 1 and 100" NoData,
                    db)
            else if negb (Reseller.canCreateLicense reseller) then
              Some (Json 403 false
                      ("License limit reached. You can create "
                       ++ (if Reseller.licenseLimit reseller =? -1
                           then "unlimited"
                           else showZ (Reseller.licenseLimit reseller))
                       ++ " licenses total.") NoData, db)
            else if negb (Reseller.licenseLimit reseller =? -1)
                    && Qlt_bool (inject_Z (Reseller.licenseLimit reseller))
                                (Reseller.usedLicenses reseller + count) then
              Some (Json 403 false
                      ("Cannot create " ++ show count
                       ++ " licenses. You have "
                       ++ show (Reseller.remainingLicenses reseller)
                       ++ " licenses remaining.") NoData, db)
            else
              match expiresAt with
              | None =>
                  Some (Json 400 false
                          "Valid future expiration date is required" NoData,
                        db)
              | Some e =>
                  if e <=? now then
                    Some (Json 400 false
                            "Valid future expiration date is required" NoData,
                          db)
                  else
                    match findById App._id (Reseller.app reseller) (apps db)
                    with
                    | None => Some (Threw, db)
                    | Some app =>
                        match create_loop (Z.to_nat (Qceiling count))
                                (App._id app) (Reseller._id reseller) e note
                                rnd db []
                        with
                        | None => None
                        | Some (None, db1) => Some (Threw, db1)
                        | Some (Some createdLicenses, db1) =>
                            let r1 :=
                              Reseller.incrementUsedLicenses reseller in
                            let db2 := Reseller_save r1 db1 in
                            let r2 :=
                              Reseller.set_usedLicenses
                                (Reseller.usedLicenses r1 + (count - 1))%Q
                                r1 in
                            let db3 := Reseller_save r2 db2 in
                            Some (Json 201 true
                                    ("Successfully created " ++ show count
                                     ++ " license(s)")
                                    (DataLicenses createdLicenses), db3)
                        end
                    end
              end
        end
  end.

(** [DELETE /resellers/:id]. *)
Definition delete_reseller (tok : Token) (resellerId : ObjectId) (db : DB)
  : Response * DB :=
  match authenticateToken tok db with
  | inl r => (r, db)
  | inr user =>
      match findById Reseller._id resellerId (resellers db) with
      | None => (Json 404 false "Reseller not found" NoData, db)
      | Some reseller =>
          match findById App._id (Reseller.app reseller) (apps db) with
          | None => (Threw, db)
          | Some app =>
              if negb (Nat.eqb (App.owner app) (User._id user)) then
                (Json 403 false
                   "You can only delete resellers for your own apps" NoData,
                 db)
              else
                let activeLicenses :=
                  countDocuments
                    (fun l =>
                       match License.reseller l with
                       | Some i => Nat.eqb i (Reseller._id reseller)
                       | None => false
                       end
                       && Status_eqb (License.status l) ACTIVE)
                    (licenses db) in
                if (0 <? activeLicenses)%nat then
                  (Json 400 false
                     ("Cannot delete reseller with "
                      ++ showZ (Z.of_nat activeLicenses)
                      ++ " active licenses") NoData, db)
                else
                  (Json 200 true "Reseller deleted successfully" NoData,
                   with_resellers
                     (findByIdAndDelete Reseller._id resellerId
                        (resellers db)) db)
          end
      end
  end.

(** ** routes/apps.js *)

(** [DELETE /apps/:id], behind [requireAppOwnership]. *)
Definition delete_app (tok : Token) (appId : ObjectId) (db : DB)
  : Response * DB :=
  match authenticateToken tok db with
  | inl r => (r, db)
  | inr user =>
      if negb (requireAppOwnership db user appId) then
        (Json 403 false "Access denied - you do not own this app" NoData, db)
      else
        match findById App._id appId (apps db) with
        | None => (Json 404 false "App not found" NoData, db)
        | Some _ =>
            let db1 :=
              with_licenses
                (deleteMany (fun l => Nat.eqb (License.app l) appId)
                            (licenses db)) db in
            let db2 :=
              with_users
                (updateById User._id (User._id user)
                   (fun u =>
                      User.mk (User._id u) (User.name u) (User.email u)
                        (User.password u) (User.plan u) (User.maxApps u)
                        (User.maxResellers u) (User.maxLicensesPerApp u)
                        (filter (fun i => negb (Nat.eqb i appId))
                                (User.apps u))
                        (User.paymentStatus u))
                   (users db1)) db1 in
            (Json 200 true "App and all related data deleted successfully"
                  NoData,
             with_apps (findByIdAndDelete App._id appId (apps db2)) db2)
        end
  end.

(** ** middleware/validation.js

    An express-validator chain runs in front of the handler of some
    routes; [validate] answers 400 'Validation failed' when a check of the
    chain has failed, and the handler is not run.  A sanitizer of the
    chain ([trim], [normalizeEmail]) rewrites the field the handler then
    reads.  A field that is absent or [null] is validated as the empty
    string. *)

Fixpoint string_forallb (p : ascii -> bool) (s : string) : bool :=
  match s with
  | EmptyString => true
  | String c s' => p c && string_forallb p s'
  end.

Definition is_ascii (s : string) : bool :=
  string_forallb (fun c => (nat_of_ascii c <? 128)%nat) s.

(** What the chains take from validator.js: [vlen] is the length that
    [isLength] compares with its bounds, which is [s.length] less the
    characters the installed version does not count (the low half of a
    surrogate pair, in later versions a variation selector); [isEmail] and
    [normalizeEmail] are the functions of these names with their default
    options.  On a string of ASCII characters [vlen] is [s.length], and
    it never exceeds [s.length]. *)
Record Validator : Type := mkValidator {
  vlen : string -> nat;
  isEmail : string -> bool;
  normalizeEmail : string -> string;
  vlen_ascii : forall s, is_ascii s = true -> vlen s = js_length s;
  vlen_le : forall s, (vlen s <= js_length s)%nat;
  isEmail_empty : isEmail "" = false
}.

(** [isLength({ min, max })]. *)
Definition isLength (v : Validator) (min : nat) (max : option nat)
    (s : string) : bool :=
  (min <=? vlen v s)%nat
  && match max with
     | Some m => (vlen v s <=? m)%nat
     | None => true
     end.

(** [notEmpty()]. *)
Definition notEmpty (s : string) : bool := negb (String.eqb s "").

(** [matches(/^[a-zA-Z0-9_]+$/)]. *)
Definition is_word_char (c : ascii) : bool :=
  let n := nat_of_ascii c in
  ((48 <=? n)%nat && (n <=? 57)%nat)
  || ((65 <=? n)%nat && (n <=? 90)%nat)
  || Nat.eqb n 95
  || ((97 <=? n)%nat && (n <=? 122)%nat).

Definition matches_word (s : string) : bool :=
  negb (String.eqb s "") && string_forallb is_word_char s.

(** The answer of [validate] to a body that fails its chain. *)
Definition validation_failed : Response :=
  Json 400 false "Validation failed" NoData.

(** [validateClientRegistration]: the fields as the handler reads them
    when every check passes, [username] trimmed. *)
Definition validateClientRegistration (v : Validator)
    (username password licenseKey hwid : JsString)
  : option (string * string * string * string) :=
  match username, password, licenseKey, hwid with
  | JsStr u, JsStr p, JsStr k, JsStr h =>
      if isLength v 3 (Some 50%nat) (trim u) && matches_word (trim u)
         && isLength v 6 None p && notEmpty k && notEmpty h
      then Some (trim u, p, k, h)
      else None
  | _, _, _, _ => None
  end.

(** [validateClientLogin]. *)
Definition validateClientLogin (username password hwid appId appSecret
                                : JsString)
  : option (string * string * string * string * string) :=
  match username, password, hwid, appId, appSecret with
  | JsStr u, JsStr p, JsStr h, JsStr a, JsStr s =>
      if notEmpty (trim u) && notEmpty p && notEmpty h && notEmpty a
         && notEmpty s
      then Some (trim u, p, h, a, s)
      else None
  | _, _, _, _, _ => None
  end.

(** [validateLicenseCreation].  [app] is [None] when the field is no
    Mongo id, [expiresAt] when it is no ISO 8601 date; [key] and [note]
    are [None] when [undefined], which [optional()] lets through.  The
    custom check of [expiresAt] reads the clock. *)
Definition validateLicenseCreation (v : Validator) (now : Date)
    (app : option ObjectId) (key : option string) (expiresAt : option Date)
    (note : option string) : option (ObjectId * Date) :=
  match app, expiresAt with
  | Some a, Some e =>
      if match key with
         | Some k => isLength v 8 (Some 50%nat) k
         | None => true
         end
         && negb (e <=? now)
         && match note with
            | Some n => isLength v 0 (Some 500%nat) n
            | None => true
            end
      then Some (a, e)
      else None
  | _, _ => None
  end.

(** [POST /clients/register]. *)
Definition register_route (v : Validator) (bcrypt_hash : string -> string)
    (now : Date) (username password licenseKey hwid : JsString) (db : DB)
  : Response * DB :=
  match validateClientRegistration v username password licenseKey hwid with
  | None => (validation_failed, db)
  | Some (u, p, k, h) => register bcrypt_hash now u p k (JsStr h) db
  end.

(** [POST /clients/login]. *)
Definition login_route (bcrypt_compare : string -> string -> bool)
    (now : Date) (username password hwid appId appSecret : JsString)
    (db : DB) : Response * DB :=
  match validateClientLogin username password hwid appId appSecret with
  | None => (validation_failed, db)
  | Some (u, p, h, a, s) => login bcrypt_compare now u p (JsStr h) a s db
  end.

(** [POST /licenses]: [authenticateToken], the chain, the handler. *)
Definition create_license_route (v : Validator) (strictQuery : bool)
    (now : Date) (tok : Token) (app : option ObjectId) (key : option string)
    (expiresAt : option Date) (note : option string) (rnd : list string)
    (db : DB) : option (Response * DB) :=
  match authenticateToken tok db with
  | inl r => Some (r, db)
  | inr _ =>
      match validateLicenseCreation v now app key expiresAt note with
      | None => Some (validation_failed, db)
      | Some (a, e) => create_license strictQuery tok a key e note rnd db
      end
  end.

(** ** Reachable states of the License collection

    One step is one request served by a handler that writes to the License
    collection, whatever the validation chain of its route lets through;
    [step_other] stands for every other request: it may change
    the rest of the database at will, never hands out an id twice, and
    leaves the licenses alone. *)

Inductive license_step : DB -> DB -> Prop :=
  | step_create_license :
      forall sq tok appId key e note rnd db r db',
        create_license sq tok appId key e note rnd db = Some (r, db') ->
        license_step db db'
  | step_update_license :
      forall sq tok i st e note db r db',
        update_license sq tok i st e note db = (r, db') ->
        license_step db db'
  | step_delete_license :
      forall tok i db r db',
        delete_license tok i db = (r, db') -> license_step db db'
  | step_toggle_ban :
      forall sq tok i db r db',
        toggle_ban sq tok i db = (r, db') -> license_step db db'
  | step_delete_licenses :
      forall tok a db r db',
        delete_licenses tok a db = (r, db') -> license_step db db'
  | step_reseller_create_licenses :
      forall show now tok count e note rnd db r db',
        reseller_create_licenses show now tok count e note rnd db
        = Some (r, db') ->
        license_step db db'
  | step_register :
      forall hash now uname pw lk h db r db',
        register hash now uname pw lk h db = (r, db') -> license_step db db'
  | step_delete_client :
      forall tok i db r db',
        delete_client tok i db = (r, db') -> license_step db db'
  | step_delete_app :
      forall tok a db r db',
        delete_app tok a db = (r, db') -> license_step db db'
  | step_other :
      forall db db',
        licenses db' = licenses db -> (nextId db <= nextId db')%nat ->
        license_step db db'.

Inductive reachable : DB -> Prop :=
  | reachable_init : reachable empty_db
  | reachable_step :
      forall db db', reachable db -> license_step db db' -> reachable db'.

(** The License invariant of the data model: a used license names its
    client, and no two stored licenses share a key. *)
Definition used_has_usedBy (l : License.t) : Prop :=
  License.used l = true -> License.usedBy l <> None.

Definition license_invariant (db : DB) : Prop :=
  Forall used_has_usedBy (licenses db)
  /\ NoDup (map License.key (licenses db)).

(** ** The registration checks, in the order of the specification *)

Inductive Rejection : Type :=
  | InvalidBody
  | LicenseNotFound
  | AppPaused
  | LicenseUsed
  | LicenseNotActive
  | LicenseExpired
  | UsernameTooShort
  | UsernameTaken.

(** The checks of a registration against a found license of app [a], in the
    literal order of the specification, each with whether it fails. *)
Definition registration_checks (now : Date) (username : string)
    (l : License.t) (a : App.t) (db : DB) : list (Rejection * bool) :=
  [ (AppPaused, App.paused a);
    (LicenseUsed, License.used l);
    (LicenseNotActive, negb (Status_eqb (License.status l) ACTIVE));
    (LicenseExpired, License.isExpired now l);
    (UsernameTooShort, (js_length username <? 3)%nat);
    (UsernameTaken,
     is_some (Client_findByAppUsername (App._id a) username db)) ].

(** The first check that fails. *)
Definition first_rejection (now : Date) (username licenseKey : string)
    (db : DB) : option Rejection :=
  match License_findByKey licenseKey db with
  | None => Some LicenseNotFound
  | Some l =>
      match findById App._id (License.app l) (apps db) with
      | None => None
      | Some a =>
          option_map fst (find snd (registration_checks now username l a db))
      end
  end.

(** The configurable message key of each rejection that has one. *)
Definition rejection_key (r : Rejection) : option MessageKey :=
  match r with
  | InvalidBody => None
  | LicenseNotFound => None
  | AppPaused => Some pausedApp
  | LicenseUsed => Some keyUsed
  | LicenseNotActive => Some keyBanned
  | LicenseExpired => Some noActiveSubs
  | UsernameTooShort => Some unTooShort
  | UsernameTaken => Some usernameTaken
  end.

(** The same in the order the route serves a request: the validation of
    the body comes first and answers for a short name, so that the check
    of the name's length is not among the checks that follow. *)
Definition served_checks (now : Date) (username : string)
    (l : License.t) (a : App.t) (db : DB) : list (Rejection * bool) :=
  [ (AppPaused, App.paused a);
    (LicenseUsed, License.used l);
    (LicenseNotActive, negb (Status_eqb (License.status l) ACTIVE));
    (LicenseExpired, License.isExpired now l);
    (UsernameTaken,
     is_some (Client_findByAppUsername (App._id a) username db)) ].

Definition first_served_rejection (v : Validator) (now : Date)
    (username password licenseKey hwid : JsString) (db : DB)
  : option Rejection :=
  match validateClientRegistration v username password licenseKey hwid with
  | None => Some InvalidBody
  | Some (u, _, k, _) =>
      match License_findByKey k db with
      | None => Some LicenseNotFound
      | Some l =>
          match findById App._id (License.app l) (apps db) with
          | None => None
          | Some a =>
              option_map fst (find snd (served_checks now u l a db))
          end
      end
  end.


(** ** Reseller deletion, in the words of the specification *)

(** The reseller has one or more licenses with status ACTIVE. *)
Definition has_active_license (rid : ObjectId) (db : DB) : Prop :=
  exists l, In l (licenses db)
            /\ License.reseller l = Some rid
            /\ License.status l = ACTIVE.


(** ** The keys a run of the key hook accepts

    [accepted stored rnd]: the candidates of [rnd] that the key loop keeps,
    in order, when it is run again and again from a collection whose keys
    are [stored]; a candidate is kept when it is not stored at the moment
    it is drawn, and is stored from then on. *)
Fixpoint accepted (stored : list string) (rnd : list string) : list string :=
  match rnd with
  | [] => []
  | k :: rnd' =>
      if existsb (fun s => String.eqb s k) stored then accepted stored rnd'
      else k :: accepted (stored ++ [k]) rnd'
  end.

(** The note of a new license passes the schema ([maxlength: 500]). *)
Definition note_ok (note : option string) : Prop :=
  match note with
  | Some s => (js_length s <= 500)%nat
  | None => True
  end.

(** What every license of a reseller's bulk creation looks like. *)
Definition created_by_reseller (r : Reseller.t) (e : Date) (l : License.t)
  : Prop :=
  License.createdByType l = byReseller
  /\ License.app l = Reseller.app r
  /\ License.reseller l = Some (Reseller._id r)
  /\ License.used l = false
  /\ License.status l = ACTIVE
  /\ License.expiresAt l = e.

(** ** The License collection as the store keeps it

    Besides the invariant of the data model, the [_id]s of the stored
    licenses are pairwise distinct and were all handed out already. *)
Definition store_ok (ls : list License.t) (n : ObjectId) : Prop :=
  Forall used_has_usedBy ls
  /\ NoDup (map License.key ls)
  /\ NoDup (map License._id ls)
  /\ Forall (fun l => (License._id l < n)%nat) ls.
(** * Further handlers and model methods

    A handler below is the function the route runs last, behind its
    authentication middleware, which is part of the embedding.  Where a
    property depends on what the route's express-validator chain lets
    through, the route is embedded with its chain and carries the suffix
    [_route]; elsewhere the handler stands for the route: the chain only
    narrows and sanitises the body the handler is given, so a frame, an
    invariant or a consequence of a success that holds of the handler for
    every body holds of the route. *)

(** ** Strings *)

(** The [lowercase] setter of a schema path, on ASCII letters. *)
Definition lower_ascii (c : ascii) : ascii :=
  let n := nat_of_ascii c in
  if (65 <=? n)%nat && (n <=? 90)%nat then ascii_of_nat (n + 32) else c.

Fixpoint string_map (f : ascii -> ascii) (s : string) : string :=
  match s with
  | EmptyString => EmptyString
  | String c s' => String (f c) (string_map f s')
  end.

Definition toLowerCase (s : string) : string := string_map lower_ascii s.

(** ** routes/payments.js: refunds *)


(** ** models/User.js: resellers of an owner *)

(** [userSchema.methods.canCreateReseller]. *)
Definition User_canCreateReseller (u : User.t) (db : DB) : bool :=
  if Plan_eqb (User.plan u) free then false
  else if User.maxResellers u =? -1 then true
  else
    let userApps :=
      filter (fun a => Nat.eqb (App.owner a) (User._id u)) (apps db) in
    let resellerCount :=
      countDocuments
        (fun r => existsb (fun a => Nat.eqb (App._id a) (Reseller.app r))
                          userApps)
        (resellers db) in
    Z.of_nat resellerCount <? User.maxResellers u.

(** ** routes/resellers.js: creation and update *)

(** [Reseller.create]: the [email] is trimmed and lower-cased, the
    password needs 6 characters, the email index is unique.  [None] is a
    thrown error. *)
Definition Reseller_create (hash : string -> string) (email password : string)
    (a : ObjectId) (limit : Z) (db : DB) : option (Reseller.t * DB) :=
  let em := toLowerCase (trim email) in
  if String.eqb em "" || (js_length password <? 6)%nat then None
  else if is_some (findOne (fun r => String.eqb (Reseller.email r) em)
                           (resellers db)) then None
  else
    let (i, db1) := fresh_id db in
    let r := Reseller.mk i em (hash password) a limit 0 true
                         Reseller.default_allowedActions in
    Some (r, with_resellers (insertOne r (resellers db1)) db1).

(** [POST /resellers]; the [data] member is left out.  The filter of
    [Reseller.findOne({ email })] is cast through the setters of the
    [email] path, [trim] and [lowercase]. *)
Definition create_reseller (hash : string -> string) (tok : Token)
    (email password : option string) (app_id : option ObjectId)
    (allowed_license_keys : option Z) (db : DB) : Response * DB :=
  match authenticateToken tok db with
  | inl r => (r, db)
  | inr user =>
      match email, password, app_id with
      | Some em, Some pw, Some aid =>
          if negb (truthy email && truthy password) then
            (Json 400 false "Email, password, and app ID are required" NoData,
             db)
          else
            match findOne (fun a => Nat.eqb (App._id a) aid
                                    && Nat.eqb (App.owner a) (User._id user))
                          (apps db) with
            | None =>
                (Json 404 false "App not found or you are not the owner"
                      NoData, db)
            | Some app =>
                if negb (User_canCreateReseller user db) then
                  (Json 403 false
                     "Free plan users cannot create resellers. Upgrade to our monthly or yearly premium plan to create unlimited resellers and unlock other premium features."
                     NoData, db)
                else if is_some (findOne
                                   (fun r =>
                                      String.eqb (Reseller.email r)
                                                 (toLowerCase (trim em)))
                                   (resellers db)) then
                  (Json 400 false "A reseller with this email already exists"
                        NoData, db)
                else
                  let finalLicenseLimit :=
                    match User.plan user with
                    | premium =>
                        match allowed_license_keys with
                        | Some n => n
                        | None => -1
                        end
                    | free =>
                        Z.min (match allowed_license_keys with
                               | Some n => if n =? 0 then 30 else n
                               | None => 30
                               end) 30
                    end in
                  match Reseller_create hash em pw aid finalLicenseLimit db
                  with
                  | None => (Threw, db)
                  | Some (_, db') =>
                      (Json 201 true "Reseller created successfully" NoData,
                       db')
                  end
            end
      | _, _, _ =>
          (Json 400 false "Email, password, and app ID are required" NoData,
           db)
      end
  end.

(** [validateResellerCreation] (middleware/validation.js).  [email] and
    [password] are [None] when the body has none, [app_id] when the field
    is no Mongo id, [allowed_license_keys] when it is [undefined];
    [normalizeEmail] hands the handler the address as it has rewritten
    it. *)
Definition validateResellerCreation (v : Validator)
    (email password : option string) (app_id : option ObjectId)
    (allowed_license_keys : option Z) : option (string * string * ObjectId) :=
  match email, password, app_id with
  | Some em, Some pw, Some a =>
      if isEmail v em && isLength v 6 None pw
         && match allowed_license_keys with
            | Some n => -1 <=? n
            | None => true
            end
      then Some (normalizeEmail v em, pw, a)
      else None
  | _, _, _ => None
  end.

(** [POST /resellers]: [authenticateToken], the chain, the handler. *)
Definition create_reseller_route (v : Validator) (hash : string -> string)
    (tok : Token) (email password : option string)
    (app_id : option ObjectId) (allowed_license_keys : option Z) (db : DB)
  : Response * DB :=
  match authenticateToken tok db with
  | inl r => (r, db)
  | inr _ =>
      match validateResellerCreation v email password app_id
                                     allowed_license_keys with
      | None => (validation_failed, db)
      | Some (em, pw, a) =>
          create_reseller hash tok (Some em) (Some pw) (Some a)
                          allowed_license_keys db
      end
  end.

(** The [allowedActions] member of the body of [PUT /resellers/:id]; each
    flag is [None] when [undefined]. *)
Record ActionsPatch : Type := mkActionsPatch {
  patch_create : option bool;
  patch_banUnban : option bool;
  patch_editExpiry : option bool
}.

Definition apply_actions (p : ActionsPatch) (a : Reseller.AllowedActions)
  : Reseller.AllowedActions :=
  Reseller.mkActions
    (match patch_create p with Some b => b | None => Reseller.create a end)
    (match patch_banUnban p with
     | Some b => b
     | None => Reseller.banUnban a
     end)
    (match patch_editExpiry p with
     | Some b => b
     | None => Reseller.editExpiry a
     end)
    false.

(** [PUT /resellers/:id].  After the save the handler populates the path
    [user], which the Reseller schema does not declare: under
    [strictPopulate] that throws, otherwise it does nothing. *)
Definition update_reseller (strictPopulate : bool) (tok : Token)
    (resellerId : ObjectId)
    (licenseLimit : option Z) (active : option bool)
    (allowedActions : option ActionsPatch) (db : DB) : Response * DB :=
  match authenticateToken tok db with
  | inl r => (r, db)
  | inr user =>
      match findById Reseller._id resellerId (resellers db) with
      | None => (Json 404 false "Reseller not found" NoData, db)
      | Some reseller =>
          match findById App._id (Reseller.app reseller) (apps db) with
          | None => (Threw, db)
          | Some app =>
              if negb (Nat.eqb (App.owner app) (User._id user)) then
                (Json 403 false
                   "You can only update resellers for your own apps" NoData,
                 db)
              else if match licenseLimit with
                      | Some n => Plan_eqb (User.plan user) free && (30 <? n)
                      | None => false
                      end then
                (Json 400 false
                   "Free plan users cannot set license limit above 30" NoData,
                 db)
              else
                let r' :=
                  Reseller.mk (Reseller._id reseller) (Reseller.email reseller)
                    (Reseller.password reseller) (Reseller.app reseller)
                    (match licenseLimit with
                     | Some n => n
                     | None => Reseller.licenseLimit reseller
                     end)
                    (Reseller.usedLicenses reseller)
                    (match active with
                     | Some b => b
                     | None => Reseller.active reseller
                     end)
                    (match allowedActions with
                     | Some p =>
                         apply_actions p (Reseller.allowedActions reseller)
                     | None => Reseller.allowedActions reseller
                     end) in
                (if strictPopulate then Threw
                 else Json 200 true "Reseller updated successfully" NoData,
                 Reseller_save r' db)
          end
      end
  end.

(** ** routes/apps.js: creation and update *)

(** The id loop of [appSchema.pre('save')], over the candidates [rnd] as
    for the license keys. *)
Fixpoint generateAppId (rnd : list string) (c : list App.t)
  : option (string * list string) :=
  match rnd with
  | [] => None
  | k :: rnd' =>
      if is_some (findOne (fun a => String.eqb (App.appId a) k) c)
      then generateAppId rnd' c
      else Some (k, rnd')
  end.

(** The document the route reads as [req.user]: [apps] populated. *)
Definition populate_user (db : DB) (u : User.t) : User.t :=
  User.mk (User._id u) (User.name u) (User.email u) (User.password u)
          (User.plan u) (User.maxApps u) (User.maxResellers u)
          (User.maxLicensesPerApp u)
          (map App._id (populate_apps db (User.apps u)))
          (User.paymentStatus u).

Definition User_push_app (i : ObjectId) (u : User.t) : User.t :=
  User.mk (User._id u) (User.name u) (User.email u) (User.password u)
          (User.plan u) (User.maxApps u) (User.maxResellers u)
          (User.maxLicensesPerApp u) (User.apps u ++ [i])
          (User.paymentStatus u).

(** [POST /apps].  [secret] is the generated [appSecret]; [None] is a
    request whose id loop has not left after all of [rnd]; the [data]
    member is left out. *)
Definition create_app (tok : Token) (name : string) (rnd : list string)
    (secret : string) (db : DB) : option (Response * DB) :=
  match authenticateToken tok db with
  | inl r => Some (r, db)
  | inr user =>
      if negb (User.canCreateApp (populate_user db user)) then
        Some (Json 403 false
                ("You have reached the maximum limit of "
                 ++ showZ (User.maxApps user) ++ " apps for your plan")
                NoData, db)
      else if String.eqb (trim name) ""
              || (100 <? js_length (trim name))%nat then
        Some (Threw, db)
      else
        match generateAppId rnd (apps db) with
        | None => None
        | Some (appId, _) =>
            let (i, db1) := fresh_id db in
            let app := App.mk i (trim name) (User._id user) appId secret
                              "1.0.0" false App.default_settings
                              App.default_errorMessages in
            let db2 := with_apps (insertOne app (apps db1)) db1 in
            let db3 :=
              with_users (updateById User._id (User._id user)
                                     (User_push_app i) (users db2)) db2 in
            Some (Json 201 true "App created successfully" NoData, db3)
        end
  end.

Definition App_save (a : App.t) (db : DB) : DB :=
  with_apps (updateById App._id (App._id a) (fun _ => a) (apps db)) db.

(** [PUT /apps/:id]; each body field is [None] when [undefined]. *)
Definition update_app (tok : Token) (appId : ObjectId)
    (name version : option string) (paused hwidLock allowCustom : option bool)
    (db : DB) : Response * DB :=
  match authenticateToken tok db with
  | inl r => (r, db)
  | inr user =>
      if negb (requireAppOwnership db user appId) then
        (Json 403 false "Access denied - you do not own this app" NoData, db)
      else
        match findById App._id appId (apps db) with
        | None => (Json 404 false "App not found" NoData, db)
        | Some app =>
            let name' := match name with
                         | Some n => trim n
                         | None => App.name app
                         end in
            if is_some name
               && (String.eqb name' "" || (100 <? js_length name')%nat)
            then (Threw, db)
            else
              let app' :=
                App.mk (App._id app) name' (App.owner app) (App.appId app)
                  (App.appSecret app)
                  (match version with
                   | Some v => v
                   | None => App.version app
                   end)
                  (match paused with
                   | Some b => b
                   | None => App.paused app
                   end)
                  (App.mkSettings
                     (match hwidLock with
                      | Some b => b
                      | None => App.hwidLock (App.settings app)
                      end)
                     (match allowCustom with
                      | Some b => b
                      | None =>
                          App.allowCustomLicenseKey (App.settings app)
                      end))
                  (App.errorMessages app) in
              (Json 200 true "App updated successfully" NoData,
               App_save app' db)
        end
  end.

(** [PUT /apps/:id/error-messages]: [body k] is [None] when the field is
    [undefined], [Some None] when it is [null]. *)
Definition update_error_messages (tok : Token) (appId : ObjectId)
    (body : MessageKey -> option (option string)) (db : DB)
  : Response * DB :=
  match authenticateToken tok db with
  | inl r => (r, db)
  | inr user =>
      if negb (requireAppOwnership db user appId) then
        (Json 403 false "Access denied - you do not own this app" NoData, db)
      else
        match findById App._id appId (apps db) with
        | None => (Json 404 false "App not found" NoData, db)
        | Some app =>
            let app' :=
              App.mk (App._id app) (App.name app) (App.owner app)
                (App.appId app) (App.appSecret app) (App.version app)
                (App.paused app) (App.settings app)
                (fun k => match body k with
                          | Some v => v
                          | None => App.errorMessages app k
                          end) in
            (Json 200 true "Error messages updated successfully" NoData,
             App_save app' db)
        end
  end.

(** ** routes/clients.js: sessions and the owner's client management *)

Definition App_findByCredentials (appId appSecret : string) (db : DB)
  : option App.t :=
  findOne (fun a => String.eqb (App.appId a) appId
                    && String.eqb (App.appSecret a) appSecret) (apps db).

(** [POST /clients/validate-session]: no write at all.  The route has no
    validation chain, so the body's [username] reaches the query as it was
    sent; Mongoose casts a filter value through the setters of its path,
    here [trim], which [Client_findByAppUsername] applies. *)
Definition validate_session (now : Date)
    (username appId appSecret : option string) (db : DB) : Response :=
  match username, appId, appSecret with
  | Some uname, Some aid, Some asec =>
      if negb (truthy username && truthy appId && truthy appSecret) then
        Json 400 false "Username, appId, and appSecret are required" NoData
      else
        match App_findByCredentials aid asec db with
        | None => Json 401 false "Invalid application credentials" NoData
        | Some app =>
            if App.paused app then
              Json 400 false (getErrorMessage app pausedApp) NoData
            else
              match Client_findByAppUsername (App._id app) uname db with
              | None =>
                  Json 404 false (getErrorMessage app usernameNotFound) NoData
              | Some client =>
                  if Client.ban client then
                    Json 403 false (getErrorMessage app userBanned) NoData
                  else if Client.isExpired now client then
                    Json 403 false (getErrorMessage app noActiveSubs) NoData
                  else Json 200 true "Session is valid" (DataClient client)
              end
        end
  | _, _, _ =>
      Json 400 false "Username, appId, and appSecret are required" NoData
  end.

(** The owner check shared by the client management routes: the client,
    or the response that ends the request. *)
Definition owned_client (denied : string) (tok : Token) (clientId : ObjectId)
    (db : DB) : Response + Client.t :=
  match authenticateToken tok db with
  | inl r => inl r
  | inr user =>
      match findById Client._id clientId (clients db) with
      | None => inl (Json 404 false "Client not found" NoData)
      | Some client =>
          match findById App._id (Client.app client) (apps db) with
          | None => inl Threw
          | Some app =>
              if negb (Nat.eqb (App.owner app) (User._id user)) then
                inl (Json 403 false denied NoData)
              else inr client
          end
      end
  end.

(** [PATCH /clients/:id/toggle-ban]. *)
Definition client_toggle_ban (tok : Token) (clientId : ObjectId) (db : DB)
  : Response * DB :=
  match owned_client "You do not have permission to manage this client" tok
                     clientId db with
  | inl r => (r, db)
  | inr client =>
      let client' := Client.set_ban (negb (Client.ban client)) client in
      (Json 200 true
         (if Client.ban client' then "Client banned successfully"
          else "Client unbanned successfully") (DataClient client'),
       Client_save client' db)
  end.

(** [PATCH /clients/:id/reset-hwid]. *)
Definition reset_hwid (tok : Token) (clientId : ObjectId) (db : DB)
  : Response * DB :=
  match owned_client "You do not have permission to manage this client" tok
                     clientId db with
  | inl r => (r, db)
  | inr client =>
      let client' := Client.set_hwid None client in
      (Json 200 true "Client HWID reset successfully" (DataClient client'),
       Client_save client' db)
  end.

Section CreateDirect.
Variable bcrypt_hash : string -> string.

(** [POST /clients/create-direct].  [expiresAt] is [None] when the field is
    missing, [Some None] when [new Date(expiresAt)] is no date. *)
Definition create_direct (now : Date) (tok : Token)
    (username password : option string) (appId : option ObjectId)
    (hwid : option string) (expiresAt : option (option Date)) (db : DB)
  : Response * DB :=
  match authenticateToken tok db with
  | inl r => (r, db)
  | inr user =>
      match username, password, appId, expiresAt with
      | Some uname, Some pw, Some aid, Some e =>
          if negb (truthy username && truthy password) then
            (Json 400 false
               "Username, password, appId, and expiresAt are required" NoData,
             db)
          else
            match findOne (fun a => Nat.eqb (App._id a) aid
                                    && Nat.eqb (App.owner a) (User._id user))
                          (apps db) with
            | None =>
                (Json 404 false "App not found or you are not the owner"
                      NoData, db)
            | Some app =>
                if App.paused app then
                  (Json 400 false
                     "Cannot create users for paused applications" NoData, db)
                else if (js_length uname <? 3)%nat then
                  (Json 400 false
                     "Username must be at least 3 characters long" NoData, db)
                else if (js_length pw <? 6)%nat then
                  (Json 400 false
                     "Password must be at least 6 characters long" NoData, db)
                else if is_some (Client_findByAppUsername (App._id app) uname
                                                          db) then
                  (Json 400 false
                     "Username already exists for this application" NoData,
                   db)
                else
                  match e with
                  | None =>
                      (Json 400 false
                         "Invalid expiration date. Must be a future date."
                         NoData, db)
                  | Some expireDate =>
                      if expireDate <=? now then
                        (Json 400 false
                           "Invalid expiration date. Must be a future date."
                           NoData, db)
                      else
                        match Client_create bcrypt_hash uname pw
                                (if truthy hwid
                                 then match hwid with
                                      | Some h => JsStr h
                                      | None => JsNull
                                      end
                                 else JsNull)
                                (App._id app) "" expireDate db with
                        | None => (Threw, db)
                        | Some (client, db') =>
                            (Json 201 true "End user created successfully"
                                  (DataClient client), db')
                        end
                  end
            end
      | _, _, _, _ =>
          (Json 400 false
             "Username, password, appId, and expiresAt are required" NoData,
           db)
      end
  end.
End CreateDirect.

(** A reseller that may not delete licenses. *)
Definition no_delete_permission (r : Reseller.t) : Prop :=
  Reseller.delete (Reseller.allowedActions r) = false.
(** ** Example databases and requests *)

Definition c1_hmac (k m : string) : string := (k ++ ":" ++ m)%string.

Definition c1_gateway : Gateway :=
  mkGateway
    (fun _ => Some (mkGatewayPayment "pay_1" "order_1" 49900 "INR"
                                     "captured" (Some "card") []))
    (fun _ => Some (mkGatewayOrder (Some 0%nat) (Some "premium")
                                   (Some "monthly"))).

(** A database holding one freshly registered owner. *)
Definition c1_registered : DB :=
  mkDB [User.create 0%nat "Ann" "ann@example.org" "$2a$12$hash"] [] [] [] [] []
       1%nat.

Definition c1_upgraded : DB :=
  snd (razorpay_verify c1_hmac false (Some "secret") c1_gateway (Verified 0%nat)
         (Some "order_1") (Some "pay_1") (Some "secret:order_1|pay_1")
         c1_registered).

Definition c1_downgraded : DB :=
  snd (cancel_subscription (Verified 0%nat) c1_upgraded).


(** Stand-ins for validator.js: what it answers on the strings of the
    examples, which are ASCII. *)
Definition ex_isEmail (s : string) : bool :=
  negb (string_forallb (fun c => negb (Ascii.eqb c "@")) s).

Definition ex_validator : Validator :=
  mkValidator js_length ex_isEmail toLowerCase
              (fun _ _ => eq_refl) (fun s => le_n (js_length s)) eq_refl.

(** A stand-in for the rendering of a number in a template literal, as
    JavaScript renders the integers and the positive halves. *)
Definition ex_show (q : Number) : string :=
  let q' := Qred q in
  if Z.eqb (Zpos (Qden q')) 1 then showZ (Qnum q')
  else if Z.eqb (Zpos (Qden q')) 2
       then (showZ (Qnum q' / 2) ++ ".5")%string
       else (showZ (Qnum q') ++ "/" ++ showZ (Zpos (Qden q')))%string.

(** Stand-ins for bcrypt. *)
Definition ex_hash (pw : string) : string := ("h:" ++ pw)%string.
Definition ex_compare (pw stored : string) : bool :=
  String.eqb (ex_hash pw) stored.

(** One premium owner (id 0) with one app (id 1), a reseller (id 2) that has
    created the license with id 3, an unused owner-created license (id 5),
    and a client (id 4) registered with license 3. *)
Definition ex_owner : User.t :=
  User.mk 0 "Ann" "ann@example.org" "h:secret1" premium (-1) (-1) (-1) [1%nat]
          paid.

Definition ex_app : App.t :=
  App.mk 1 "Tool" 0 "A1B2C3D4" "s3cr3t" "1.0.0" false
         (App.mkSettings true false) App.default_errorMessages.

Definition ex_reseller : Reseller.t :=
  Reseller.mk 2 "res@example.org" "h:secret2" 1 5 1 true
              Reseller.default_allowedActions.

Definition ex_license : License.t :=
  License.mk 3 1 "AAAA0000AAAA0000AAAA0000" 2 byReseller (Some 2%nat) true
             (Some 4%nat) ACTIVE None 5000.

Definition ex_client : Client.t :=
  Client.mk 4 "bobby" "h:hunter22" (Some "HW-1") 1 "AAAA0000AAAA0000AAAA0000"
            false 5000 None 0.

Definition ex_license2 : License.t :=
  License.mk 5 1 "BBBB1111BBBB1111BBBB1111" 0 byOwner None false None ACTIVE
             None 5000.

Definition ex_db : DB :=
  mkDB [ex_owner] [ex_app] [ex_license; ex_license2] [ex_reseller]
       [ex_client] [] 6.

(** The database [ex_db] with the reseller's counter at 0 while its license
    is still stored. *)
Definition c4_db : DB :=
  with_resellers [Reseller.set_usedLicenses 0 ex_reseller] ex_db.

(** [ex_db] after the reseller's only license has been banned. *)
Definition c6_db : DB :=
  with_licenses [License.set_status BANNED ex_license; ex_license2] ex_db.

(** [ex_db] with one captured payment, and a signed webhook replaying its
    capture. *)
Definition c8_payment : Payment.t :=
  Payment.mk 7 0 "pay_1" "order_1" "secret:order_1|pay_1" 49900 "INR"
             pay_captured "card" premium monthly [("email", "ann@example.org")]
             [] true false.

Definition c8_db : DB := with_payments [c8_payment] ex_db.

Definition c8_body : WebhookBody :=
  mkWebhookBody "{event:payment.captured,id:pay_1}" "payment.captured"
    (Some (Some (mkEntity "pay_1" "" 49900 [("status", "captured")]))) None.



(** [ex_db] with every message of the app configured to one custom text. *)
Definition c3_app : App.t :=
  App.mk 1 "Tool" 0 "A1B2C3D4" "s3cr3t" "1.0.0" false
         (App.mkSettings true false) (fun _ => Some "configured by the owner").

Definition c3_db : DB := with_apps [c3_app] ex_db.

(** [ex_db] with custom license keys allowed by the app. *)
Definition c7_app : App.t :=
  App.mk 1 "Tool" 0 "A1B2C3D4" "s3cr3t" "1.0.0" false
         (App.mkSettings true true) App.default_errorMessages.

Definition c7_db : DB := with_apps [c7_app] ex_db.

(** The random source of the bulk-creation example: the first candidate is
    a stored key and the third repeats the second. *)
Definition c10_rnd : list string :=
  ["AAAA0000AAAA0000AAAA0000"; "CCCC2222CCCC2222CCCC2222";
   "CCCC2222CCCC2222CCCC2222"; "DDDD3333DDDD3333DDDD3333";
   "EEEE4444EEEE4444EEEE4444"].

(** A reseller of the app with a quota of 3 licenses, none of them used,
    and the database that holds it with no license stored. *)
Definition c10_reseller : Reseller.t :=
  Reseller.mk 2 "res@example.org" "h:secret2" 1 3 0 true
              Reseller.default_allowedActions.

Definition c10_db : DB :=
  mkDB [ex_owner] [ex_app] [] [c10_reseller] [] [] 6.

(** A run from the empty database: an owner, an app and a reseller appear,
    the owner creates a license with a generated key, a client registers
    with it. *)
Definition c2_base : DB :=
  mkDB [ex_owner] [c7_app] [] [ex_reseller] [] [] 6.

Definition c2_created : Response * DB :=
  match create_license false (Verified 0) 1 None 9000 None
                       ["FFFF5555FFFF5555FFFF5555"] c2_base with
  | Some x => x
  | None => (Threw, c2_base)
  end.

Definition c2_registered : Response * DB :=
  register ex_hash 1000 "carol" "secret99" "FFFF5555FFFF5555FFFF5555"
           (JsStr "HW-9") (snd c2_created).

(** A signed [payment.failed] event for the captured payment of [c8_db]. *)
Definition x_failed_body : WebhookBody :=
  mkWebhookBody "{event:payment.failed,id:pay_1}" "payment.failed"
    (Some (Some (mkEntity "pay_1" "" 49900
                          [("error_code", "BAD_REQUEST_ERROR")]))) None.





(** A free owner (id 0) who already has two apps. *)
Definition x_free_owner : User.t :=
  User.mk 0 "Ann" "ann@example.org" "h:secret1" free 2 0 30 [1%nat; 2%nat]
          unpaid.

Definition x_app2 : App.t :=
  App.mk 2 "Second" 0 "0F0F0F0F" "s3cr3t2" "1.0.0" false
         App.default_settings App.default_errorMessages.

Definition x_two_apps_db : DB :=
  mkDB [x_free_owner] [ex_app; x_app2] [] [] [] [] 3.

(** The same database once the owner has been upgraded. *)
Definition x_two_apps_premium_db : DB :=
  with_users [upgrade_update x_free_owner] x_two_apps_db.

(** A body for [PUT /apps/:id/error-messages]: a text for [hwidMismatch],
    the empty text for [userBanned], [null] for [keyUsed]. *)
Definition x_messages_body (k : MessageKey) : option (option string) :=
  match k with
  | hwidMismatch => Some (Some "Wrong machine")
  | userBanned => Some (Some "")
  | keyUsed => Some None
  | _ => None
  end.

(** A registration on [ex_db] with the unused license, presenting a HWID
    with a space before and after. *)
Definition x_registered : Response * DB :=
  register ex_hash 1000 "alice" "secret77" "BBBB1111BBBB1111BBBB1111"
           (JsStr " HW-7 ") ex_db.

(** The owner of [ex_db] creates a client directly, without a HWID. *)
Definition x_created_direct : Response * DB :=
  create_direct ex_hash 1000 (Verified 0) (Some "dave1") (Some "passw0rd")
                (Some 1%nat) None (Some (Some 9000)) ex_db.

(** [ex_db] with a reseller whose stored [allowedActions.delete] is set. *)
Definition x_deleting_reseller : Reseller.t :=
  Reseller.mk 2 "res@example.org" "h:secret2" 1 5 1 true
              (Reseller.mkActions true true true true).

Definition x_deleting_db : DB := with_resellers [x_deleting_reseller] ex_db.
(** * Properties *)

(** ** Collections *)

Section CollectionFacts.
Context {A : Type}.
Variable id_of : A -> ObjectId.

Lemma findById_some (i : ObjectId) (c : list A) (d : A) :
  findById id_of i c = Some d -> In d c /\ id_of d = i.
Proof.
  unfold findById. intros H. apply find_some in H.
  destruct H as [Hin Heq]. apply Nat.eqb_eq in Heq. auto.
Qed.


Lemma findById_unique (i : ObjectId) (c : list A) (d : A) :
  NoDup (map id_of c) -> In d c -> id_of d = i -> findById id_of i c = Some d.
Proof.
  unfold findById. induction c as [|x c IH]; simpl; intros Hnd Hin Hid.
  - contradiction.
  - inversion Hnd as [|? ? Hnotin Hnd']; subst.
    destruct (Nat.eqb (id_of x) (id_of d)) eqn:E.
    + destruct Hin as [->|Hin]; [reflexivity|].
      apply Nat.eqb_eq in E. exfalso. apply Hnotin. rewrite E.
      apply in_map. exact Hin.
    + destruct Hin as [->|Hin].
      * rewrite Nat.eqb_refl in E. discriminate.
      * apply IH; auto.
Qed.

Lemma updateById_map {B : Type} (g : A -> B) (i : ObjectId) (f : A -> A)
    (c : list A) :
  (forall d, In d c -> id_of d = i -> g (f d) = g d) ->
  map g (updateById id_of i f c) = map g c.
Proof.
  induction c as [|x c IH]; simpl; intros Hg; [reflexivity|].
  destruct (Nat.eqb (id_of x) i) eqn:E; simpl.
  - apply Nat.eqb_eq in E. rewrite Hg; auto.
  - rewrite IH; auto.
Qed.

Lemma updateById_Forall (P : A -> Prop) (i : ObjectId) (f : A -> A)
    (c : list A) :
  Forall P c -> (forall d, In d c -> id_of d = i -> P (f d)) ->
  Forall P (updateById id_of i f c).
Proof.
  induction c as [|x c IH]; simpl; intros HF Hf; [constructor|].
  inversion HF; subst.
  destruct (Nat.eqb (id_of x) i) eqn:E.
  - apply Nat.eqb_eq in E. constructor; auto.
  - constructor; auto.
Qed.

Lemma updateById_length (i : ObjectId) (f : A -> A) (c : list A) :
  List.length (updateById id_of i f c) = List.length c.
Proof.
  induction c as [|x c IH]; simpl; [reflexivity|].
  destruct (Nat.eqb (id_of x) i); simpl; congruence.
Qed.

(** After a save of [d'] under the id of a stored document, the lookup of
    that id answers [d']. *)
Lemma findById_updateById (i : ObjectId) (d' : A) (c : list A) :
  id_of d' = i -> findById id_of i c <> None ->
  findById id_of i (updateById id_of i (fun _ => d') c) = Some d'.
Proof.
  unfold findById. intros Hid. induction c as [|x c IH]; simpl; intros Hne.
  - congruence.
  - destruct (Nat.eqb (id_of x) i) eqn:E; simpl.
    + rewrite Hid, Nat.eqb_refl. reflexivity.
    + rewrite E. apply IH. exact Hne.
Qed.

(** An update of the document found under an id is what the lookup of that
    id answers afterwards. *)
Lemma findById_updateById_found (i : ObjectId) (f : A -> A) (d : A)
    (c : list A) :
  findById id_of i c = Some d -> id_of (f d) = i ->
  findById id_of i (updateById id_of i f c) = Some (f d).
Proof.
  unfold findById. induction c as [|x c IH]; simpl; intros Hf Hid.
  - discriminate.
  - destruct (Nat.eqb (id_of x) i) eqn:E; simpl.
    + injection Hf as ->. rewrite Hid, Nat.eqb_refl. reflexivity.
    + rewrite E. auto.
Qed.

Lemma updateById_other (i j : ObjectId) (f : A -> A) (c : list A) :
  (forall d, id_of (f d) = id_of d) -> i <> j ->
  findById id_of j (updateById id_of i f c) = findById id_of j c.
Proof.
  unfold findById. intros Hf Hij. induction c as [|x c IH]; simpl.
  - reflexivity.
  - destruct (Nat.eqb (id_of x) i) eqn:E; simpl.
    + rewrite Hf. apply Nat.eqb_eq in E.
      destruct (Nat.eqb (id_of x) j) eqn:E'; [|reflexivity].
      apply Nat.eqb_eq in E'. congruence.
    + rewrite IH. reflexivity.
Qed.

Lemma updateById_absent (i : ObjectId) (f : A -> A) (c : list A) :
  findById id_of i c = None -> updateById id_of i f c = c.
Proof.
  unfold findById. induction c as [|x c IH]; simpl; [reflexivity|].
  destruct (Nat.eqb (id_of x) i); [discriminate|].
  intros H. rewrite IH; auto.
Qed.

Lemma findByIdAndDelete_incl (i : ObjectId) (c : list A) (d : A) :
  In d (findByIdAndDelete id_of i c) -> In d c.
Proof.
  induction c as [|x c IH]; simpl; [auto|].
  destruct (Nat.eqb (id_of x) i); simpl; intuition.
Qed.

Lemma findByIdAndDelete_Forall (P : A -> Prop) (i : ObjectId) (c : list A) :
  Forall P c -> Forall P (findByIdAndDelete id_of i c).
Proof.
  intros H. apply Forall_forall. intros d Hd.
  apply findByIdAndDelete_incl in Hd.
  rewrite Forall_forall in H. auto.
Qed.

Lemma findByIdAndDelete_NoDup {B : Type} (g : A -> B) (i : ObjectId)
    (c : list A) :
  NoDup (map g c) -> NoDup (map g (findByIdAndDelete id_of i c)).
Proof.
  induction c as [|x c IH]; simpl; intros H; [constructor|].
  inversion H as [|? ? Hnotin Hnd]; subst.
  destruct (Nat.eqb (id_of x) i); [exact Hnd|].
  simpl. constructor; auto.
  intros Hin. apply Hnotin. apply in_map_iff in Hin.
  destruct Hin as [y [Hy Hin]]. apply findByIdAndDelete_incl in Hin.
  rewrite <- Hy. apply in_map. exact Hin.
Qed.

Lemma findByIdAndDelete_length (i : ObjectId) (c : list A) :
  findById id_of i c <> None ->
  S (List.length (findByIdAndDelete id_of i c)) = List.length c.
Proof.
  unfold findById. induction c as [|x c IH]; simpl; intros H.
  - congruence.
  - destruct (Nat.eqb (id_of x) i); simpl; [reflexivity|].
    rewrite IH; auto.
Qed.

Lemma findByIdAndDelete_gone (i : ObjectId) (c : list A) :
  NoDup (map id_of c) -> findById id_of i (findByIdAndDelete id_of i c) = None.
Proof.
  unfold findById. induction c as [|x c IH]; simpl; intros H.
  - reflexivity.
  - inversion H as [|? ? Hnotin Hnd]; subst.
    destruct (Nat.eqb (id_of x) i) eqn:E; simpl.
    + apply Nat.eqb_eq in E. subst i.
      destruct (find (fun d => Nat.eqb (id_of d) (id_of x)) c) eqn:F;
        [|reflexivity].
      apply find_some in F. destruct F as [Hin Heq].
      apply Nat.eqb_eq in Heq. exfalso. apply Hnotin. rewrite <- Heq.
      apply in_map. exact Hin.
    + rewrite E. auto.
Qed.

Lemma deleteMany_Forall (P : A -> Prop) (p : A -> bool) (c : list A) :
  Forall P c -> Forall P (deleteMany p c).
Proof.
  intros H. apply Forall_forall. intros d Hd. unfold deleteMany in Hd.
  apply filter_In in Hd. rewrite Forall_forall in H. apply H, Hd.
Qed.

Lemma filter_map_NoDup {B : Type} (g : A -> B) (p : A -> bool) (c : list A) :
  NoDup (map g c) -> NoDup (map g (filter p c)).
Proof.
  induction c as [|x c IH]; simpl; intros H; [constructor|].
  inversion H as [|? ? Hnotin Hnd]; subst.
  destruct (p x); simpl; auto.
  constructor; auto. intros Hin. apply Hnotin.
  apply in_map_iff in Hin. destruct Hin as [y [Hy Hin]].
  apply filter_In in Hin. rewrite <- Hy. apply in_map. apply Hin.
Qed.
End CollectionFacts.

(** ** Plan limits (User model, payment routes) *)

(** A user created by registration carries the limits of the free plan. *)
Lemma User_create_limits (i : ObjectId) (nm em pw : string) :
  User.plan (User.create i nm em pw) = free
  /\ User.limits (User.create i nm em pw) = plan_limits free.
Proof. split; reflexivity. Qed.

(** When the save hook sees a modified plan it installs the limits of that
    plan. *)
Lemma User_pre_save_limits (u : User.t) :
  User.plan (User.pre_save true u) = User.plan u
  /\ User.limits (User.pre_save true u) = plan_limits (User.plan u).
Proof. unfold User.pre_save. destruct (User.plan u) eqn:E; simpl; auto. Qed.

(** The upgrade written by payment verification agrees with the plan. *)
Lemma upgrade_update_limits (u : User.t) :
  User.plan (upgrade_update u) = premium
  /\ User.limits (upgrade_update u) = plan_limits premium.
Proof. split; reflexivity. Qed.

(** The downgrade written by subscription cancellation stores one reseller
    for the free plan, whatever the user was. *)
Lemma downgrade_update_limits (u : User.t) :
  User.plan (downgrade_update u) = free
  /\ User.limits (downgrade_update u) = (2, 1, 30).
Proof. split; reflexivity. Qed.

(** Every premium caller with at most two apps is downgraded to the free
    plan with the limits (2, 1, 30). *)
Lemma cancel_subscription_stores (tok : Token) (db : DB) (u : User.t) :
  authenticateToken tok db = inr u ->
  User.plan u = premium ->
  (List.length (populate_apps db (User.apps u)) <= 2)%nat ->
  exists u',
    cancel_subscription tok db
    = (Json 200 true "Successfully downgraded to free plan" (DataUser u'),
       with_users (updateById User._id (User._id u) downgrade_update
                              (users db)) db)
    /\ User.plan u' = free
    /\ User.limits u' = (2, 1, 30).
Proof.
  intros Hauth Hplan Happs. unfold cancel_subscription.
  rewrite Hauth, Hplan. simpl Plan_eqb. cbv iota.
  replace (2 <? Z.of_nat (List.length (populate_apps db (User.apps u))))
    with false by (symmetry; apply Z.ltb_ge; lia).
  unfold User_findByIdAndUpdate. cbv zeta.
  assert (Hfound : findById User._id (User._id u) (users db) = Some u).
  { destruct tok; simpl in Hauth; try discriminate.
    destruct (findById User._id userId (users db)) eqn:F; [|discriminate].
    injection Hauth as ->. pose proof (findById_some _ _ _ _ F) as [_ Hid].
    rewrite Hid. exact F. }
  (* the first document carrying the id is [u] itself *)
  assert (Hupd : forall c,
             findById User._id (User._id u) c = Some u ->
             findById User._id (User._id u)
               (updateById User._id (User._id u) downgrade_update c)
             = Some (downgrade_update u)).
  { unfold findById. induction c as [|x c IH]; simpl; [discriminate|].
    destruct (Nat.eqb (User._id x) (User._id u)) eqn:E; simpl.
    - intros H. injection H as ->. rewrite Nat.eqb_refl. reflexivity.
    - rewrite E. exact IH. }
  simpl users. rewrite (Hupd _ Hfound).
  exists (downgrade_update u). repeat split.
Qed.

(** C1 (limits are a function of the plan; fails on the code).  An owner
    registers, upgrades through payment verification and cancels the
    subscription.  After registration and after the upgrade the stored
    limits are those of the plan; after the cancellation the stored plan is
    free while the stored limits are (2, 1, 30): [maxResellers] is 1, not
    the 0 that the User model gives the free plan. *)
Theorem C1_cancel_subscription_breaks_plan_limits :
  (exists u, findById User._id 0%nat (users c1_registered) = Some u
             /\ User.plan u = free
             /\ User.limits u = plan_limits free)
  /\ (exists u, findById User._id 0%nat (users c1_upgraded) = Some u
                /\ User.plan u = premium
                /\ User.limits u = plan_limits premium)
  /\ (exists u, findById User._id 0%nat (users c1_downgraded) = Some u
                /\ User.plan u = free
                /\ User.limits u = (2, 1, 30)
                /\ User.maxResellers u <> User.default_maxResellers free
                /\ User.limits u <> plan_limits (User.plan u)).
Proof.
  split; [|split].
  - eexists. split; [vm_compute; reflexivity|]. split; reflexivity.
  - eexists. split; [vm_compute; reflexivity|]. split; reflexivity.
  - eexists. split; [vm_compute; reflexivity|].
    repeat split; simpl; discriminate.
Qed.

(** ** Shared tactics and facts on the handlers *)

(** Case analysis on the scrutinee of the first [match] of a hypothesis. *)
Ltac case_in H :=
  match type of H with
  | context [match ?x with _ => _ end] => destruct x eqn:?
  end.

Ltac finish H := inversion H; subst; clear H.

Lemma authenticateToken_found (tok : Token) (db : DB) (u : User.t) :
  authenticateToken tok db = inr u ->
  findById User._id (User._id u) (users db) = Some u.
Proof.
  destruct tok; simpl; try discriminate.
  destruct (findById User._id userId (users db)) eqn:F; [|discriminate].
  intros H. injection H as ->.
  destruct (findById_some _ _ _ _ F) as [_ Hid]. rewrite Hid. exact F.
Qed.

Lemma authenticateResellerToken_found (tok : Token) (db : DB)
    (r : Reseller.t) :
  authenticateResellerToken tok db = inr r ->
  findById Reseller._id (Reseller._id r) (resellers db) = Some r.
Proof.
  destruct tok; simpl; try discriminate.
  destruct (findById Reseller._id userId (resellers db)) eqn:F;
    [|discriminate].
  intros H. injection H as ->.
  destruct (findById_some _ _ _ _ F) as [_ Hid]. rewrite Hid. exact F.
Qed.

(** A save of a document found under its id rewrites that very document,
    so a projection on which both agree is unchanged on the collection. *)
Lemma updateById_found_map {A B : Type} (id_of : A -> ObjectId) (g : A -> B)
    (i : ObjectId) (d d' : A) (c : list A) :
  findById id_of i c = Some d -> g d' = g d ->
  map g (updateById id_of i (fun _ => d') c) = map g c.
Proof.
  unfold findById. induction c as [|x c IH]; simpl; intros Hf Hg.
  - reflexivity.
  - destruct (Nat.eqb (id_of x) i) eqn:E; simpl.
    + injection Hf as ->. rewrite Hg. reflexivity.
    + rewrite IH; auto.
Qed.

Lemma authenticateToken_failure (tok : Token) (db : DB) (r : Response) :
  authenticateToken tok db = inl r -> is_success r = false.
Proof.
  destruct tok; simpl; try (intros H; injection H as <-; reflexivity).
  destruct (findById User._id userId (users db)); [discriminate|].
  intros H; injection H as <-; reflexivity.
Qed.

Lemma authenticateResellerToken_failure (tok : Token) (db : DB)
    (r : Response) :
  authenticateResellerToken tok db = inl r -> is_success r = false.
Proof.
  destruct tok; simpl; try (intros H; injection H as <-; reflexivity).
  destruct (findById Reseller._id userId (resellers db)); [discriminate|].
  intros H; injection H as <-; reflexivity.
Qed.

(** ** Strings and the validation chain *)

Lemma string_forallb_list (p : ascii -> bool) (s : string) :
  string_forallb p s = forallb p (list_ascii_of_string s).
Proof. induction s as [|c s IH]; simpl; [reflexivity|]. rewrite IH. reflexivity. Qed.

Lemma is_word_char_bounds (c : ascii) :
  is_word_char c = true -> (48 <= nat_of_ascii c <= 122)%nat.
Proof.
  unfold is_word_char. cbv zeta. intros H.
  repeat match type of H with
         | (_ || _) = true => apply orb_true_iff in H; destruct H as [H|H]
         end;
    try (apply andb_true_iff in H; destruct H as [H1 H2];
         apply Nat.leb_le in H1; apply Nat.leb_le in H2; lia).
  apply Nat.eqb_eq in H. lia.
Qed.

Ltac drop_tests :=
  repeat match goal with
         | |- context [Nat.eqb ?a ?b] =>
             replace (Nat.eqb a b) with false
               by (symmetry; apply Nat.eqb_neq; lia)
         | |- context [Nat.leb ?a ?b] =>
             replace (Nat.leb a b) with false
               by (symmetry; apply Nat.leb_gt; lia)
         end.

(** A character of a word is no white space, nor a byte of one. *)
Lemma word_char_no_space (c : ascii) :
  (48 <= nat_of_ascii c <= 122)%nat ->
  ws1 c = false
  /\ (forall y, ws2 c y = false /\ ws2 y c = false)
  /\ (forall y z, ws3 c y z = false /\ ws3 z y c = false).
Proof.
  intros H. split; [|split].
  - unfold ws1. cbv zeta. drop_tests.
    rewrite andb_false_r. reflexivity.
  - intros y. unfold ws2. drop_tests. rewrite andb_false_r. auto.
  - intros y z. unfold ws3. cbv zeta. split.
    + drop_tests. reflexivity.
    + drop_tests. rewrite !andb_false_r. reflexivity.
Qed.

Lemma strip_spaces_head (w1 : ascii -> bool) (w2 : ascii -> ascii -> bool)
    (w3 : ascii -> ascii -> ascii -> bool) (a : ascii) (l : list ascii) :
  w1 a = false -> (forall b, w2 a b = false) ->
  (forall b c, w3 a b c = false) ->
  strip_spaces w1 w2 w3 (a :: l) = a :: l.
Proof.
  intros H1 H2 H3. simpl. rewrite H1.
  destruct l as [|b l]; [reflexivity|]. rewrite H2.
  destruct l as [|c l]; [reflexivity|]. rewrite H3. reflexivity.
Qed.

(** A word, in the sense of the chains, has no white space to trim. *)
Lemma trim_word (s : string) : matches_word s = true -> trim s = s.
Proof.
  unfold matches_word. intros H. apply andb_true_iff in H.
  destruct H as [Hne Hall]. rewrite string_forallb_list in Hall.
  rewrite forallb_forall in Hall.
  assert (Hw : forall c, In c (list_ascii_of_string s) ->
                         (48 <= nat_of_ascii c <= 122)%nat)
    by (intros c Hc; apply is_word_char_bounds, Hall, Hc).
  assert (Hstart : trim_start s = s).
  { unfold trim_start. destruct s as [|c s']; [reflexivity|].
    simpl list_ascii_of_string.
    destruct (word_char_no_space c (Hw c (or_introl eq_refl)))
      as (H1 & H2 & H3).
    rewrite strip_spaces_head;
      [|exact H1|intros; apply H2|intros; apply H3].
    change (c :: list_ascii_of_string s')
      with (list_ascii_of_string (String c s')).
    apply string_of_list_ascii_of_string. }
  unfold trim. rewrite Hstart. unfold trim_end.
  destruct (rev (list_ascii_of_string s)) as [|x t] eqn:Hrev.
  - apply (f_equal (@rev ascii)) in Hrev. rewrite rev_involutive in Hrev.
    simpl in Hrev. destruct s; [reflexivity|discriminate Hrev].
  - assert (Hx : In x (list_ascii_of_string s)).
    { apply in_rev. rewrite Hrev. left. reflexivity. }
    destruct (word_char_no_space x (Hw x Hx)) as (H1 & H2 & H3).
    rewrite strip_spaces_head;
      [|exact H1|intros; apply H2|intros; apply H3].
    rewrite <- Hrev, rev_involutive. apply string_of_list_ascii_of_string.
Qed.

Lemma word_is_ascii (s : string) : matches_word s = true -> is_ascii s = true.
Proof.
  unfold matches_word, is_ascii. intros H. apply andb_true_iff in H.
  destruct H as [_ H]. induction s as [|c s IH]; [reflexivity|].
  simpl in *. apply andb_true_iff in H. destruct H as [Hc Hs].
  rewrite IH by exact Hs. apply is_word_char_bounds in Hc.
  replace (nat_of_ascii c <? 128)%nat with true
    by (symmetry; apply Nat.ltb_lt; lia).
  reflexivity.
Qed.

(** What a body that passes [validateClientRegistration] hands to the
    handler: a name that the schema accepts as it is, a password the
    schema accepts, a key and a HWID that are not empty. *)
Lemma validateClientRegistration_passed (v : Validator)
    (username password licenseKey hwid : JsString) (u p k h : string) :
  validateClientRegistration v username password licenseKey hwid
  = Some (u, p, k, h) ->
  (exists u0, username = JsStr u0 /\ u = trim u0)
  /\ password = JsStr p /\ licenseKey = JsStr k /\ hwid = JsStr h
  /\ matches_word u = true
  /\ trim u = u
  /\ (js_length u <? 3)%nat = false
  /\ Client.valid u p = true
  /\ k <> "" /\ h <> "".
Proof.
  unfold validateClientRegistration.
  destruct username as [| |u0]; try discriminate.
  destruct password as [| |p0]; try discriminate.
  destruct licenseKey as [| |k0]; try discriminate.
  destruct hwid as [| |h0]; try discriminate.
  destruct (isLength v 3 (Some 50%nat) (trim u0)) eqn:Hl; [|discriminate].
  destruct (matches_word (trim u0)) eqn:Hw; [|discriminate].
  destruct (isLength v 6 None p0) eqn:Hp; [|discriminate].
  destruct (notEmpty k0) eqn:Hk; [|discriminate].
  destruct (notEmpty h0) eqn:Hh; [|discriminate].
  simpl. intros H. injection H as <- <- <- <-.
  unfold isLength in Hl, Hp. apply andb_true_iff in Hl, Hp.
  destruct Hl as [Hl1 Hl2]. destruct Hp as [Hp1 _].
  apply Nat.leb_le in Hl1, Hl2, Hp1.
  pose proof (vlen_le v (trim u0)) as Hle.
  pose proof (vlen_le v p0) as Hlep.
  pose proof (vlen_ascii v (trim u0) (word_is_ascii _ Hw)) as Hasc.
  pose proof (trim_word _ Hw) as Htrim.
  split; [exists u0; split; reflexivity|].
  split; [reflexivity|]. split; [reflexivity|]. split; [reflexivity|].
  split; [exact Hw|]. split; [exact Htrim|].
  split; [apply Nat.ltb_ge; lia|].
  split.
  { unfold Client.valid. rewrite Htrim.
    apply andb_true_iff. split; [apply andb_true_iff; split|];
      apply Nat.leb_le; lia. }
  unfold notEmpty in Hk, Hh. apply negb_true_iff in Hk, Hh.
  split; apply String.eqb_neq; assumption.
Qed.

Section Strip.
Variables (w1 : ascii -> bool) (w2 : ascii -> ascii -> bool)
          (w3 : ascii -> ascii -> ascii -> bool).

(** What [strip_spaces] leaves is a suffix of the list, on which it has
    nothing more to drop. *)
Lemma strip_spaces_suffix (l : list ascii) :
  (exists d, l = d ++ strip_spaces w1 w2 w3 l)
  /\ strip_spaces w1 w2 w3 (strip_spaces w1 w2 w3 l) = strip_spaces w1 w2 w3 l.
Proof.
  remember (List.length l) as n eqn:Hn. revert l Hn.
  induction n as [n IH] using lt_wf_ind. intros l ->.
  destruct l as [|a l1]; [split; [exists []|]; reflexivity|].
  cbn [strip_spaces]. destruct (w1 a) eqn:H1.
  { destruct (IH (List.length l1) (Nat.lt_succ_diag_r _) l1 eq_refl)
      as [[d Hd] Hi].
    split; [exists (a :: d); simpl; f_equal; exact Hd|exact Hi]. }
  destruct l1 as [|b l2];
    [split; [exists []; reflexivity
            |cbn [strip_spaces]; rewrite H1; reflexivity]|].
  destruct (w2 a b) eqn:H2.
  { destruct (IH (List.length l2) ltac:(simpl; lia) l2 eq_refl)
      as [[d Hd] Hi].
    split; [exists (a :: b :: d); simpl; do 2 f_equal; exact Hd|exact Hi]. }
  destruct l2 as [|c l3];
    [split; [exists []; reflexivity
            |cbn [strip_spaces]; rewrite H1, H2; reflexivity]|].
  destruct (w3 a b c) eqn:H3.
  { destruct (IH (List.length l3) ltac:(simpl; lia) l3 eq_refl)
      as [[d Hd] Hi].
    split; [exists (a :: b :: c :: d); simpl; do 3 f_equal; exact Hd
           |exact Hi]. }
  split; [exists []; reflexivity|].
  cbn [strip_spaces]. rewrite H1, H2, H3. reflexivity.
Qed.

Lemma strip_spaces_shorter (l : list ascii) :
  (List.length (strip_spaces w1 w2 w3 l) <= List.length l)%nat.
Proof.
  destruct (strip_spaces_suffix l) as [[d Hd] _].
  rewrite Hd at 2. rewrite length_app. lia.
Qed.

(** A list with nothing to drop keeps that property in every prefix. *)
Lemma strip_spaces_prefix (p q : list ascii) :
  strip_spaces w1 w2 w3 (p ++ q) = p ++ q -> strip_spaces w1 w2 w3 p = p.
Proof.
  intros H. destruct p as [|a p1]; [reflexivity|].
  cbn [app] in H. cbn [strip_spaces] in *.
  destruct (w1 a).
  { pose proof (strip_spaces_shorter (p1 ++ q)) as Hs. rewrite H in Hs.
    simpl in Hs. lia. }
  destruct p1 as [|b p2]; [reflexivity|]. cbn [app] in H.
  destruct (w2 a b).
  { pose proof (strip_spaces_shorter (p2 ++ q)) as Hs. rewrite H in Hs.
    simpl in Hs. lia. }
  destruct p2 as [|c p3]; [reflexivity|]. cbn [app] in H.
  destruct (w3 a b c); [|reflexivity].
  pose proof (strip_spaces_shorter (p3 ++ q)) as Hs. rewrite H in Hs.
  simpl in Hs. lia.
Qed.
End Strip.

(** Trimming twice is trimming once. *)
Lemma trim_idem (s : string) : trim (trim s) = trim s.
Proof.
  unfold trim, trim_end, trim_start.
  rewrite !list_ascii_of_string_of_list_ascii.
  set (x := strip_spaces ws1 ws2 ws3 (list_ascii_of_string s)).
  set (w2' := fun b a => ws2 a b). set (w3' := fun c b a => ws3 a b c).
  set (y := rev (strip_spaces ws1 w2' w3' (rev x))).
  assert (Hy : strip_spaces ws1 ws2 ws3 y = y).
  { destruct (strip_spaces_suffix ws1 w2' w3' (rev x)) as [[d Hd] _].
    apply (strip_spaces_prefix ws1 ws2 ws3 y (rev d)).
    assert (Hx : y ++ rev d = x).
    { subst y. rewrite <- rev_app_distr, <- Hd. apply rev_involutive. }
    rewrite Hx. apply (proj2 (strip_spaces_suffix ws1 ws2 ws3 _)). }
  rewrite Hy. f_equal. subst y. rewrite rev_involutive.
  rewrite (proj2 (strip_spaces_suffix ws1 w2' w3' (rev x))). reflexivity.
Qed.

(** The query for a client sees a name through the schema's [trim]. *)
Lemma Client_findByAppUsername_trim (a : ObjectId) (u : string) (db : DB) :
  Client_findByAppUsername a (trim u) db = Client_findByAppUsername a u db.
Proof. unfold Client_findByAppUsername. rewrite trim_idem. reflexivity. Qed.

Lemma notEmpty_true (s : string) : notEmpty s = true <-> s <> "".
Proof.
  unfold notEmpty. rewrite negb_true_iff. apply String.eqb_neq.
Qed.

(** What a body that passes [validateClientLogin] hands to the handler:
    five strings, none of them empty, the name trimmed. *)
Lemma validateClientLogin_passed
    (username password hwid appId appSecret : JsString) (u p h i s : string) :
  validateClientLogin username password hwid appId appSecret
  = Some (u, p, h, i, s) ->
  (exists u0, username = JsStr u0 /\ u = trim u0)
  /\ password = JsStr p /\ hwid = JsStr h
  /\ appId = JsStr i /\ appSecret = JsStr s
  /\ trim u = u
  /\ u <> "" /\ p <> "" /\ h <> "" /\ i <> "" /\ s <> "".
Proof.
  unfold validateClientLogin.
  destruct username as [| |u0]; try discriminate.
  destruct password as [| |p0]; try discriminate.
  destruct hwid as [| |h0]; try discriminate.
  destruct appId as [| |i0]; try discriminate.
  destruct appSecret as [| |s0]; try discriminate.
  destruct (notEmpty (trim u0)) eqn:Hu; [|discriminate].
  destruct (notEmpty p0) eqn:Hp; [|discriminate].
  destruct (notEmpty h0) eqn:Hh; [|discriminate].
  destruct (notEmpty i0) eqn:Hi; [|discriminate].
  destruct (notEmpty s0) eqn:Hs; [|discriminate].
  simpl. intros H. injection H as <- <- <- <- <-.
  apply notEmpty_true in Hu, Hp, Hh, Hi, Hs.
  split; [exists u0; split; reflexivity|].
  repeat (split; [first [reflexivity|assumption|apply trim_idem]|]).
  assumption.
Qed.

(** [validateLicenseCreation] lets a body through exactly when the app is
    an id, the date is a date after the clock's, and the key and the note,
    when there, have a length in their bounds. *)
Lemma validateLicenseCreation_passed (v : Validator) (now : Date)
    (app : option ObjectId) (key : option string) (expiresAt : option Date)
    (note : option string) (a : ObjectId) (e : Date) :
  validateLicenseCreation v now app key expiresAt note = Some (a, e)
  <-> app = Some a /\ expiresAt = Some e /\ now < e
      /\ (forall k, key = Some k -> (8 <= vlen v k <= 50)%nat)
      /\ (forall n, note = Some n -> (vlen v n <= 500)%nat).
Proof.
  unfold validateLicenseCreation, isLength. split.
  - destruct app as [a'|]; [|discriminate].
    destruct expiresAt as [e'|]; [|discriminate].
    destruct (_ && _ && _) eqn:H; [|discriminate].
    intros Heq. injection Heq as <- <-.
    apply andb_true_iff in H. destruct H as [H Hn].
    apply andb_true_iff in H. destruct H as [Hk He].
    apply negb_true_iff, Z.leb_gt in He.
    split; [reflexivity|]. split; [reflexivity|]. split; [exact He|].
    split.
    + intros k ->. apply andb_true_iff in Hk. destruct Hk as [H1 H2].
      apply Nat.leb_le in H1, H2. lia.
    + intros n ->. apply andb_true_iff in Hn. destruct Hn as [_ H2].
      apply Nat.leb_le in H2. exact H2.
  - intros (-> & -> & He & Hk & Hn).
    assert (H1 : match key with
                 | Some k => (8 <=? vlen v k)%nat && (vlen v k <=? 50)%nat
                 | None => true
                 end = true).
    { destruct key as [k|]; [|reflexivity].
      specialize (Hk k eq_refl). apply andb_true_iff.
      split; apply Nat.leb_le; lia. }
    assert (H2 : match note with
                 | Some n => (0 <=? vlen v n)%nat && (vlen v n <=? 500)%nat
                 | None => true
                 end = true).
    { destruct note as [n|]; [|reflexivity].
      specialize (Hn n eq_refl). apply andb_true_iff.
      split; apply Nat.leb_le; lia. }
    assert (H3 : negb (e <=? now) = true)
      by (apply negb_true_iff, Z.leb_gt; exact He).
    rewrite H1, H2, H3. reflexivity.
Qed.

(** ** License ban toggle *)

Lemma toggleBan_frame (x : License.t) :
  License.used (License.toggleBan x) = License.used x
  /\ License.usedBy (License.toggleBan x) = License.usedBy x
  /\ License.key (License.toggleBan x) = License.key x
  /\ License._id (License.toggleBan x) = License._id x.
Proof.
  unfold License.toggleBan. destruct (License.status x); simpl; auto.
Qed.

Lemma toggle_ban_cases (sq : bool) (tok : Token) (i : ObjectId) (db : DB)
    (r : Response) (db' : DB) :
  toggle_ban sq tok i db = (r, db') ->
  (is_success r = false /\ db' = db)
  \/ (is_success r = true
      /\ exists stored,
          findById License._id i (licenses db) = Some stored
          /\ db' = License_save (License.toggleBan stored) db).
Proof.
  unfold toggle_ban. intros H.
  repeat case_in H; finish H;
    try (left; split; [reflexivity|reflexivity]);
    try (left; split; [eapply authenticateToken_failure; eassumption
                      |reflexivity]);
    right; (split; [reflexivity|]); eexists; split; eauto.
Qed.

(** C5.  [toggleBan] sends ACTIVE to BANNED and BANNED to ACTIVE, leaves a
    REVOKED or EXPIRED status as it is, and never touches [used] or
    [usedBy]; the route [PATCH /licenses/:id/toggle-ban] either fails and
    leaves the database as it was, or saves exactly the toggled license, and
    in both cases every stored license keeps its [used] and [usedBy]. *)
Theorem C5_toggle_ban_flips_status_only
    (l : License.t) (sq : bool) (tok : Token) (i : ObjectId) (db : DB)
    (r : Response) (db' : DB) :
  toggle_ban sq tok i db = (r, db') ->
  (License.status l = ACTIVE ->
   License.status (License.toggleBan l) = BANNED)
  /\ (License.status l = BANNED ->
      License.status (License.toggleBan l) = ACTIVE)
  /\ (License.status l = REVOKED \/ License.status l = EXPIRED ->
      License.status (License.toggleBan l) = License.status l)
  /\ License.used (License.toggleBan l) = License.used l
  /\ License.usedBy (License.toggleBan l) = License.usedBy l
  /\ (is_success r = false -> db' = db)
  /\ (is_success r = true ->
      exists stored,
        findById License._id i (licenses db) = Some stored
        /\ db' = License_save (License.toggleBan stored) db
        /\ findById License._id i (licenses db')
           = Some (License.toggleBan stored))
  /\ map (fun x => (License.used x, License.usedBy x)) (licenses db')
     = map (fun x => (License.used x, License.usedBy x)) (licenses db).
Proof.
  intros H. apply toggle_ban_cases in H.
  split; [|split; [|split; [|split; [|split]]]].
  - intros E. unfold License.toggleBan. rewrite E. reflexivity.
  - intros E. unfold License.toggleBan. rewrite E. reflexivity.
  - intros [E|E]; unfold License.toggleBan; rewrite E; simpl; exact E.
  - apply toggleBan_frame.
  - apply toggleBan_frame.
  - destruct H as [[Hr ->]|[Hr [stored [Hf ->]]]].
    + split; [reflexivity|]. split; [congruence|reflexivity].
    + destruct (findById_some _ _ _ _ Hf) as [_ Hid].
      destruct (toggleBan_frame stored) as (Hu & Hb & _ & Hid').
      split; [congruence|]. split.
      * intros _. exists stored. split; [exact Hf|]. split; [reflexivity|].
        unfold License_save. simpl licenses. rewrite Hid', Hid.
        apply findById_updateById; congruence.
      * unfold License_save. simpl licenses. rewrite Hid', Hid.
        apply (updateById_found_map _ _ _ stored); [exact Hf|].
        rewrite Hu, Hb. reflexivity.
Qed.

Lemma C5_toggle_ban_witness :
  toggle_ban false (Verified 0) 3 ex_db
  = (fst (toggle_ban false (Verified 0) 3 ex_db),
     snd (toggle_ban false (Verified 0) 3 ex_db))
  /\ License.status (License.toggleBan ex_license) = BANNED
  /\ map (fun x => (License.used x, License.usedBy x))
         (licenses (snd (toggle_ban false (Verified 0) 3 ex_db)))
     = [(true, Some 4%nat); (false, None)].
Proof.
  split; [apply surjective_pairing|].
  pose proof (C5_toggle_ban_flips_status_only ex_license false (Verified 0)
                3%nat ex_db _ _
                (surjective_pairing
                   (toggle_ban false (Verified 0) 3 ex_db))) as H.
  split.
  - apply H. reflexivity.
  - destruct H as (_ & _ & _ & _ & _ & _ & _ & H). rewrite H. reflexivity.
Defined.

(** ** License deletion and the reseller's counter *)

(** The owner's deletion of a license whose reseller still exists removes
    the license and stores the reseller's counter minus one, with no lower
    bound. *)
Lemma delete_license_decrements (tok : Token) (i : ObjectId) (db : DB)
    (u : User.t) (l : License.t) (a : App.t) (r : Reseller.t) :
  authenticateToken tok db = inr u ->
  findById License._id i (licenses db) = Some l ->
  findById App._id (License.app l) (apps db) = Some a ->
  App.owner a = User._id u ->
  populate_reseller l db = Some r ->
  let db' := snd (delete_license tok i db) in
  fst (delete_license tok i db)
  = Json 200 true "License deleted successfully" NoData
  /\ licenses db' = findByIdAndDelete License._id i (licenses db)
  /\ findById Reseller._id (Reseller._id r) (resellers db')
     = Some (Reseller.set_usedLicenses (Reseller.usedLicenses r - 1)%Q r).
Proof.
  intros Hu Hl Ha Ho Hr. unfold delete_license.
  rewrite Hu, Hl, Ha, Ho, Nat.eqb_refl, Hr. simpl.
  split; [reflexivity|]. split; [reflexivity|].
  unfold populate_reseller in Hr.
  destruct (License.reseller l) as [j|]; [|discriminate].
  destruct (findById_some _ _ _ _ Hr) as [_ Hid]. subst j.
  change (Reseller.usedLicenses r - 1)%Q
    with (Reseller.usedLicenses r + (-1))%Q.
  apply (findById_updateById_found Reseller._id (Reseller._id r)
           (fun x => Reseller.set_usedLicenses
                       (Reseller.usedLicenses x + (-1))%Q x) r);
    [exact Hr|reflexivity].
Qed.

(** C4 (the counter is floored at 0 on license deletion; fails on the
    code).  With the reseller's counter at 0 and one of its licenses still
    stored, the owner's [DELETE /licenses/:id] succeeds, removes the
    license and stores the counter -1, where the model's own
    [decrementUsedLicenses] keeps it at 0. *)
Theorem C4_delete_license_counter_goes_negative :
  findById Reseller._id 2%nat (resellers c4_db)
  = Some (Reseller.set_usedLicenses 0 ex_reseller)
  /\ License.reseller ex_license = Some 2%nat
  /\ findById License._id 3%nat (licenses c4_db) = Some ex_license
  /\ fst (delete_license (Verified 0) 3 c4_db)
     = Json 200 true "License deleted successfully" NoData
  /\ findById License._id 3%nat
       (licenses (snd (delete_license (Verified 0) 3 c4_db))) = None
  /\ option_map Reseller.usedLicenses
       (findById Reseller._id 2%nat
          (resellers (snd (delete_license (Verified 0) 3 c4_db))))
     = Some (-1)%Q
  /\ Reseller.usedLicenses
       (Reseller.decrementUsedLicenses
          (Reseller.set_usedLicenses 0 ex_reseller)) = 0%Q.
Proof. repeat split. Qed.

(** ** Reseller deletion *)

Lemma Status_eqb_eq (a b : Status) : Status_eqb a b = true <-> a = b.
Proof. destruct a, b; simpl; split; congruence. Qed.

Lemma active_count_pos (rid : ObjectId) (db : DB) :
  has_active_license rid db <->
  (0 < countDocuments
         (fun l => match License.reseller l with
                   | Some i => Nat.eqb i rid
                   | None => false
                   end && Status_eqb (License.status l) ACTIVE)
         (licenses db))%nat.
Proof.
  unfold has_active_license, countDocuments. split.
  - intros [l (Hin & Hr & Hs)].
    assert (Hf : In l (filter
                         (fun l => match License.reseller l with
                                   | Some i => Nat.eqb i rid
                                   | None => false
                                   end
                                   && Status_eqb (License.status l) ACTIVE)
                         (licenses db))).
    { apply filter_In. split; [exact Hin|].
      rewrite Hr, Hs, Nat.eqb_refl. reflexivity. }
    destruct (filter _ (licenses db)); [contradiction|simpl; lia].
  - intros Hpos.
    destruct (filter _ (licenses db)) as [|l ls] eqn:E; [simpl in Hpos; lia|].
    assert (Hin : In l (l :: ls)) by (left; reflexivity).
    rewrite <- E in Hin. apply filter_In in Hin. destruct Hin as [Hin Hp].
    apply andb_true_iff in Hp. destruct Hp as [Hr Hs].
    exists l. split; [exact Hin|]. split.
    + destruct (License.reseller l) as [j|]; [|discriminate].
      apply Nat.eqb_eq in Hr. congruence.
    + apply Status_eqb_eq. exact Hs.
Qed.

(** C6.  For a reseller of an app of the caller: the owner's
    [DELETE /resellers/:id] fails and changes nothing when the reseller has
    a license with status ACTIVE; when it has none, whatever other licenses
    it has, the request succeeds and removes the reseller. *)
Theorem C6_delete_reseller_blocked_by_active_licenses
    (tok : Token) (rid : ObjectId) (db : DB) (u : User.t) (res : Reseller.t)
    (a : App.t) :
  authenticateToken tok db = inr u ->
  findById Reseller._id rid (resellers db) = Some res ->
  findById App._id (Reseller.app res) (apps db) = Some a ->
  App.owner a = User._id u ->
  (has_active_license rid db ->
   is_success (fst (delete_reseller tok rid db)) = false
   /\ snd (delete_reseller tok rid db) = db)
  /\ (~ has_active_license rid db ->
      fst (delete_reseller tok rid db)
      = Json 200 true "Reseller deleted successfully" NoData
      /\ snd (delete_reseller tok rid db)
         = with_resellers
             (findByIdAndDelete Reseller._id rid (resellers db)) db
      /\ S (List.length (resellers (snd (delete_reseller tok rid db))))
         = List.length (resellers db)
      /\ (NoDup (map Reseller._id (resellers db)) ->
          findById Reseller._id rid
            (resellers (snd (delete_reseller tok rid db))) = None)).
Proof.
  intros Hu Hr Ha Ho.
  destruct (findById_some _ _ _ _ Hr) as [_ Hid].
  unfold delete_reseller. rewrite Hu, Hr, Ha, Ho, Nat.eqb_refl. simpl negb.
  cbv iota. rewrite Hid.
  split.
  - intros Hact. apply active_count_pos in Hact.
    apply Nat.ltb_lt in Hact. rewrite Hact. split; reflexivity.
  - intros Hnone.
    assert (Hz : (0 <? countDocuments
                         (fun l => match License.reseller l with
                                   | Some i => Nat.eqb i rid
                                   | None => false
                                   end
                                   && Status_eqb (License.status l) ACTIVE)
                         (licenses db))%nat = false).
    { apply Nat.ltb_ge. apply Nat.nlt_ge. intros Hpos. apply Hnone.
      apply active_count_pos. exact Hpos. }
    rewrite Hz. simpl. split; [reflexivity|]. split; [reflexivity|]. split.
    + apply findByIdAndDelete_length. congruence.
    + apply findByIdAndDelete_gone.
Qed.

Lemma C6_delete_reseller_witness :
  (authenticateToken (Verified 0) ex_db = inr ex_owner
   /\ has_active_license 2 ex_db
   /\ is_success (fst (delete_reseller (Verified 0) 2 ex_db)) = false
   /\ snd (delete_reseller (Verified 0) 2 ex_db) = ex_db)
  /\ (~ has_active_license 2 c6_db
      /\ fst (delete_reseller (Verified 0) 2 c6_db)
         = Json 200 true "Reseller deleted successfully" NoData
      /\ resellers (snd (delete_reseller (Verified 0) 2 c6_db)) = []).
Proof.
  assert (Hact : has_active_license 2 ex_db).
  { exists ex_license. simpl. auto. }
  assert (Hnone : ~ has_active_license 2 c6_db).
  { intros [l (Hin & Hr & Hs)]. simpl in Hin.
    destruct Hin as [<-|[<-|[]]]; discriminate. }
  split.
  - split; [reflexivity|]. split; [exact Hact|].
    apply (C6_delete_reseller_blocked_by_active_licenses (Verified 0) 2%nat
             ex_db ex_owner ex_reseller ex_app);
      [reflexivity|reflexivity|reflexivity|reflexivity|exact Hact].
  - split; [exact Hnone|].
    destruct (C6_delete_reseller_blocked_by_active_licenses (Verified 0)
                2%nat c6_db ex_owner ex_reseller ex_app eq_refl eq_refl
                eq_refl eq_refl) as [_ H].
    destruct (H Hnone) as (H1 & H2 & _).
    split; [exact H1|]. rewrite H2. reflexivity.
Defined.

(** ** The payment webhook *)

(** C8.  The webhook answers [{ received: true }] with status 200 and
    leaves the database alone whenever the webhook secret is not
    configured; with a secret, a request whose signature header is not the
    HMAC of the body under that secret is rejected with status 400 and the
    database is left alone; and a correctly signed [payment.captured] event
    for a stored payment that is already captured changes nothing. *)
Theorem C8_webhook_secret_signature_replay
    (hmac : string -> string -> string) (signature secret : option string)
    (body : WebhookBody) (db : DB) :
  (truthy secret = false ->
   webhook hmac signature secret body db = (Received 200, db))
  /\ (forall s,
        secret = Some s -> s <> "" ->
        signature <> Some (hmac s (wb_stringified body)) ->
        webhook hmac signature secret body db
        = (ErrorJson 400 "Invalid signature", db))
  /\ (forall s e p,
        secret = Some s -> s <> "" ->
        signature = Some (hmac s (wb_stringified body)) ->
        wb_event body = "payment.captured" ->
        wb_payment body = Some (Some e) ->
        Payment_findByPaymentId (entity_id e) db = Some p ->
        Payment.status p = pay_captured ->
        handlePaymentCaptured (Some e) db = db
        /\ webhook hmac signature secret body db = (Received 200, db)).
Proof.
  split; [|split].
  - intros H. unfold webhook. rewrite H. reflexivity.
  - intros s -> Hs Hsig. unfold webhook. simpl truthy.
    assert (E : String.eqb s "" = false) by (apply String.eqb_neq; exact Hs).
    rewrite E. simpl negb. cbv iota.
    destruct signature as [g|]; [|reflexivity].
    destruct (String.eqb g (hmac s (wb_stringified body))) eqn:G;
      [|reflexivity].
    apply String.eqb_eq in G. congruence.
  - intros s e p -> Hs -> Hev Hpay Hfind Hst.
    assert (Hnoop : handlePaymentCaptured (Some e) db = db).
    { unfold handlePaymentCaptured. rewrite Hfind, Hst. reflexivity. }
    split; [exact Hnoop|].
    unfold webhook. simpl truthy.
    assert (E : String.eqb s "" = false) by (apply String.eqb_neq; exact Hs).
    rewrite E. simpl negb. cbv iota. rewrite String.eqb_refl. simpl negb.
    cbv iota. rewrite Hev. simpl String.eqb. cbv iota.
    rewrite Hpay, Hnoop. reflexivity.
Qed.

Lemma C8_webhook_witness :
  webhook c1_hmac (Some "anything") None c8_body c8_db = (Received 200, c8_db)
  /\ webhook c1_hmac (Some "forged") (Some "whsec") c8_body c8_db
     = (ErrorJson 400 "Invalid signature", c8_db)
  /\ (Payment_findByPaymentId "pay_1" c8_db = Some c8_payment
      /\ Payment.status c8_payment = pay_captured
      /\ webhook c1_hmac
           (Some (c1_hmac "whsec" (wb_stringified c8_body))) (Some "whsec")
           c8_body c8_db
         = (Received 200, c8_db)).
Proof.
  split; [|split].
  - apply (C8_webhook_secret_signature_replay c1_hmac (Some "anything") None
             c8_body c8_db).
    reflexivity.
  - apply (C8_webhook_secret_signature_replay c1_hmac (Some "forged")
             (Some "whsec") c8_body c8_db) with (s := "whsec");
      [reflexivity|discriminate|discriminate].
  - split; [reflexivity|]. split; [reflexivity|].
    apply (C8_webhook_secret_signature_replay c1_hmac
             (Some (c1_hmac "whsec" (wb_stringified c8_body))) (Some "whsec")
             c8_body c8_db)
      with (s := "whsec") (e := mkEntity "pay_1" "" 49900
                                        [("status", "captured")])
           (p := c8_payment);
      [reflexivity|discriminate|reflexivity|reflexivity|reflexivity
      |reflexivity|reflexivity].
Defined.

(** ** Client login and the hardware id *)






(** ** Client registration *)

(** A registration against an unknown key is answered with a fixed text,
    whatever the stored apps and their messages are. *)
Lemma register_unknown_key (hash : string -> string) (now : Date)
    (username password licenseKey : string) (hwid : JsString) (db : DB) :
  License_findByKey licenseKey db = None ->
  register hash now username password licenseKey hwid db
  = (Json 400 false "Invalid license key" NoData, db).
Proof. intros H. unfold register. rewrite H. reflexivity. Qed.

(** C3 as stated fails.  Here the only app has all nineteen messages
    configured.  A registration under a name of two characters against an
    unused license is, by the order of the claim, rejected as 'username too
    short' with the app's [unTooShort] message; the route answers
    'Validation failed', before it has looked at the license.  And a
    registration against an unknown key is answered with the fixed text
    'Invalid license key'.  No message of the app is either text. *)
Lemma C3_answers_no_app_configures :
  (first_rejection 1000 "ab" "BBBB1111BBBB1111BBBB1111" c3_db
   = Some UsernameTooShort
   /\ rejection_key UsernameTooShort = Some unTooShort
   /\ register_route ex_validator ex_hash 1000 (JsStr "ab")
        (JsStr "hunter22") (JsStr "BBBB1111BBBB1111BBBB1111") (JsStr "HW-9")
        c3_db
      = (Json 400 false "Validation failed" NoData, c3_db))
  /\ (first_rejection 1000 "bobby2" "NO-SUCH-KEY" c3_db = Some LicenseNotFound
      /\ register_route ex_validator ex_hash 1000 (JsStr "bobby2")
           (JsStr "hunter22") (JsStr "NO-SUCH-KEY") (JsStr "HW-9") c3_db
         = (Json 400 false "Invalid license key" NoData, c3_db))
  /\ (forall a k, In a (apps c3_db) ->
        getErrorMessage a k = "configured by the owner"
        /\ getErrorMessage a k <> "Validation failed"
        /\ getErrorMessage a k <> "Invalid license key").
Proof.
  split; [repeat split|]. split; [repeat split|].
  intros a k [<-|[]]. repeat split; discriminate.
Qed.

Lemma register_failure_keeps_db (hash : string -> string) (now : Date)
    (username password licenseKey : string) (hwid : JsString) (db : DB) :
  is_success (fst (register hash now username password licenseKey hwid db))
  = false ->
  snd (register hash now username password licenseKey hwid db) = db.
Proof.
  unfold register. intros H.
  repeat match goal with
         | |- context [match ?x with _ => _ end] => destruct x eqn:?
         end; simpl in *; try reflexivity; try discriminate.
Qed.

(** The handler of the registration, given the fields as the chain hands
    them on: its rejections in their order, the frame of a failure and the
    effect of a success. *)
Lemma register_checks_in_order
    (hash : string -> string) (now : Date)
    (username password licenseKey : string) (hwid : JsString) (db : DB) :
  let result := register hash now username password licenseKey hwid db in
  (first_rejection now username licenseKey db = Some LicenseNotFound ->
   result = (Json 400 false "Invalid license key" NoData, db))
  /\ (forall rj k l a,
        first_rejection now username licenseKey db = Some rj ->
        rejection_key rj = Some k ->
        License_findByKey licenseKey db = Some l ->
        findById App._id (License.app l) (apps db) = Some a ->
        result = (Json 400 false (getErrorMessage a k) NoData, db))
  /\ (is_success (fst result) = false -> snd result = db)
  /\ (is_success (fst result) = true ->
      first_rejection now username licenseKey db = None
      /\ exists l client,
           License_findByKey licenseKey db = Some l
           /\ License.used l = false
           /\ License.status l = ACTIVE
           /\ fst result
              = Json 201 true "Registration successful" (DataClient client)
           /\ clients (snd result) = clients db ++ [client]
           /\ Client.licenseKey client = licenseKey
           /\ Client.app client = License.app l
           /\ licenses (snd result)
              = updateById License._id (License._id l)
                  (fun _ => License.set_usage true (Some (Client._id client))
                                              l)
                  (licenses db)
           /\ (NoDup (map License._id (licenses db)) ->
               findById License._id (License._id l) (licenses (snd result))
               = Some (License.set_usage true (Some (Client._id client)) l)))
  /\ (forall l a,
        License_findByKey licenseKey db = Some l ->
        findById App._id (License.app l) (apps db) = Some a ->
        first_rejection now username licenseKey db = None ->
        Client.valid username password = true ->
        is_success (fst result) = true).
Proof.
  cbv zeta. split; [|split; [|split; [|split]]].
  - unfold first_rejection, register.
    destruct (License_findByKey licenseKey db) as [l|]; [|reflexivity].
    destruct (findById App._id (License.app l) (apps db)) as [a|];
      [|discriminate].
    unfold registration_checks. simpl.
    repeat match goal with
           | |- context [if ?b then _ else _] => destruct b; simpl
           end; discriminate.
  - intros rj k l a Hrj Hk Hl Ha. unfold first_rejection in Hrj.
    unfold register. rewrite Hl in *. rewrite Ha in *.
    unfold registration_checks in Hrj. simpl in Hrj.
    destruct (App.paused a);
      [simpl in Hrj; injection Hrj as <-; injection Hk as <-; reflexivity|].
    destruct (License.used l);
      [simpl in Hrj; injection Hrj as <-; injection Hk as <-; reflexivity|].
    destruct (Status_eqb (License.status l) ACTIVE);
      [|simpl in Hrj; injection Hrj as <-; injection Hk as <-; reflexivity].
    destruct (License.isExpired now l);
      [simpl in Hrj; injection Hrj as <-; injection Hk as <-; reflexivity|].
    destruct (js_length username <? 3)%nat;
      [simpl in Hrj; injection Hrj as <-; injection Hk as <-; reflexivity|].
    destruct (is_some (Client_findByAppUsername (App._id a) username db));
      [simpl in Hrj; injection Hrj as <-; injection Hk as <-; reflexivity|].
    simpl in Hrj. discriminate.
  - apply register_failure_keeps_db.
  - unfold first_rejection, register, registration_checks, Client_create.
    destruct (License_findByKey licenseKey db) as [l|] eqn:Hl;
      [|simpl; discriminate].
    destruct (findById App._id (License.app l) (apps db)) as [a|] eqn:Ha;
      [|simpl; discriminate].
    rewrite Client_findByAppUsername_trim.
    destruct (App.paused a); [simpl; discriminate|].
    destruct (License.used l) eqn:Hused; [simpl; discriminate|].
    destruct (Status_eqb (License.status l) ACTIVE) eqn:Hst;
      [|simpl; discriminate].
    destruct (License.isExpired now l); [simpl; discriminate|].
    destruct (js_length username <? 3)%nat; [simpl; discriminate|].
    destruct (is_some (Client_findByAppUsername (App._id a) username db));
      [simpl; discriminate|].
    destruct (negb (Client.valid username password)); [simpl; discriminate|].
    simpl. intros _. split; [reflexivity|].
    destruct (findById_some _ _ _ _ Ha) as [_ Haid].
    eexists l, _. split; [reflexivity|]. split; [exact Hused|].
    split; [apply Status_eqb_eq; exact Hst|].
    split; [reflexivity|]. split; [reflexivity|]. split; [reflexivity|].
    split; [exact Haid|]. split; [reflexivity|].
    intros Hnd.
    apply (findById_updateById_found License._id (License._id l)
             (fun _ => License.set_usage true (Some (nextId db)) l) l);
      [|reflexivity].
    apply findById_unique; [exact Hnd| |reflexivity].
    unfold License_findByKey, findOne in Hl. apply find_some in Hl. apply Hl.
  - intros l a Hl Ha Hrj Hvalid.
    unfold first_rejection in Hrj. unfold register, Client_create.
    rewrite Hl in *. rewrite Ha in *.
    rewrite Client_findByAppUsername_trim.
    unfold registration_checks in Hrj. simpl in Hrj.
    destruct (App.paused a); [discriminate|].
    destruct (License.used l); [discriminate|].
    destruct (Status_eqb (License.status l) ACTIVE); [|discriminate].
    destruct (License.isExpired now l); [discriminate|].
    destruct (js_length username <? 3)%nat; [discriminate|].
    destruct (is_some (Client_findByAppUsername (App._id a) username db));
      [discriminate|].
    rewrite Hvalid. reflexivity.
Qed.

(** Behind a body that passes the chain, the checks in the order of the
    route are the checks of the handler. *)
Lemma first_served_rejection_passed (v : Validator) (now : Date)
    (username password licenseKey hwid : JsString) (u p k h : string)
    (db : DB) :
  validateClientRegistration v username password licenseKey hwid
  = Some (u, p, k, h) ->
  first_served_rejection v now username password licenseKey hwid db
  = first_rejection now u k db.
Proof.
  intros Hv. unfold first_served_rejection, first_rejection. rewrite Hv.
  destruct (validateClientRegistration_passed _ _ _ _ _ _ _ _ _ Hv)
    as (_ & _ & _ & _ & _ & _ & Hlen & _).
  destruct (License_findByKey k db) as [l|]; [|reflexivity].
  destruct (findById App._id (License.app l) (apps db)) as [a|];
    [|reflexivity].
  unfold served_checks, registration_checks. simpl. rewrite Hlen.
  repeat match goal with
         | |- context [if ?b then _ else _] => destruct b; simpl
         end; reflexivity.
Qed.

(** C3, amended.  A registration whose body fails the validation chain is
    answered 400 'Validation failed' before any other check.  Behind the
    chain the rejections are tried in the order license not found, app
    paused, license already used, license status other than ACTIVE,
    license expired, username taken within the app.  License not found
    answers status 400 with the fixed text 'Invalid license key'; each of
    the other five answers status 400 with the message the license's app
    has under [pausedApp], [keyUsed], [keyBanned], [noActiveSubs] or
    [usernameTaken].  Every registration that does not succeed leaves the
    whole database, so the clients and the license's [used] and [status],
    as it was.  A registration that succeeds has passed the chain and all
    six checks, appends one new client and, in the same step, saves the
    license with [used = true] and [usedBy] the new client; and it does
    succeed once the chain and the six checks pass and the license's app
    is stored. *)
Theorem C3_register_checks_in_order
    (v : Validator) (hash : string -> string) (now : Date)
    (username password licenseKey hwid : JsString) (db : DB) :
  let result :=
    register_route v hash now username password licenseKey hwid db in
  let rejection :=
    first_served_rejection v now username password licenseKey hwid db in
  (rejection = Some InvalidBody ->
   result = (Json 400 false "Validation failed" NoData, db))
  /\ (rejection = Some LicenseNotFound ->
      result = (Json 400 false "Invalid license key" NoData, db))
  /\ (forall rj m,
        rejection = Some rj -> rejection_key rj = Some m ->
        rj <> UsernameTooShort
        /\ exists u p k h l a,
             validateClientRegistration v username password licenseKey hwid
             = Some (u, p, k, h)
             /\ License_findByKey k db = Some l
             /\ findById App._id (License.app l) (apps db) = Some a
             /\ result = (Json 400 false (getErrorMessage a m) NoData, db))
  /\ (is_success (fst result) = false -> snd result = db)
  /\ (is_success (fst result) = true ->
      rejection = None
      /\ exists u p k h l client,
           validateClientRegistration v username password licenseKey hwid
           = Some (u, p, k, h)
           /\ License_findByKey k db = Some l
           /\ License.used l = false
           /\ License.status l = ACTIVE
           /\ fst result
              = Json 201 true "Registration successful" (DataClient client)
           /\ clients (snd result) = clients db ++ [client]
           /\ Client.username client = u
           /\ Client.licenseKey client = k
           /\ Client.app client = License.app l
           /\ licenses (snd result)
              = updateById License._id (License._id l)
                  (fun _ => License.set_usage true (Some (Client._id client))
                                              l)
                  (licenses db)
           /\ (NoDup (map License._id (licenses db)) ->
               findById License._id (License._id l) (licenses (snd result))
               = Some (License.set_usage true (Some (Client._id client)) l)))
  /\ (forall u p k h l a,
        validateClientRegistration v username password licenseKey hwid
        = Some (u, p, k, h) ->
        License_findByKey k db = Some l ->
        findById App._id (License.app l) (apps db) = Some a ->
        rejection = None ->
        is_success (fst result) = true).
Proof.
  cbv zeta. unfold register_route.
  destruct (validateClientRegistration v username password licenseKey hwid)
    as [[[[u p] k] h]|] eqn:Hv.
  2:{ unfold first_served_rejection. rewrite Hv.
      split; [reflexivity|]. split; [discriminate|].
      split; [intros rj m H Hm; injection H as <-; discriminate|].
      split; [reflexivity|]. split; [discriminate|].
      intros; discriminate. }
  rewrite (first_served_rejection_passed _ now _ _ _ _ _ _ _ _ db Hv).
  destruct (validateClientRegistration_passed _ _ _ _ _ _ _ _ _ Hv)
    as (_ & _ & _ & _ & _ & Htrim & Hlen & Hvalid & _).
  destruct (register_checks_in_order hash now u p k (JsStr h) db)
    as (H1 & H2 & H3 & H4 & H5).
  split; [|split; [|split; [|split; [|split]]]].
  - unfold first_rejection.
    destruct (License_findByKey k db) as [l|]; [|discriminate].
    destruct (findById App._id (License.app l) (apps db)) as [a|];
      [|discriminate].
    unfold registration_checks. simpl.
    repeat match goal with
           | |- context [if ?b then _ else _] => destruct b; simpl
           end; discriminate.
  - exact H1.
  - intros rj m Hrj Hm. split.
    + intros ->. unfold first_rejection in Hrj.
      destruct (License_findByKey k db) as [l|]; [|discriminate].
      destruct (findById App._id (License.app l) (apps db)) as [a|];
        [|discriminate].
      unfold registration_checks in Hrj. simpl in Hrj. rewrite Hlen in Hrj.
      repeat match type of Hrj with
             | context [if ?b then _ else _] => destruct b; simpl in Hrj
             end; discriminate.
    + pose proof Hrj as Hrj'. unfold first_rejection in Hrj'.
      destruct (License_findByKey k db) as [l|] eqn:Hl;
        [|injection Hrj' as <-; discriminate].
      destruct (findById App._id (License.app l) (apps db)) as [a|] eqn:Ha;
        [|discriminate].
      exists u, p, k, h, l, a. split; [reflexivity|]. split; [exact Hl|].
      split; [exact Ha|].
      apply (H2 rj m l a); [assumption|assumption|reflexivity|assumption].
  - exact H3.
  - intros Hs. destruct (H4 Hs) as (Hnone & l & client & Hl & Hu & Hst & Hr
                                    & Hc & Hk & Ha & Hls & Hnd).
    split; [exact Hnone|].
    exists u, p, k, h, l, client. split; [reflexivity|].
    split; [exact Hl|]. split; [exact Hu|]. split; [exact Hst|].
    split; [exact Hr|]. split; [exact Hc|]. split.
    { clear - Hc Hs Htrim. unfold register in *.
      repeat match type of Hc with
             | context [match ?x with _ => _ end] =>
                 destruct x eqn:?; simpl in Hs; try discriminate
             end.
      unfold Client_create, fresh_id in *. cbv beta iota zeta in *.
      repeat match goal with
             | E : (if ?b then _ else _) = Some _ |- _ =>
                 destruct b; try discriminate
             end.
      match goal with
      | E : Some _ = Some _ |- _ => injection E as <- <-
      end.
      simpl in Hc. apply app_inv_head in Hc. injection Hc as <-.
      simpl. exact Htrim. }
    split; [exact Hk|]. split; [exact Ha|]. split; [exact Hls|exact Hnd].
  - intros u' p' k' h' l a Heq Hl Ha Hnone.
    injection Heq as <- <- <- <-.
    exact (H5 l a Hl Ha Hnone Hvalid).
Qed.

Lemma C3_register_witness :
  (first_served_rejection ex_validator 1000 (JsStr "carol") (JsStr "secret99")
     (JsStr "AAAA0000AAAA0000AAAA0000") (JsStr "HW-9") ex_db
   = Some LicenseUsed
   /\ register_route ex_validator ex_hash 1000 (JsStr "carol")
        (JsStr "secret99") (JsStr "AAAA0000AAAA0000AAAA0000") (JsStr "HW-9")
        ex_db
      = (Json 400 false "License key has already been used" NoData, ex_db))
  /\ (first_served_rejection ex_validator 1000 (JsStr " carol ")
        (JsStr "secret99") (JsStr "BBBB1111BBBB1111BBBB1111") (JsStr "HW-9")
        ex_db = None
      /\ is_success
           (fst (register_route ex_validator ex_hash 1000 (JsStr " carol ")
                   (JsStr "secret99") (JsStr "BBBB1111BBBB1111BBBB1111")
                   (JsStr "HW-9") ex_db))
         = true
      /\ exists client,
           clients (snd (register_route ex_validator ex_hash 1000
                           (JsStr " carol ") (JsStr "secret99")
                           (JsStr "BBBB1111BBBB1111BBBB1111") (JsStr "HW-9")
                           ex_db))
           = clients ex_db ++ [client]
           /\ Client.username client = "carol"
           /\ findById License._id 5%nat
                (licenses (snd (register_route ex_validator ex_hash 1000
                                  (JsStr " carol ") (JsStr "secret99")
                                  (JsStr "BBBB1111BBBB1111BBBB1111")
                                  (JsStr "HW-9") ex_db)))
              = Some (License.set_usage true (Some (Client._id client))
                                        ex_license2)).
Proof.
  split.
  - split; [reflexivity|].
    destruct (C3_register_checks_in_order ex_validator ex_hash 1000
                (JsStr "carol") (JsStr "secret99")
                (JsStr "AAAA0000AAAA0000AAAA0000") (JsStr "HW-9") ex_db)
      as (_ & _ & H & _).
    destruct (H LicenseUsed keyUsed eq_refl eq_refl)
      as (_ & u & p & k & h & l & a & Hv & Hl & Ha & Hr).
    injection Hv as <- <- <- <-. injection Hl as <-. injection Ha as <-.
    exact Hr.
  - destruct (C3_register_checks_in_order ex_validator ex_hash 1000
                (JsStr " carol ") (JsStr "secret99")
                (JsStr "BBBB1111BBBB1111BBBB1111") (JsStr "HW-9") ex_db)
      as (_ & _ & _ & _ & Hsucc & Hpass).
    assert (Hok : is_success
                    (fst (register_route ex_validator ex_hash 1000
                            (JsStr " carol ") (JsStr "secret99")
                            (JsStr "BBBB1111BBBB1111BBBB1111") (JsStr "HW-9")
                            ex_db)) = true).
    { apply (Hpass "carol" "secret99" "BBBB1111BBBB1111BBBB1111" "HW-9"
               ex_license2 ex_app); reflexivity. }
    destruct (Hsucc Hok) as (Hnone & u & p & k & h & l & client & Hv & Hl & _
                             & _ & _ & Hc & Hu & _ & _ & _ & Hsave).
    injection Hv as <- <- <- <-.
    split; [exact Hnone|]. split; [exact Hok|].
    exists client. split; [exact Hc|]. split; [exact Hu|].
    injection Hl as <-. apply Hsave.
    repeat constructor; simpl; intuition discriminate.
Defined.

(** ** License creation with a supplied key *)

Lemma truthy_Some (k : string) : k <> "" -> truthy (Some k) = true.
Proof.
  intros H. simpl. apply String.eqb_neq in H. rewrite H. reflexivity.
Qed.

Lemma is_some_findByKey (k : string) (c : list License.t) :
  is_some (findOne (fun l => String.eqb (License.key l) k) c)
  = existsb (fun s => String.eqb s k) (map License.key c).
Proof.
  unfold findOne. induction c as [|x c IH]; simpl; [reflexivity|].
  destruct (String.eqb (License.key x) k); [reflexivity|exact IH].
Qed.

Lemma findByKey_none_fresh (k : string) (db : DB) :
  License_findByKey k db = None -> ~ In k (map License.key (licenses db)).
Proof.
  unfold License_findByKey. intros H Hin.
  assert (E : is_some (findOne (fun l => String.eqb (License.key l) k)
                               (licenses db)) = true).
  { rewrite is_some_findByKey. apply existsb_exists. exists k.
    split; [exact Hin|apply String.eqb_refl]. }
  rewrite H in E. discriminate.
Qed.

Lemma findByKey_some (k : string) (db : DB) (l : License.t) :
  License_findByKey k db = Some l ->
  In l (licenses db) /\ License.key l = k.
Proof.
  unfold License_findByKey, findOne. intros H. apply find_some in H.
  destruct H as [Hin Hk]. apply String.eqb_eq in Hk. auto.
Qed.

Lemma Reseller_save_licenses (r : Reseller.t) (db : DB) :
  licenses (Reseller_save r db) = licenses db.
Proof. reflexivity. Qed.

Lemma License_create_custom (a c : ObjectId) (ty : CreatedByType)
    (res : option ObjectId) (k : string) (e : Date) (n : option string)
    (rnd : list string) (db : DB) :
  k <> "" ->
  License_create a c ty res (Some k) e n rnd db
  = if match n with
       | Some s => (500 <? js_length s)%nat
       | None => false
       end
    then Invalid
    else
      let l := License.mk (nextId db) a k c ty res false None ACTIVE n e in
      Created l rnd
        (with_licenses (insertOne l (licenses db)) (snd (fresh_id db))).
Proof.
  intros Hk. unfold License_create.
  destruct (match n with
            | Some s => (500 <? js_length s)%nat
            | None => false
            end); [reflexivity|].
  unfold fresh_id at 1. cbv beta iota zeta.
  rewrite (truthy_Some k Hk). reflexivity.
Qed.

(** With a non-empty key in the request, [POST /licenses] always answers:
    either it fails and leaves the database as it was, or the app allows
    custom keys, the key was not stored before, and one license carrying
    exactly that key is appended. *)
Lemma create_license_custom_cases (sq : bool) (tok : Token)
    (appId : ObjectId) (k : string) (e : Date) (note : option string)
    (rnd : list string) (db : DB) :
  k <> "" ->
  exists r db',
    create_license sq tok appId (Some k) e note rnd db = Some (r, db')
    /\ ((is_success r = false /\ db' = db)
        \/ (exists a l,
              findById App._id appId (apps db) = Some a
              /\ App.allowCustomLicenseKey (App.settings a) = true
              /\ License_findByKey k db = None
              /\ r = Json 201 true "License created successfully"
                          (DataLicense l)
              /\ License.key l = k
              /\ License.app l = appId
              /\ License.used l = false
              /\ License.usedBy l = None
              /\ License.status l = ACTIVE
              /\ License.expiresAt l = e
              /\ licenses db' = licenses db ++ [l])).
Proof.
  intros Hk. pose proof (truthy_Some k Hk) as Ht.
  unfold create_license. rewrite Ht. simpl andb. cbv iota.
  destruct (authenticateToken tok db) as [r0|u] eqn:Hu.
  { eexists _, _. split; [reflexivity|]. left.
    split; [eapply authenticateToken_failure; eassumption|reflexivity]. }
  destruct (findById App._id appId (apps db)) as [a|] eqn:Ha.
  2:{ eexists _, _. split; [reflexivity|]. left. split; reflexivity. }
  destruct (Nat.eqb (App.owner a) (User._id u)) eqn:Ho.
  - simpl CreatedByType_eqb. simpl andb.
    destruct (negb (App_canCreateLicense a (User._id u) db)).
    { eexists _, _. split; [reflexivity|]. left. split; reflexivity. }
    destruct (App.allowCustomLicenseKey (App.settings a)) eqn:Hallow.
    2:{ eexists _, _. split; [reflexivity|]. left. split; reflexivity. }
    simpl negb. cbv iota.
    destruct (License_findByKey k db) eqn:Hfind.
    { eexists _, _. split; [reflexivity|]. left. split; reflexivity. }
    simpl is_some. cbv iota. rewrite (License_create_custom _ _ _ _ k); auto.
    destruct (match note with
              | Some s => (500 <? js_length s)%nat
              | None => false
              end).
    { eexists _, _. split; [reflexivity|]. left. split; reflexivity. }
    cbv zeta. eexists _, _. split; [reflexivity|]. right.
    eexists a, _. repeat split; try reflexivity; assumption.
  - destruct (Reseller_findForUser sq (User._id u) appId db) as [res|].
    2:{ eexists _, _. split; [reflexivity|]. left. split; reflexivity. }
    destruct (negb (Reseller.hasPermission Reseller.ActCreate res)).
    { eexists _, _. split; [reflexivity|]. left. split; reflexivity. }
    destruct (negb (Reseller.canCreateLicense res)).
    { eexists _, _. split; [reflexivity|]. left. split; reflexivity. }
    simpl CreatedByType_eqb. simpl andb.
    destruct (App.allowCustomLicenseKey (App.settings a)) eqn:Hallow.
    2:{ eexists _, _. split; [reflexivity|]. left. split; reflexivity. }
    simpl negb. cbv iota.
    destruct (License_findByKey k db) eqn:Hfind.
    { eexists _, _. split; [reflexivity|]. left. split; reflexivity. }
    simpl is_some. cbv iota. rewrite (License_create_custom _ _ _ _ k); auto.
    destruct (match note with
              | Some s => (500 <? js_length s)%nat
              | None => false
              end).
    { eexists _, _. split; [reflexivity|]. left. split; reflexivity. }
    cbv zeta. eexists _, _. split; [reflexivity|]. right.
    eexists a, _. repeat split; try reflexivity; assumption.
Qed.

(** An empty key in the request is no key at all for the handler: the
    custom-key checks are skipped and the key is generated. *)
Lemma create_license_empty_key (sq : bool) (tok : Token) (appId : ObjectId)
    (e : Date) (note : option string) (rnd : list string) (db : DB) :
  create_license sq tok appId (Some "") e note rnd db
  = create_license sq tok appId None e note rnd db.
Proof. reflexivity. Qed.

(** The handler of the creation, given a (non-empty) key: it always
    answers; it rejects, with the database unchanged, when the app's
    [allowCustomLicenseKey] is false and when a stored license has the
    key; a license it creates is the only change to the License collection
    and carries the supplied key; and it serves the owner when the app
    allows custom keys, the key is new, the plan's license quota is not
    exhausted and the note passes the schema. *)
Lemma create_license_custom_key
    (sq : bool) (tok : Token) (appId : ObjectId) (k : string) (e : Date)
    (note : option string) (rnd : list string) (db : DB) :
  k <> "" ->
  exists r db',
    create_license sq tok appId (Some k) e note rnd db = Some (r, db')
    /\ (forall a,
          findById App._id appId (apps db) = Some a ->
          App.allowCustomLicenseKey (App.settings a) = false ->
          is_success r = false /\ db' = db)
    /\ (License_findByKey k db <> None -> is_success r = false /\ db' = db)
    /\ (is_success r = false -> db' = db)
    /\ (is_success r = true ->
        exists l,
          r = Json 201 true "License created successfully" (DataLicense l)
          /\ License.key l = k
          /\ License.app l = appId
          /\ License.used l = false
          /\ licenses db' = licenses db ++ [l])
    /\ (forall u a,
          authenticateToken tok db = inr u ->
          findById App._id appId (apps db) = Some a ->
          App.owner a = User._id u ->
          App_canCreateLicense a (User._id u) db = true ->
          App.allowCustomLicenseKey (App.settings a) = true ->
          License_findByKey k db = None ->
          match note with
          | Some s => (js_length s <= 500)%nat
          | None => True
          end ->
          is_success r = true).
Proof.
  intros Hk.
  destruct (create_license_custom_cases sq tok appId k e note rnd db Hk)
    as (r & db' & Heq & Hcases).
  exists r, db'. split; [exact Heq|].
  split; [|split; [|split; [|split]]].
  - intros a Ha Hallow.
    destruct Hcases as [H|(a' & l & Ha' & Hallow' & _)]; [exact H|].
    congruence.
  - intros Hfound.
    destruct Hcases as [H|(a' & l & _ & _ & Hnone & _)]; [exact H|].
    congruence.
  - intros Hfail.
    destruct Hcases as [[_ H]|(a' & l & _ & _ & _ & -> & _)]; [exact H|].
    discriminate.
  - intros Hsucc.
    destruct Hcases as [[H _]|(a' & l & _ & _ & _ & Hr & Hkey & Happ & Hused
                               & _ & _ & _ & Hls)]; [congruence|].
    exists l. auto.
  - intros u a Hu Ha Ho Hquota Hallow Hfind Hnote.
    assert (Hn : match note with
                 | Some s => (500 <? js_length s)%nat
                 | None => false
                 end = false).
    { destruct note as [s|]; [|reflexivity]. apply Nat.ltb_ge. exact Hnote. }
    unfold create_license in Heq.
    rewrite (truthy_Some k Hk), Hu, Ha, Ho, Nat.eqb_refl, Hquota, Hallow,
      Hfind in Heq.
    simpl andb in Heq. simpl is_some in Heq. cbv iota in Heq.
    rewrite (License_create_custom _ _ _ _ k) in Heq; auto.
    rewrite Hn in Heq. cbv zeta in Heq.
    injection Heq as <- <-. reflexivity.
Qed.

(** C7.  A license-creation request that carries a (non-empty) key is
    always answered.  It is rejected, with the database unchanged, when the
    app's [allowCustomLicenseKey] is false and when a stored license
    already has the key; whenever a license is created the body has passed
    the validation chain, the license is the only change to the License
    collection and its key is the supplied value; and the owner's request
    is served when its body passes the chain, the app allows custom keys,
    the key is new, the plan's license quota is not exhausted and the note
    passes the schema. *)
Theorem C7_custom_key_checked_and_kept
    (v : Validator) (sq : bool) (now : Date) (tok : Token)
    (app : option ObjectId) (k : string) (expiresAt : option Date)
    (note : option string) (rnd : list string) (db : DB) :
  k <> "" ->
  exists r db',
    create_license_route v sq now tok app (Some k) expiresAt note rnd db
    = Some (r, db')
    /\ (forall appId a,
          app = Some appId ->
          findById App._id appId (apps db) = Some a ->
          App.allowCustomLicenseKey (App.settings a) = false ->
          is_success r = false /\ db' = db)
    /\ (In k (map License.key (licenses db)) ->
        is_success r = false /\ db' = db)
    /\ (is_success r = false -> db' = db)
    /\ (is_success r = true ->
        exists appId e l,
          validateLicenseCreation v now app (Some k) expiresAt note
          = Some (appId, e)
          /\ r = Json 201 true "License created successfully" (DataLicense l)
          /\ License.key l = k
          /\ License.app l = appId
          /\ License.expiresAt l = e
          /\ License.used l = false
          /\ licenses db' = licenses db ++ [l])
    /\ (forall u appId e a,
          authenticateToken tok db = inr u ->
          validateLicenseCreation v now app (Some k) expiresAt note
          = Some (appId, e) ->
          findById App._id appId (apps db) = Some a ->
          App.owner a = User._id u ->
          App_canCreateLicense a (User._id u) db = true ->
          App.allowCustomLicenseKey (App.settings a) = true ->
          ~ In k (map License.key (licenses db)) ->
          note_ok note ->
          is_success r = true).
Proof.
  intros Hk. unfold create_license_route.
  destruct (authenticateToken tok db) as [r0|u0] eqn:Hauth.
  { exists r0, db. split; [reflexivity|].
    assert (Hf : is_success r0 = false)
      by (apply (authenticateToken_failure tok db); exact Hauth).
    split; [intros; split; [exact Hf|reflexivity]|].
    split; [intros; split; [exact Hf|reflexivity]|].
    split; [reflexivity|]. split; [intros H; congruence|].
    intros; discriminate. }
  destruct (validateLicenseCreation v now app (Some k) expiresAt note)
    as [[appId e]|] eqn:Hv.
  2:{ exists validation_failed, db. split; [reflexivity|].
      split; [intros; split; reflexivity|].
      split; [intros; split; reflexivity|].
      split; [reflexivity|]. split; [discriminate|].
      intros; discriminate. }
  destruct (create_license_custom_key sq tok appId k e note rnd db Hk)
    as (r & db' & Heq & Hoff & Hdup & Hfail & Hmade & Hserved).
  exists r, db'. split; [exact Heq|].
  assert (Happ : app = Some appId).
  { apply validateLicenseCreation_passed in Hv. apply Hv. }
  split; [|split; [|split; [|split]]].
  - intros appId' a Heq' Ha Hallow. rewrite Happ in Heq'.
    injection Heq' as <-. exact (Hoff a Ha Hallow).
  - intros Hin. apply Hdup. intros Hnone.
    exact (findByKey_none_fresh k db Hnone Hin).
  - exact Hfail.
  - intros Hs. destruct (Hmade Hs) as (l & Hr & Hkey & Hla & Hused & Hls).
    exists appId, e, l. split; [reflexivity|]. split; [exact Hr|].
    split; [exact Hkey|]. split; [exact Hla|]. split; [|auto].
    destruct (create_license_custom_cases sq tok appId k e note rnd db Hk)
      as (r2 & db2 & Heq2 & Hc).
    rewrite Heq in Heq2. injection Heq2 as <- <-.
    destruct Hc as [[Hf _]|(a' & l' & _ & _ & _ & Hr' & _ & _ & _ & _ & _
                            & He & _)]; [congruence|].
    rewrite Hr in Hr'. injection Hr' as <-. exact He.
  - intros u appId' e' a Hu Heq' Ha Ho Hq Hallow Hnew Hnote.
    injection Heq' as <- <-. injection Hu as <-.
    apply (Hserved u0 a Hauth Ha Ho Hq Hallow).
    + destruct (License_findByKey k db) as [l|] eqn:Hl; [|reflexivity].
      exfalso. apply Hnew. apply findByKey_some in Hl.
      destruct Hl as [Hin <-]. apply in_map. exact Hin.
    + exact Hnote.
Qed.

Lemma C7_custom_key_witness :
  (exists r db',
     create_license_route ex_validator false 1000 (Verified 0) (Some 1%nat)
       (Some "MY-KEY-0001") (Some 9000) None [] ex_db = Some (r, db')
     /\ is_success r = false /\ db' = ex_db)
  /\ (exists l db',
        create_license_route ex_validator false 1000 (Verified 0)
          (Some 1%nat) (Some "MY-KEY-0001") (Some 9000) None [] c7_db
        = Some (Json 201 true "License created successfully" (DataLicense l),
                db')
        /\ License.key l = "MY-KEY-0001"
        /\ licenses db' = licenses c7_db ++ [l]).
Proof.
  assert (Hk : "MY-KEY-0001" <> "") by discriminate.
  split.
  - destruct (C7_custom_key_checked_and_kept ex_validator false 1000
                (Verified 0) (Some 1%nat) "MY-KEY-0001" (Some 9000) None []
                ex_db Hk)
      as (r & db' & Heq & Hoff & _).
    exists r, db'. split; [exact Heq|].
    apply (Hoff 1%nat ex_app); reflexivity.
  - destruct (C7_custom_key_checked_and_kept ex_validator false 1000
                (Verified 0) (Some 1%nat) "MY-KEY-0001" (Some 9000) None []
                c7_db Hk)
      as (r & db' & Heq & _ & _ & _ & Hcreated & Hserved).
    assert (Hok : is_success r = true).
    { apply (Hserved ex_owner 1%nat 9000 c7_app);
        try reflexivity; try exact I.
      simpl. intros [H|[H|[]]]; discriminate H. }
    destruct (Hcreated Hok) as (appId & e & l & _ & -> & Hkey & _ & _ & _
                                & Hls).
    exists l, db'. auto.
Defined.

(** ** Bulk creation by a reseller *)

(** The key loop returns the first accepted candidate. *)
Lemma generateKey_accepted (rnd : list string) (c : list License.t)
    (k : string) (rest : list string) :
  accepted (map License.key c) rnd = k :: rest ->
  exists rnd',
    License.generateKey rnd c = Some (k, rnd')
    /\ accepted (map License.key c ++ [k]) rnd' = rest.
Proof.
  induction rnd as [|x rnd IH]; simpl; [discriminate|].
  rewrite is_some_findByKey.
  destruct (existsb (fun s => String.eqb s x) (map License.key c)).
  - exact IH.
  - intros H. injection H as <- <-. eexists. split; reflexivity.
Qed.

(** A key the loop returns is not stored. *)
Lemma generateKey_fresh (rnd : list string) (c : list License.t)
    (k : string) (rnd' : list string) :
  License.generateKey rnd c = Some (k, rnd') ->
  ~ In k (map License.key c).
Proof.
  induction rnd as [|x rnd IH]; simpl; [discriminate|].
  rewrite is_some_findByKey.
  destruct (existsb (fun s => String.eqb s x) (map License.key c)) eqn:E.
  - exact IH.
  - intros H. injection H as <- <-. intros Hin.
    assert (existsb (fun s => String.eqb s x) (map License.key c) = true).
    { apply existsb_exists. exists x. split; [exact Hin|].
      apply String.eqb_refl. }
    congruence.
Qed.

Lemma note_ok_valid (note : option string) :
  note_ok note ->
  match note with
  | Some s => (500 <? js_length s)%nat
  | None => false
  end = false.
Proof.
  destruct note as [s|]; simpl; [|reflexivity].
  intros H. apply Nat.ltb_ge. exact H.
Qed.

(** What [License.create] answers when no key is supplied. *)
Lemma License_create_generated (a c : ObjectId) (ty : CreatedByType)
    (res : option ObjectId) (e : Date) (note : option string)
    (rnd : list string) (db : DB) :
  License_create a c ty res None e note rnd db
  = if match note with
       | Some s => (500 <? js_length s)%nat
       | None => false
       end
    then Invalid
    else
      match License.generateKey rnd (licenses db) with
      | Some (k, rnd') =>
          let l := License.mk (nextId db) a k c ty res false None ACTIVE
                              note e in
          Created l rnd'
            (with_licenses (insertOne l (licenses db)) (snd (fresh_id db)))
      | None => Spinning
      end.
Proof.
  unfold License_create.
  destruct (match note with
            | Some s => (500 <? js_length s)%nat
            | None => false
            end); reflexivity.
Qed.

(** A creation loop that runs to its end has appended its [n] licenses,
    all of the reseller, and has touched nothing else the handler reads. *)
Lemma create_loop_success (n : nat) :
  forall (a r : ObjectId) (e : Date) (note : option string)
         (rnd : list string) (db : DB) (acc out : list License.t) (db' : DB),
    create_loop n a r e note rnd db acc = Some (Some out, db') ->
    exists created,
      out = acc ++ created
      /\ licenses db' = licenses db ++ created
      /\ List.length created = n
      /\ Forall (fun l => License.createdByType l = byReseller
                          /\ License.app l = a
                          /\ License.reseller l = Some r
                          /\ License.used l = false
                          /\ License.status l = ACTIVE
                          /\ License.expiresAt l = e) created
      /\ resellers db' = resellers db.
Proof.
  induction n as [|n IH]; intros a r e note rnd db acc out db' H.
  - simpl in H. injection H as <- <-. exists [].
    rewrite !app_nil_r. repeat split; constructor.
  - simpl in H. rewrite License_create_generated in H.
    destruct (match note with
              | Some s => (500 <? js_length s)%nat
              | None => false
              end); [discriminate|].
    destruct (License.generateKey rnd (licenses db)) as [[k rnd']|];
      [|discriminate].
    cbv zeta in H. apply IH in H.
    destruct H as (created & -> & Hls & Hn & Hall & Hres).
    eexists (_ :: created).
    split; [rewrite <- app_assoc; reflexivity|].
    split; [rewrite Hls; simpl; unfold insertOne; rewrite <- app_assoc;
            reflexivity|].
    split; [simpl; congruence|].
    split; [constructor; [simpl; auto 10|exact Hall]|].
    rewrite Hres. reflexivity.
Qed.

(** With a note the schema accepts the loop never stops on a validation
    error. *)
Lemma create_loop_valid_note (n : nat) :
  forall (a r : ObjectId) (e : Date) (note : option string)
         (rnd : list string) (db : DB) (acc : list License.t) (db' : DB),
    match note with
    | Some s => (500 <? js_length s)%nat
    | None => false
    end = false ->
    create_loop n a r e note rnd db acc <> Some (None, db').
Proof.
  induction n as [|n IH]; intros a r e note rnd db acc db' Hnote; simpl.
  - discriminate.
  - rewrite License_create_generated, Hnote.
    destruct (License.generateKey rnd (licenses db)) as [[k rnd']|];
      [|discriminate].
    cbv zeta. apply IH. exact Hnote.
Qed.

(** A creation loop that stops on a validation error has created nothing:
    the note is the same in every iteration. *)
Lemma create_loop_invalid (n : nat) (a r : ObjectId) (e : Date)
    (note : option string) (rnd : list string) (db : DB)
    (acc : list License.t) (db' : DB) :
  create_loop n a r e note rnd db acc = Some (None, db') -> db' = db.
Proof.
  destruct (match note with
            | Some s => (500 <? js_length s)%nat
            | None => false
            end) eqn:Hnote.
  - destruct n as [|n]; simpl; [discriminate|].
    rewrite License_create_generated, Hnote.
    intros H. injection H as <-. reflexivity.
  - intros H. exfalso. eapply create_loop_valid_note; eassumption.
Qed.

(** With enough acceptable candidates in [rnd], the creation loop runs to
    its end. *)
Lemma create_loop_creates (n : nat) :
  forall (a r : ObjectId) (e : Date) (note : option string)
         (rnd : list string) (db : DB) (acc : list License.t),
    note_ok note ->
    (n <= List.length (accepted (map License.key (licenses db)) rnd))%nat ->
    exists out db',
      create_loop n a r e note rnd db acc = Some (Some out, db').
Proof.
  induction n as [|n IH]; intros a r e note rnd db acc Hnote Hlen.
  - eexists _, _. reflexivity.
  - simpl create_loop. rewrite License_create_generated.
    rewrite (note_ok_valid note Hnote).
    destruct (accepted (map License.key (licenses db)) rnd) as [|k rest]
      eqn:Hacc; [simpl in Hlen; lia|].
    destruct (generateKey_accepted rnd (licenses db) k rest Hacc)
      as (rnd' & Hgen & Hrest).
    rewrite Hgen. cbv zeta. apply IH; [exact Hnote|].
    simpl licenses. unfold insertOne. rewrite map_app. simpl map.
    rewrite Hrest. simpl in Hlen. lia.
Qed.

(** Comparisons of numbers as booleans. *)
Lemma Qlt_bool_iff (x y : Q) : Qlt_bool x y = true <-> (x < y)%Q.
Proof.
  unfold Qlt_bool. rewrite negb_true_iff. split.
  - intros H. apply Qnot_le_lt. intros Hle. apply Qle_bool_iff in Hle.
    congruence.
  - intros H. destruct (Qle_bool y x) eqn:E; [|reflexivity].
    apply Qle_bool_iff in E. exfalso. apply (Qlt_not_le _ _ H). exact E.
Qed.

Lemma Qlt_bool_false (x y : Q) : Qlt_bool x y = false <-> (y <= x)%Q.
Proof.
  unfold Qlt_bool. rewrite negb_false_iff. apply Qle_bool_iff.
Qed.

Lemma Qeq_bool_false (x y : Q) : ~ (x == y)%Q -> Qeq_bool x y = false.
Proof.
  intros H. destruct (Qeq_bool x y) eqn:E; [|reflexivity].
  apply Qeq_bool_iff in E. contradiction.
Qed.

(** The bulk creation of an active reseller, for every number [count]
    with [1 <= count <= 100] and [expiresAt] in the future.  If the
    reseller's limit is not -1 and [usedLicenses + count] exceeds it, the
    request is rejected and the database is unchanged.  Otherwise every
    successful answer has appended one license for every natural number
    below [count], each created by type 'reseller', bound to the
    reseller's app and to the reseller, and has raised the reseller's
    stored [usedLicenses] by [count]; an answer that is not successful has
    left the database as it was; and the request is answered successfully
    once the reseller's app is stored, the note passes the schema and the
    random source offers enough new keys.  For a [count] that is an
    integer, the licenses created are [count] many. *)
Lemma reseller_bulk_create_cases (show : Number -> string)
    (now : Date) (tok : Token) (count : Number) (e : Date)
    (note : option string) (rnd : list string) (db : DB) (res : Reseller.t) :
  authenticateResellerToken tok db = inr res ->
  Reseller.active res = true ->
  (1 <= count <= 100)%Q ->
  now < e ->
  let result :=
    reseller_create_licenses show now tok (Some count) (Some e) note rnd db in
  (Reseller.licenseLimit res <> -1
   /\ (inject_Z (Reseller.licenseLimit res)
       < Reseller.usedLicenses res + count)%Q ->
   exists r, result = Some (r, db) /\ is_success r = false)
  /\ (Reseller.licenseLimit res = -1
      \/ (Reseller.usedLicenses res + count
          <= inject_Z (Reseller.licenseLimit res))%Q ->
      (forall r db',
         result = Some (r, db') -> is_success r = true ->
         exists created n,
           r = Json 201 true
                    ("Successfully created " ++ show count ++ " license(s)")
                    (DataLicenses created)
           /\ licenses db' = licenses db ++ created
           /\ Z.of_nat (List.length created) = Qceiling count
           /\ (forall k, (count == inject_Z k)%Q ->
                         Z.of_nat (List.length created) = k)
           /\ Forall (created_by_reseller res e) created
           /\ findById Reseller._id (Reseller._id res) (resellers db')
              = Some (Reseller.set_usedLicenses n res)
           /\ (n == Reseller.usedLicenses res + count)%Q)
      /\ (forall r db',
            result = Some (r, db') -> is_success r = false -> db' = db)
      /\ (findById App._id (Reseller.app res) (apps db) <> None ->
          note_ok note ->
          (Z.to_nat (Qceiling count)
           <= List.length (accepted (map License.key (licenses db)) rnd))%nat
          ->
          exists r db', result = Some (r, db') /\ is_success r = true)).
Proof.
  intros Hauth Hactive Hcount Hfuture result. subst result.
  assert (Hrange : Qeq_bool count 0 || Qlt_bool count 1 || Qlt_bool 100 count
                   = false).
  { rewrite Qeq_bool_false by lra.
    replace (Qlt_bool count 1) with false
      by (symmetry; apply Qlt_bool_false; lra).
    replace (Qlt_bool 100 count) with false
      by (symmetry; apply Qlt_bool_false; lra).
    reflexivity. }
  assert (Hceil : 0 <= Qceiling count).
  { apply Z.le_trans with (Qceiling 1); [vm_compute; discriminate|].
    apply Qceiling_resp_le. lra. }
  split.
  - intros [Hlim Hover]. unfold reseller_create_licenses.
    rewrite Hauth, Hactive. simpl negb. cbv iota. rewrite Hrange.
    destruct (negb (Reseller.canCreateLicense res)).
    + eexists. split; reflexivity.
    + replace (Reseller.licenseLimit res =? -1) with false
        by (symmetry; apply Z.eqb_neq; exact Hlim).
      replace (Qlt_bool (inject_Z (Reseller.licenseLimit res))
                        (Reseller.usedLicenses res + count))
        with true by (symmetry; apply Qlt_bool_iff; exact Hover).
      simpl. eexists. split; reflexivity.
  - intros Hquota.
    assert (Hcan : Reseller.canCreateLicense res = true).
    { unfold Reseller.canCreateLicense. rewrite Hactive. simpl.
      destruct (Reseller.licenseLimit res =? -1) eqn:E; [reflexivity|].
      apply Z.eqb_neq in E. apply Qlt_bool_iff.
      destruct Hquota as [Hq|Hq]; [contradiction|lra]. }
    assert (Hsecond : negb (Reseller.licenseLimit res =? -1)
                      && Qlt_bool (inject_Z (Reseller.licenseLimit res))
                                  (Reseller.usedLicenses res + count) = false).
    { destruct (Reseller.licenseLimit res =? -1) eqn:E; [reflexivity|].
      apply Z.eqb_neq in E. simpl. apply Qlt_bool_false.
      destruct Hquota as [Hq|Hq]; [contradiction|exact Hq]. }
    unfold reseller_create_licenses.
    rewrite Hauth, Hactive. simpl negb. cbv iota.
    rewrite Hrange, Hcan. simpl negb. cbv iota. rewrite Hsecond.
    replace (e <=? now) with false by (symmetry; apply Z.leb_gt; lia).
    destruct (findById App._id (Reseller.app res) (apps db)) as [ap|] eqn:Ha.
    2:{ split; [intros r db' H; injection H as <- <-; discriminate|].
        split; [intros r db' H; injection H as <- <-; reflexivity|].
        congruence. }
    destruct (findById_some _ _ _ _ Ha) as [_ Haid].
    split; [|split].
    + intros r db' H Hsucc.
      destruct (create_loop (Z.to_nat (Qceiling count)) (App._id ap)
                            (Reseller._id res) e note rnd db [])
        as [[[out|] db1]|] eqn:Hloop; [|injection H as <- <-|]; try discriminate.
      apply create_loop_success in Hloop.
      destruct Hloop as (created & Hout & Hls & Hn & Hall & Hres).
      simpl in Hout. subst out. injection H as <- <-.
      exists created,
        (Reseller.usedLicenses res + 1 + (count - 1))%Q.
      split; [reflexivity|].
      split; [simpl licenses; exact Hls|].
      split; [rewrite Hn; lia|].
      split.
      { intros k Hk. rewrite Hn, Z2Nat.id by exact Hceil.
        rewrite (Qceiling_comp _ _ Hk). apply Qceiling_Z. }
      split.
      * eapply Forall_impl; [|exact Hall].
        intros l (H1 & H2 & H3 & H4 & H5 & H6).
        unfold created_by_reseller. rewrite <- Haid. auto 10.
      * split; [|ring].
        unfold Reseller_save. simpl resellers. rewrite Hres.
        change (Reseller.set_usedLicenses
                  (Reseller.usedLicenses res + 1 + (count - 1))%Q res)
          with (Reseller.set_usedLicenses
                  (Reseller.usedLicenses (Reseller.incrementUsedLicenses res)
                   + (count - 1))%Q
                  (Reseller.incrementUsedLicenses res)).
        simpl Reseller._id.
        apply findById_updateById; [reflexivity|].
        rewrite (findById_updateById Reseller._id (Reseller._id res)
                   (Reseller.incrementUsedLicenses res) (resellers db));
          [discriminate|reflexivity|].
        rewrite (authenticateResellerToken_found _ _ _ Hauth). discriminate.
    + intros r db' H Hfail.
      destruct (create_loop (Z.to_nat (Qceiling count)) (App._id ap)
                            (Reseller._id res) e note rnd db [])
        as [[[out|] db1]|] eqn:Hloop; try discriminate.
      * injection H as <- <-. discriminate.
      * injection H as <- <-. eapply create_loop_invalid. exact Hloop.
    + intros _ Hnote Hrnd.
      destruct (create_loop_creates (Z.to_nat (Qceiling count)) (App._id ap)
                  (Reseller._id res) e note rnd db [] Hnote Hrnd)
        as (out & db1 & Hloop).
      rewrite Hloop. eexists _, _. split; reflexivity.
Qed.

(** C10 fails on a count that is no integer, which the route's test
    [!count || count < 1 || count > 100] lets through.  A reseller with a
    quota of 3 and nothing used asks twice for 1.5 licenses.  Either
    request passes the quota test, its loop runs for [i = 0] and [i = 1]
    and creates two licenses, not 1.5, and the counter moves by 1.5, not
    by the number created: after both, the reseller has four stored
    licenses, one more than its quota, and a counter at 3. *)
Theorem C10_fractional_count_overruns_quota :
  Reseller.licenseLimit c10_reseller = 3
  /\ Reseller.usedLicenses c10_reseller = 0%Q
  /\ exists created db1 created' db2,
       reseller_create_licenses ex_show 1000 (Verified 2) (Some (3 # 2)%Q)
         (Some 9000) None
         ["CCCC2222CCCC2222CCCC2222"; "DDDD3333DDDD3333DDDD3333"] c10_db
       = Some (Json 201 true "Successfully created 1.5 license(s)"
                    (DataLicenses created), db1)
       /\ licenses db1 = licenses c10_db ++ created
       /\ List.length created = 2%nat
       /\ option_map Reseller.usedLicenses
            (findById Reseller._id 2%nat (resellers db1)) = Some (3 # 2)%Q
       /\ reseller_create_licenses ex_show 1001 (Verified 2)
            (Some (3 # 2)%Q) (Some 9000) None
            ["EEEE4444EEEE4444EEEE4444"; "FFFF5555FFFF5555FFFF5555"] db1
          = Some (Json 201 true "Successfully created 1.5 license(s)"
                       (DataLicenses created'), db2)
       /\ licenses db2 = created ++ created'
       /\ Forall (created_by_reseller c10_reseller 9000) (licenses db2)
       /\ List.length (licenses db2) = 4%nat
       /\ option_map (fun r => Qred (Reseller.usedLicenses r))
            (findById Reseller._id 2%nat (resellers db2)) = Some 3%Q.
Proof.
  split; [reflexivity|]. split; [reflexivity|].
  eexists _, _, _, _.
  split; [vm_compute; reflexivity|]. split; [reflexivity|].
  split; [reflexivity|]. split; [reflexivity|].
  split; [vm_compute; reflexivity|]. split; [reflexivity|].
  split; [repeat constructor|]. split; reflexivity.
Qed.

(** ** The License invariant on reachable states *)

Lemma NoDup_snoc {A : Type} (l : list A) (x : A) :
  NoDup l -> ~ In x l -> NoDup (l ++ [x]).
Proof.
  induction l as [|y l IH]; simpl; intros Hnd Hx.
  - constructor; [intros []|constructor].
  - inversion Hnd as [|? ? Hy Hnd']; subst. constructor.
    + rewrite in_app_iff. simpl. intros [H|[H|[]]]; [auto|].
      apply Hx. left. symmetry. exact H.
    + apply IH; auto.
Qed.

Lemma store_ok_mono (ls : list License.t) (n n' : ObjectId) :
  store_ok ls n -> (n <= n')%nat -> store_ok ls n'.
Proof.
  intros (H1 & H2 & H3 & H4) Hle. repeat split; auto.
  eapply Forall_impl; [|exact H4]. simpl. intros; lia.
Qed.

Lemma store_ok_save (ls : list License.t) (n i : ObjectId)
    (l l' : License.t) :
  store_ok ls n ->
  findById License._id i ls = Some l ->
  License._id l' = License._id l ->
  License.key l' = License.key l ->
  used_has_usedBy l' ->
  store_ok (updateById License._id i (fun _ => l') ls) n.
Proof.
  intros (H1 & H2 & H3 & H4) Hf Hid Hkey Hused.
  destruct (findById_some _ _ _ _ Hf) as [Hin Hi].
  repeat split.
  - apply updateById_Forall; auto.
  - rewrite (updateById_found_map License._id License.key i l l' ls); auto.
  - rewrite (updateById_found_map License._id License._id i l l' ls); auto.
  - apply updateById_Forall; auto. intros d _ _. rewrite Hid.
    rewrite Forall_forall in H4. apply H4. exact Hin.
Qed.

Lemma store_ok_findByIdAndDelete (ls : list License.t) (n i : ObjectId) :
  store_ok ls n -> store_ok (findByIdAndDelete License._id i ls) n.
Proof.
  intros (H1 & H2 & H3 & H4). repeat split.
  - apply findByIdAndDelete_Forall; auto.
  - apply findByIdAndDelete_NoDup; auto.
  - apply findByIdAndDelete_NoDup; auto.
  - apply findByIdAndDelete_Forall; auto.
Qed.

Lemma store_ok_deleteMany (ls : list License.t) (n : ObjectId)
    (p : License.t -> bool) :
  store_ok ls n -> store_ok (deleteMany p ls) n.
Proof.
  intros (H1 & H2 & H3 & H4). repeat split.
  - apply deleteMany_Forall; auto.
  - apply filter_map_NoDup; auto.
  - apply filter_map_NoDup; auto.
  - apply deleteMany_Forall; auto.
Qed.

Lemma store_ok_insert (ls : list License.t) (n : ObjectId) (l : License.t) :
  store_ok ls n ->
  License._id l = n ->
  ~ In (License.key l) (map License.key ls) ->
  License.used l = false ->
  store_ok (insertOne l ls) (S n).
Proof.
  intros (H1 & H2 & H3 & H4) Hid Hkey Hused. unfold insertOne.
  repeat split.
  - apply Forall_app. split; [exact H1|]. constructor; [|constructor].
    unfold used_has_usedBy. congruence.
  - rewrite map_app. apply NoDup_snoc; auto.
  - rewrite map_app. apply NoDup_snoc; auto. simpl. rewrite Hid.
    intros Hin. apply in_map_iff in Hin. destruct Hin as [x [Hx Hin]].
    rewrite Forall_forall in H4. apply H4 in Hin. lia.
  - apply Forall_app. split.
    + eapply Forall_impl; [|exact H4]. simpl. intros; lia.
    + constructor; [lia|constructor].
Qed.

(** [License.create] keeps the store in order, whatever it answers. *)
Lemma License_create_store_ok (a c : ObjectId) (ty : CreatedByType)
    (res : option ObjectId) (k : option string) (e : Date)
    (n : option string) (rnd : list string) (db : DB) (l : License.t)
    (rnd' : list string) (db' : DB) :
  store_ok (licenses db) (nextId db) ->
  (truthy k = true ->
   forall k', k = Some k' -> License_findByKey k' db = None) ->
  License_create a c ty res k e n rnd db = Created l rnd' db' ->
  store_ok (licenses db') (nextId db')
  /\ resellers db' = resellers db.
Proof.
  intros Hok Hcustom. unfold License_create.
  destruct (match n with
            | Some s => (500 <? js_length s)%nat
            | None => false
            end); [discriminate|].
  unfold fresh_id. cbv beta iota zeta.
  destruct (truthy k) eqn:Ht.
  - destruct k as [k'|]; [|discriminate].
    intros H. injection H as <- <- <-. simpl. split; [|reflexivity].
    apply store_ok_insert; auto.
    apply findByKey_none_fresh. apply Hcustom; reflexivity.
  - simpl licenses.
    destruct (License.generateKey rnd (licenses db)) as [[k' r']|] eqn:Hgen;
      [|discriminate].
    intros H. injection H as <- <- <-. simpl. split; [|reflexivity].
    apply store_ok_insert; auto.
    simpl. eapply generateKey_fresh; eassumption.
Qed.

Lemma create_license_store_ok (sq : bool) (tok : Token) (appId : ObjectId)
    (key : option string) (e : Date) (note : option string)
    (rnd : list string) (db : DB) (r : Response) (db' : DB) :
  store_ok (licenses db) (nextId db) ->
  create_license sq tok appId key e note rnd db = Some (r, db') ->
  store_ok (licenses db') (nextId db').
Proof.
  intros Hok H. unfold create_license in H.
  repeat case_in H; try discriminate;
    try (injection H as <- <-; exact Hok).
  all: injection H as <- <-.
  all: match goal with
       | HC : License_create _ _ _ _ _ _ _ _ _ = Created _ _ _ |- _ =>
           apply License_create_store_ok in HC;
             [destruct HC as [HC _]; simpl; exact HC|exact Hok|]
       end.
  all: intros Ht k' Hk'; destruct (truthy key) eqn:Htk; [|discriminate];
    subst key; simpl andb in *;
    destruct (License_findByKey k' db); [discriminate|reflexivity].
Qed.

Lemma store_ok_License_save (db : DB) (l l' : License.t) :
  store_ok (licenses db) (nextId db) ->
  In l (licenses db) ->
  License._id l' = License._id l ->
  License.key l' = License.key l ->
  used_has_usedBy l' ->
  store_ok (licenses (License_save l' db)) (nextId (License_save l' db)).
Proof.
  intros Hok Hin Hid Hkey Hused. unfold License_save. simpl.
  apply (store_ok_save _ _ _ l); auto.
  destruct Hok as (_ & _ & Hnd & _).
  apply findById_unique; auto.
Qed.

Lemma store_ok_License_save_frame (db : DB) (l l' : License.t) :
  store_ok (licenses db) (nextId db) ->
  In l (licenses db) ->
  License._id l' = License._id l ->
  License.key l' = License.key l ->
  License.used l' = License.used l ->
  License.usedBy l' = License.usedBy l ->
  store_ok (licenses (License_save l' db)) (nextId (License_save l' db)).
Proof.
  intros Hok Hin Hid Hkey Hu Hb.
  apply (store_ok_License_save db l); auto.
  destruct Hok as (Hall & _). rewrite Forall_forall in Hall.
  specialize (Hall l Hin). unfold used_has_usedBy in *.
  intros Hu'. rewrite Hb. apply Hall. congruence.
Qed.

Lemma update_license_store_ok (sq : bool) (tok : Token) (i : ObjectId)
    (st : option Status) (e : option Date) (note : option string) (db : DB)
    (r : Response) (db' : DB) :
  store_ok (licenses db) (nextId db) ->
  update_license sq tok i st e note db = (r, db') ->
  store_ok (licenses db') (nextId db').
Proof.
  intros Hok H. unfold update_license in H.
  repeat case_in H; finish H; try exact Hok.
  all: match goal with
       | F : findById License._id _ _ = Some ?l |- _ =>
           apply (store_ok_License_save_frame db l); auto;
             [apply (findById_some _ _ _ _ F)]
       end.
Qed.

Lemma toggle_ban_store_ok (sq : bool) (tok : Token) (i : ObjectId) (db : DB)
    (r : Response) (db' : DB) :
  store_ok (licenses db) (nextId db) ->
  toggle_ban sq tok i db = (r, db') ->
  store_ok (licenses db') (nextId db').
Proof.
  intros Hok H. apply toggle_ban_cases in H.
  destruct H as [[_ ->]|[_ [stored [Hf ->]]]]; [exact Hok|].
  destruct (toggleBan_frame stored) as (Hu & Hb & Hk & Hid).
  apply (store_ok_License_save_frame db stored); auto.
  apply (findById_some _ _ _ _ Hf).
Qed.

Lemma delete_license_store_ok (tok : Token) (i : ObjectId) (db : DB)
    (r : Response) (db' : DB) :
  store_ok (licenses db) (nextId db) ->
  delete_license tok i db = (r, db') ->
  store_ok (licenses db') (nextId db').
Proof.
  intros Hok H. unfold delete_license in H.
  repeat case_in H; finish H; try exact Hok; simpl;
    apply store_ok_findByIdAndDelete; exact Hok.
Qed.

Lemma fold_inc_licenses (ls : list License.t) (db : DB) :
  licenses (fold_left
              (fun acc l =>
                 match License.reseller l with
                 | Some i => Reseller_inc_usedLicenses i (-1) acc
                 | None => acc
                 end) ls db) = licenses db
  /\ nextId (fold_left
               (fun acc l =>
                  match License.reseller l with
                  | Some i => Reseller_inc_usedLicenses i (-1) acc
                  | None => acc
                  end) ls db) = nextId db.
Proof.
  revert db. induction ls as [|l ls IH]; intros db; simpl; [auto|].
  destruct (IH (match License.reseller l with
                | Some i => Reseller_inc_usedLicenses i (-1) db
                | None => db
                end)) as [H1 H2].
  rewrite H1, H2. destruct (License.reseller l); auto.
Qed.

Lemma delete_licenses_store_ok (tok : Token) (a : option ObjectId) (db : DB)
    (r : Response) (db' : DB) :
  store_ok (licenses db) (nextId db) ->
  delete_licenses tok a db = (r, db') ->
  store_ok (licenses db') (nextId db').
Proof.
  intros Hok H. unfold delete_licenses in H.
  repeat case_in H; finish H; try exact Hok; simpl.
  all: match goal with
       | |- context [fold_left ?f ?ls ?d] =>
           destruct (fold_inc_licenses ls d) as [H1 H2]
       end; rewrite H1, H2; apply store_ok_deleteMany; exact Hok.
Qed.

Lemma delete_app_store_ok (tok : Token) (a : ObjectId) (db : DB)
    (r : Response) (db' : DB) :
  store_ok (licenses db) (nextId db) ->
  delete_app tok a db = (r, db') ->
  store_ok (licenses db') (nextId db').
Proof.
  intros Hok H. unfold delete_app in H.
  repeat case_in H; finish H; try exact Hok; simpl.
  apply store_ok_deleteMany. exact Hok.
Qed.

Lemma delete_client_store_ok (tok : Token) (i : ObjectId) (db : DB)
    (r : Response) (db' : DB) :
  store_ok (licenses db) (nextId db) ->
  delete_client tok i db = (r, db') ->
  store_ok (licenses db') (nextId db').
Proof.
  intros Hok H. unfold delete_client in H.
  repeat case_in H; finish H; try exact Hok.
  match goal with
  | F : License_findByKey _ _ = Some ?l |- _ =>
      apply findByKey_some in F; destruct F as [Hin _];
      apply (store_ok_License_save db l (License.set_usage false None l));
        auto
  end.
  unfold used_has_usedBy. simpl. discriminate.
Qed.

Lemma register_store_ok (hash : string -> string) (now : Date)
    (uname pw lk : string) (h : JsString) (db : DB) (r : Response)
    (db' : DB) :
  store_ok (licenses db) (nextId db) ->
  register hash now uname pw lk h db = (r, db') ->
  store_ok (licenses db') (nextId db').
Proof.
  intros Hok H. unfold register in H.
  repeat case_in H; finish H; try exact Hok.
  match goal with
  | F : License_findByKey _ _ = Some ?l,
    C : Client_create _ _ _ _ _ _ _ _ = Some (?c, ?d) |- _ =>
      apply findByKey_some in F; destruct F as [Hin _];
      unfold Client_create, fresh_id in C; cbv beta iota zeta in C;
      repeat case_in C; try discriminate;
      injection C as <- <-
  end.
  match goal with
  | |- store_ok (licenses (License_save ?l' ?d)) _ =>
      apply (store_ok_License_save d t l'); auto
  end.
  - simpl. apply (store_ok_mono _ (nextId db)); [exact Hok|lia].
  - unfold used_has_usedBy. simpl. discriminate.
Qed.

Lemma create_loop_store_ok (n : nat) :
  forall (a r : ObjectId) (e : Date) (note : option string)
         (rnd : list string) (db : DB) (acc : list License.t)
         (x : option (list License.t)) (db' : DB),
    store_ok (licenses db) (nextId db) ->
    create_loop n a r e note rnd db acc = Some (x, db') ->
    store_ok (licenses db') (nextId db').
Proof.
  induction n as [|n IH]; intros a r e note rnd db acc x db' Hok H.
  - simpl in H. injection H as <- <-. exact Hok.
  - simpl in H.
    destruct (License_create a r byReseller (Some r) None e note rnd db)
      as [l rnd' db1| |] eqn:Hc.
    + apply License_create_store_ok in Hc; [|exact Hok|discriminate].
      destruct Hc as [Hc _]. eapply IH; eassumption.
    + injection H as <- <-. exact Hok.
    + discriminate.
Qed.

Lemma reseller_create_licenses_store_ok (show : Number -> string)
    (now : Date) (tok : Token)
    (count : option Number) (e : option Date) (note : option string)
    (rnd : list string) (db : DB) (r : Response) (db' : DB) :
  store_ok (licenses db) (nextId db) ->
  reseller_create_licenses show now tok count e note rnd db = Some (r, db') ->
  store_ok (licenses db') (nextId db').
Proof.
  intros Hok H. unfold reseller_create_licenses in H.
  repeat case_in H; try discriminate; injection H as <- <-; try exact Hok.
  all: match goal with
       | L : create_loop _ _ _ _ _ _ _ _ = Some _ |- _ =>
           apply create_loop_store_ok in L; [|exact Hok]; simpl; exact L
       end.
Qed.

(** Every step keeps the store in order. *)
Lemma license_step_store_ok (db db' : DB) :
  license_step db db' ->
  store_ok (licenses db) (nextId db) ->
  store_ok (licenses db') (nextId db').
Proof.
  intros Hstep Hok. destruct Hstep.
  - eapply create_license_store_ok; eassumption.
  - eapply update_license_store_ok; eassumption.
  - eapply delete_license_store_ok; eassumption.
  - eapply toggle_ban_store_ok; eassumption.
  - eapply delete_licenses_store_ok; eassumption.
  - eapply reseller_create_licenses_store_ok; eassumption.
  - eapply register_store_ok; eassumption.
  - eapply delete_client_store_ok; eassumption.
  - eapply delete_app_store_ok; eassumption.
  - match goal with
    | E : licenses _ = licenses _ |- _ => rewrite E
    end.
    eapply store_ok_mono; eassumption.
Qed.

Lemma reachable_store_ok (db : DB) :
  reachable db -> store_ok (licenses db) (nextId db).
Proof.
  induction 1 as [|db db' _ IH Hstep].
  - repeat split; constructor.
  - eapply license_step_store_ok; eassumption.
Qed.

Lemma updateById_In {A : Type} (id_of : A -> ObjectId) (i : ObjectId)
    (x d : A) (c : list A) :
  In d (updateById id_of i (fun _ => x) c) -> In d c \/ d = x.
Proof.
  induction c as [|y c IH]; simpl; [auto|].
  destruct (Nat.eqb (id_of y) i); simpl; intuition.
Qed.

(** C2.  In every reachable state each stored license with [used = true]
    has a [usedBy], and no two stored licenses share a key.  The steps that
    write usage do so on both fields at once: after a registration every
    license is as before or is used by a stored client; after a client
    deletion every license is as before or is unused with no [usedBy]; and
    a key returned by the generation loop is not stored yet. *)
Theorem C2_used_has_usedBy_and_keys_unique (db : DB) :
  reachable db ->
  license_invariant db
  /\ (forall hash now uname pw lk h r db',
        register hash now uname pw lk h db = (r, db') ->
        forall l, In l (licenses db') ->
          In l (licenses db)
          \/ (License.used l = true
              /\ exists c, In c (clients db')
                           /\ License.usedBy l = Some (Client._id c)))
  /\ (forall tok i r db',
        delete_client tok i db = (r, db') ->
        forall l, In l (licenses db') ->
          In l (licenses db)
          \/ (License.used l = false /\ License.usedBy l = None))
  /\ (forall rnd k rnd',
        License.generateKey rnd (licenses db) = Some (k, rnd') ->
        ~ In k (map License.key (licenses db))).
Proof.
  intros H. apply reachable_store_ok in H.
  destruct H as (H1 & H2 & _).
  split; [split; assumption|]. split; [|split].
  - intros hash now uname pw lk h r db' Hreg l Hin.
    unfold register in Hreg.
    repeat case_in Hreg; finish Hreg; auto.
    match goal with
    | C : Client_create _ _ _ _ _ _ _ _ = Some (?c, ?d) |- _ =>
        unfold Client_create, fresh_id in C; cbv beta iota zeta in C;
        repeat case_in C; try discriminate; injection C as <- <-
    end.
    unfold License_save in Hin. simpl in Hin.
    apply updateById_In in Hin. destruct Hin as [Hin| ->]; [auto|].
    right. split; [reflexivity|]. eexists. split.
    + unfold insertOne. apply in_or_app. right. left. reflexivity.
    + reflexivity.
  - intros tok i r db' Hdel l Hin.
    unfold delete_client in Hdel.
    repeat case_in Hdel; finish Hdel; auto.
    unfold License_save in Hin. simpl in Hin.
    apply updateById_In in Hin. destruct Hin as [Hin| ->]; auto.
  - intros rnd k rnd'. apply generateKey_fresh.
Qed.

Lemma C2_reachable_witness :
  reachable (snd c2_registered)
  /\ license_invariant (snd c2_registered)
  /\ map (fun l => (License.key l, License.used l, License.usedBy l))
         (licenses (snd c2_registered))
     = [("FFFF5555FFFF5555FFFF5555", true, Some 7%nat)].
Proof.
  assert (Hreach : reachable (snd c2_registered)).
  { apply (reachable_step (snd c2_created)).
    - apply (reachable_step c2_base).
      + apply (reachable_step empty_db); [apply reachable_init|].
        apply step_other; [reflexivity|simpl; lia].
      + apply (step_create_license false (Verified 0) 1%nat None 9000 None
                 ["FFFF5555FFFF5555FFFF5555"] c2_base (fst c2_created)).
        reflexivity.
    - apply (step_register ex_hash 1000 "carol" "secret99"
               "FFFF5555FFFF5555FFFF5555" (JsStr "HW-9") (snd c2_created)
               (fst c2_registered)).
      apply surjective_pairing. }
  split; [exact Hreach|]. split.
  - apply (C2_used_has_usedBy_and_keys_unique _ Hreach).
  - reflexivity.
Defined.

(** * Further properties *)

(** ** Collections, continued *)

(** A query that found a document finds, after a save under that
    document's id of a document that matches too, the saved one. *)
Lemma findOne_updateById {A : Type} (id_of : A -> ObjectId) (p : A -> bool)
    (i : ObjectId) (d x : A) (c : list A) :
  findOne p c = Some d -> id_of d = i -> p x = true ->
  findOne p (updateById id_of i (fun _ => x) c) = Some x.
Proof.
  unfold findOne. induction c as [|y c IH]; simpl; intros Hf Hid Hx.
  - discriminate.
  - destruct (Nat.eqb (id_of y) i) eqn:E; simpl.
    + rewrite Hx. reflexivity.
    + destruct (p y) eqn:Hy.
      * injection Hf as ->. rewrite Hid, Nat.eqb_refl in E. discriminate.
      * apply IH; auto.
Qed.

(** Saving back the document that was found under an id undoes a save. *)
Lemma updateById_restore {A : Type} (id_of : A -> ObjectId) (i : ObjectId)
    (d x : A) (c : list A) :
  findById id_of i c = Some d -> id_of x = i ->
  updateById id_of i (fun _ => d) (updateById id_of i (fun _ => x) c) = c.
Proof.
  unfold findById. induction c as [|y c IH]; simpl; intros Hf Hx.
  - reflexivity.
  - destruct (Nat.eqb (id_of y) i) eqn:E; simpl.
    + injection Hf as ->. rewrite Hx, Nat.eqb_refl. reflexivity.
    + rewrite E. rewrite IH; auto.
Qed.

(** ** The reseller's quota arithmetic *)



(** X2.  A reseller may create a license exactly when it is active and its
    [remainingLicenses] is not 0 (the value is -1 for an unlimited
    reseller); [remainingLicenses] is never below -1, and below 0 only for
    the unlimited reseller. *)
Theorem X2_canCreateLicense_is_remaining (r : Reseller.t) :
  Reseller.canCreateLicense r
  = Reseller.active r && negb (Qeq_bool (Reseller.remainingLicenses r) 0)
  /\ (-1 <= Reseller.remainingLicenses r)%Q
  /\ ((Reseller.remainingLicenses r < 0)%Q <-> Reseller.licenseLimit r = -1).
Proof.
  unfold Reseller.canCreateLicense, Reseller.remainingLicenses.
  destruct (Reseller.licenseLimit r =? -1) eqn:E.
  - apply Z.eqb_eq in E. split; [destruct (Reseller.active r); reflexivity|].
    split; [lra|]. split; intros; [exact E|lra].
  - apply Z.eqb_neq in E.
    destruct (Q.max_spec 0 (inject_Z (Reseller.licenseLimit r)
                            - Reseller.usedLicenses r))
      as [[H1 H2]|[H1 H2]].
    + split.
      * destruct (Reseller.active r); simpl; [|reflexivity].
        rewrite Qeq_bool_false by lra. apply Qlt_bool_iff. lra.
      * split; [lra|]. split; intros H; [lra|contradiction].
    + split.
      * destruct (Reseller.active r); simpl; [|reflexivity].
        rewrite (Qeq_eq_bool _ _ H2). apply Qlt_bool_false. lra.
      * split; [lra|]. split; intros H; [lra|contradiction].
Qed.

(** X3.  The key loop leaves exactly when some candidate of the random
    source is not a stored key; the key it returns is then the first such
    candidate, every candidate drawn before it is a stored key, and the
    rest of the source is handed on untouched. *)
Theorem X3_generateKey_first_new_candidate (rnd : list string)
    (c : list License.t) :
  (License.generateKey rnd c = None
   <-> Forall (fun k => In k (map License.key c)) rnd)
  /\ (forall k rnd',
        License.generateKey rnd c = Some (k, rnd') ->
        exists skipped,
          rnd = skipped ++ k :: rnd'
          /\ Forall (fun s => In s (map License.key c)) skipped
          /\ ~ In k (map License.key c)).
Proof.
  induction rnd as [|x rnd [IH1 IH2]]; simpl.
  - split; [split; [constructor|reflexivity]|discriminate].
  - rewrite is_some_findByKey.
    destruct (existsb (fun s => String.eqb s x) (map License.key c)) eqn:E.
    + assert (Hin : In x (map License.key c)).
      { apply existsb_exists in E. destruct E as [y [Hy Heq]].
        apply String.eqb_eq in Heq. subst y. exact Hy. }
      split.
      * rewrite IH1. split; [intros H; constructor; assumption|].
        intros H. inversion H; assumption.
      * intros k rnd' H. destruct (IH2 k rnd' H) as (sk & -> & Hsk & Hk).
        exists (x :: sk). split; [reflexivity|]. split; [|exact Hk].
        constructor; assumption.
    + assert (Hnot : ~ In x (map License.key c)).
      { intros Hin.
        assert (existsb (fun s => String.eqb s x) (map License.key c) = true).
        { apply existsb_exists. exists x. split; [exact Hin|].
          apply String.eqb_refl. }
        congruence. }
      split.
      * split; [discriminate|]. intros H. inversion H; subst. contradiction.
      * intros k rnd' H. injection H as <- <-. exists [].
        split; [reflexivity|]. split; [constructor|exact Hnot].
Qed.

(** ** Webhook events *)

Lemma Payment_update_found (p p' : Payment.t) (db : DB) (pid : string) :
  Payment_findByPaymentId pid db = Some p ->
  Payment._id p' = Payment._id p ->
  Payment.razorpayPaymentId p' = pid ->
  Payment_findByPaymentId pid (Payment_update p' db) = Some p'.
Proof.
  unfold Payment_findByPaymentId, Payment_update. simpl. intros Hf Hid Hpid.
  apply (findOne_updateById Payment._id _ _ p); auto.
  rewrite Hpid. apply String.eqb_refl.
Qed.

Lemma Payment_findByPaymentId_some (pid : string) (db : DB) (p : Payment.t) :
  Payment_findByPaymentId pid db = Some p ->
  In p (payments db) /\ Payment.razorpayPaymentId p = pid.
Proof.
  unfold Payment_findByPaymentId, findOne. intros H. apply find_some in H.
  destruct H as [Hin Heq]. apply String.eqb_eq in Heq. auto.
Qed.

(** X4.  Handling a captured-payment event is idempotent: a second
    delivery of the same event changes nothing, captured or not before the
    first. *)
Theorem X4_handlePaymentCaptured_idempotent (e : option Entity) (db : DB) :
  handlePaymentCaptured e (handlePaymentCaptured e db)
  = handlePaymentCaptured e db.
Proof.
  destruct e as [e|]; [|reflexivity]. simpl.
  destruct (Payment_findByPaymentId (entity_id e) db) as [p|] eqn:Hf.
  - destruct (PayStatus_eqb (Payment.status p) pay_captured) eqn:Hs; simpl.
    + rewrite Hf, Hs. reflexivity.
    + destruct (Payment_findByPaymentId_some _ _ _ Hf) as [_ Hpid].
      rewrite (Payment_update_found p _ db (entity_id e) Hf);
        [reflexivity|reflexivity|exact Hpid].
  - rewrite Hf. reflexivity.
Qed.

Lemma Payment_update_frame (p : Payment.t) (db : DB) :
  users (Payment_update p db) = users db
  /\ apps (Payment_update p db) = apps db
  /\ licenses (Payment_update p db) = licenses db
  /\ resellers (Payment_update p db) = resellers db
  /\ clients (Payment_update p db) = clients db
  /\ List.length (payments (Payment_update p db))
     = List.length (payments db).
Proof.
  unfold Payment_update. simpl. repeat split. apply updateById_length.
Qed.

Lemma handler_frame (h : option Entity -> DB -> DB) (e : option Entity)
    (db : DB) :
  (forall db0, h None db0 = db0) ->
  (forall e0 db0, h (Some e0) db0 = db0
                  \/ exists p, h (Some e0) db0 = Payment_update p db0) ->
  users (h e db) = users db
  /\ apps (h e db) = apps db
  /\ licenses (h e db) = licenses db
  /\ resellers (h e db) = resellers db
  /\ clients (h e db) = clients db
  /\ List.length (payments (h e db)) = List.length (payments db).
Proof.
  intros Hnone Hsome. destruct e as [e|].
  - destruct (Hsome e db) as [->|[p ->]]; [repeat split|].
    apply Payment_update_frame.
  - rewrite Hnone. repeat split.
Qed.

(** X5.  Whatever it is sent, the webhook never writes to the users, apps,
    licenses, resellers or clients, and neither adds nor removes a payment
    record: in particular a captured-payment event does not upgrade
    anybody's plan. *)
Theorem X5_webhook_writes_payments_only
    (hmac : string -> string -> string) (signature secret : option string)
    (body : WebhookBody) (db : DB) :
  users (snd (webhook hmac signature secret body db)) = users db
  /\ apps (snd (webhook hmac signature secret body db)) = apps db
  /\ licenses (snd (webhook hmac signature secret body db)) = licenses db
  /\ resellers (snd (webhook hmac signature secret body db)) = resellers db
  /\ clients (snd (webhook hmac signature secret body db)) = clients db
  /\ List.length (payments (snd (webhook hmac signature secret body db)))
     = List.length (payments db).
Proof.
  unfold webhook.
  repeat match goal with
         | |- context [match ?x with _ => _ end] => destruct x eqn:?
         end; simpl snd; try (repeat split; fail).
  - apply handler_frame; [reflexivity|]. intros e0 db0. simpl.
    repeat match goal with
           | |- context [match ?x with _ => _ end] => destruct x
           end; eauto.
  - apply handler_frame; [reflexivity|]. intros e0 db0. simpl.
    repeat match goal with
           | |- context [match ?x with _ => _ end] => destruct x
           end; eauto.
  - apply handler_frame; [reflexivity|]. intros e0 db0. simpl.
    repeat match goal with
           | |- context [match ?x with _ => _ end] => destruct x
           end; eauto.
Qed.

Lemma webhook_signed (hmac : string -> string -> string) (s : string)
    (body : WebhookBody) (db : DB) :
  s <> "" ->
  webhook hmac (Some (hmac s (wb_stringified body))) (Some s) body db
  = if String.eqb (wb_event body) "payment.captured" then
      match wb_payment body with
      | None => (ErrorJson 500 "Webhook processing failed", db)
      | Some e => (Received 200, handlePaymentCaptured e db)
      end
    else if String.eqb (wb_event body) "payment.failed" then
      match wb_payment body with
      | None => (ErrorJson 500 "Webhook processing failed", db)
      | Some e => (Received 200, handlePaymentFailed e db)
      end
    else if String.eqb (wb_event body) "refund.processed" then
      match wb_refund body with
      | None => (ErrorJson 500 "Webhook processing failed", db)
      | Some e => (Received 200, handleRefundProcessed e db)
      end
    else (Received 200, db).
Proof.
  intros Hs. unfold webhook. simpl truthy.
  apply String.eqb_neq in Hs. rewrite Hs. simpl negb. cbv iota.
  rewrite String.eqb_refl. reflexivity.
Qed.

(** X6.  A correctly signed [payment.failed] event for a stored payment
    marks that payment failed whatever its status was, a captured payment
    included: unlike the captured handler, the failed handler has no guard
    on the current status. *)
Theorem X6_failed_event_overrides_any_status
    (hmac : string -> string -> string) (s : string) (body : WebhookBody)
    (e : Entity) (p : Payment.t) (db : DB) :
  s <> "" ->
  wb_event body = "payment.failed" ->
  wb_payment body = Some (Some e) ->
  Payment_findByPaymentId (entity_id e) db = Some p ->
  let result :=
    webhook hmac (Some (hmac s (wb_stringified body))) (Some s) body db in
  fst result = Received 200
  /\ exists p',
       Payment_findByPaymentId (entity_id e) (snd result) = Some p'
       /\ Payment.status p' = pay_failed
       /\ Payment._id p' = Payment._id p
       /\ Payment.user p' = Payment.user p
       /\ Payment.amount p' = Payment.amount p.
Proof.
  intros Hs Hev Hpay Hf result. subst result.
  rewrite (webhook_signed hmac s body db Hs), Hev, Hpay. simpl.
  split; [reflexivity|]. rewrite Hf.
  destruct (Payment_findByPaymentId_some _ _ _ Hf) as [_ Hpid].
  eexists. split.
  - apply (Payment_update_found p); [exact Hf|reflexivity|exact Hpid].
  - repeat split.
Qed.

Lemma X6_failed_event_witness :
  Payment.status c8_payment = pay_captured
  /\ option_map Payment.status
       (Payment_findByPaymentId "pay_1"
          (snd (webhook c1_hmac
                  (Some (c1_hmac "whsec" (wb_stringified x_failed_body)))
                  (Some "whsec") x_failed_body c8_db)))
     = Some pay_failed.
Proof.
  split; [reflexivity|].
  destruct (X6_failed_event_overrides_any_status c1_hmac "whsec"
              x_failed_body
              (mkEntity "pay_1" "" 49900 [("error_code", "BAD_REQUEST_ERROR")])
              c8_payment c8_db) as (_ & p' & Hf & Hst & _);
    [discriminate|reflexivity|reflexivity|reflexivity|].
  change (entity_id
            (mkEntity "pay_1" "" 49900 [("error_code", "BAD_REQUEST_ERROR")]))
    with "pay_1" in Hf.
  rewrite Hf. simpl. rewrite Hst. reflexivity.
Defined.

(** ** Refunds *)

Lemma authenticateToken_users (tok : Token) (db db' : DB) :
  users db' = users db -> authenticateToken tok db' = authenticateToken tok db.
Proof. intros H. destruct tok; simpl; try reflexivity. rewrite H. reflexivity. Qed.




(** ** Payment verification *)

Lemma Payment_save_some (p : Payment.t) (db db' : DB) :
  Payment_save p db = Some db' ->
  db' = with_payments (insertOne p (payments db)) db
  /\ ~ In (Payment.razorpayPaymentId p)
          (map Payment.razorpayPaymentId (payments db)).
Proof.
  unfold Payment_save.
  destruct (findOne _ (payments db)) eqn:F; simpl; [discriminate|].
  intros H. injection H as <-. split; [reflexivity|].
  intros Hin. apply in_map_iff in Hin. destruct Hin as [q [Hq Hin]].
  unfold findOne in F. apply (find_none _ _ F) in Hin.
  rewrite Hq, String.eqb_refl in Hin. discriminate.
Qed.

Lemma truthy_true (o : option string) :
  truthy o = true -> exists s, o = Some s /\ s <> "".
Proof.
  destruct o as [s|]; simpl; [|discriminate].
  intros H. exists s. split; [reflexivity|].
  apply negb_true_iff in H. apply String.eqb_neq. exact H.
Qed.

(** What each answer of payment verification means. *)
Lemma razorpay_verify_cases
    (hmac : string -> string -> string) (dev : bool)
    (keySecret : option string) (gw : Gateway) (tok : Token)
    (order_id payment_id signature : option string) (db : DB)
    (r : Response) (db' : DB) :
  razorpay_verify hmac dev keySecret gw tok order_id payment_id signature db
  = (r, db') ->
  (is_success r = false ->
   users db' = users db /\ payments db' = payments db)
  /\ (is_success r = true ->
      exists u o p s gp rec_,
        authenticateToken tok db = inr u
        /\ order_id = Some o /\ payment_id = Some p
        /\ dev = false /\ String.prefix "order_mock_" o = false
        /\ keySecret = Some s
        /\ signature = Some (hmac s (o ++ "|" ++ p)%string)
        /\ payments_fetch gw p = Some gp
        /\ gp_status gp = "captured"
        /\ option_map go_userId (orders_fetch gw o)
           = Some (Some (User._id u))
        /\ users db'
           = updateById User._id (User._id u) upgrade_update (users db)
        /\ payments db' = payments db ++ [rec_]
        /\ Payment.user rec_ = User._id u
        /\ Payment.razorpayPaymentId rec_ = gp_id gp
        /\ Payment.status rec_ = pay_captured
        /\ Payment.isVerified rec_ = true
        /\ ~ In (gp_id gp)
                (map Payment.razorpayPaymentId (payments db))).
Proof.
  intros H. unfold razorpay_verify in H.
  destruct (authenticateToken tok db) as [r0|u] eqn:Hu.
  { finish H. split; [intros _; split; reflexivity|].
    intros Hs. apply authenticateToken_failure in Hu. congruence. }
  destruct order_id as [o|], payment_id as [p|], signature as [sg|];
    try (finish H; split; [intros _; split; reflexivity|discriminate]).
  destruct (negb (truthy (Some o) && truthy (Some p) && truthy (Some sg)));
    [finish H; split; [intros _; split; reflexivity|discriminate]|].
  destruct (dev || String.prefix "order_mock_" o) eqn:Hmock;
    [finish H; split; [intros _; split; reflexivity|discriminate]|].
  apply orb_false_iff in Hmock. destruct Hmock as [Hdev Hprefix].
  destruct keySecret as [s|];
    [|finish H; split; [intros _; split; reflexivity|discriminate]].
  destruct (String.eqb (hmac s (o ++ "|" ++ p)%string) sg) eqn:Hsig;
    [|finish H; split; [intros _; split; reflexivity|discriminate]].
  apply String.eqb_eq in Hsig. simpl negb in H. cbv iota in H.
  destruct (payments_fetch gw p) as [gp|] eqn:Hgp;
    [|finish H; split; [intros _; split; reflexivity|discriminate]].
  destruct (String.eqb (gp_status gp) "captured") eqn:Hcap;
    [|finish H; split; [intros _; split; reflexivity|discriminate]].
  apply String.eqb_eq in Hcap. simpl negb in H. cbv iota in H.
  destruct (orders_fetch gw o) as [ord|] eqn:Hord;
    [|finish H; split; [intros _; split; reflexivity|discriminate]].
  destruct (go_userId ord) as [i|] eqn:Hgo;
    [|finish H; split; [intros _; split; reflexivity|discriminate]].
  destruct (Nat.eqb i (User._id u)) eqn:Hi;
    [|finish H; split; [intros _; split; reflexivity|discriminate]].
  apply Nat.eqb_eq in Hi. subst i. simpl negb in H. cbv iota in H.
  unfold fresh_id in H. cbv beta iota zeta in H.
  rewrite Hcap in H.
  change (parse_status "captured") with (Some pay_captured) in H.
  cbv iota in H.
  destruct (gp_method gp) as [meth|];
    [|finish H; split; [intros _; split; reflexivity|discriminate]].
  destruct (parse_planType (or_default (go_planType ord) "premium"))
    as [pt|];
    [|finish H; split; [intros _; split; reflexivity|discriminate]].
  destruct (parse_planDuration (or_default (go_planDuration ord) "monthly"))
    as [pd|];
    [|finish H; split; [intros _; split; reflexivity|discriminate]].
  match type of H with
  | context [Payment_save ?rc ?d] =>
      destruct (Payment_save rc d) as [db2|] eqn:Hsave;
        [apply Payment_save_some in Hsave; destruct Hsave as [-> Hnew]
        |finish H; split; [intros _; split; reflexivity|discriminate]]
  end.
  unfold User_findByIdAndUpdate in H. cbv zeta in H. simpl users in H.
  rewrite (findById_updateById_found User._id (User._id u) upgrade_update u)
    in H; [|apply authenticateToken_found in Hu; exact Hu|reflexivity].
  finish H. split; [discriminate|]. intros _.
  eexists u, o, p, s, gp, _.
  repeat (split; [first [reflexivity|eassumption|congruence
                        |rewrite Hord; simpl; rewrite Hgo; reflexivity]|]).
  exact Hnew.
Qed.

(** X8.  Payment verification upgrades only on evidence.  A successful
    answer means: the caller is authenticated, the process is not in
    development mode and the order is no mock order, the signature is the
    HMAC of "order_id|payment_id" under the key secret, the gateway reports
    the payment captured and the order belongs to the caller.  It then has
    stored the caller as premium and paid, and has appended one verified
    payment record of the caller whose gateway id was not recorded before.
    Every other answer leaves users and payments as they were. *)
Theorem X8_verify_upgrades_only_on_evidence
    (hmac : string -> string -> string) (dev : bool)
    (keySecret : option string) (gw : Gateway) (tok : Token)
    (order_id payment_id signature : option string) (db : DB)
    (r : Response) (db' : DB) :
  razorpay_verify hmac dev keySecret gw tok order_id payment_id signature db
  = (r, db') ->
  (is_success r = false ->
   users db' = users db /\ payments db' = payments db)
  /\ (is_success r = true ->
      exists u o p s gp rec_,
        authenticateToken tok db = inr u
        /\ order_id = Some o /\ payment_id = Some p
        /\ dev = false /\ String.prefix "order_mock_" o = false
        /\ keySecret = Some s
        /\ signature = Some (hmac s (o ++ "|" ++ p)%string)
        /\ payments_fetch gw p = Some gp
        /\ gp_status gp = "captured"
        /\ option_map go_userId (orders_fetch gw o)
           = Some (Some (User._id u))
        /\ users db'
           = updateById User._id (User._id u) upgrade_update (users db)
        /\ payments db' = payments db ++ [rec_]
        /\ Payment.user rec_ = User._id u
        /\ Payment.razorpayPaymentId rec_ = gp_id gp
        /\ Payment.status rec_ = pay_captured
        /\ Payment.isVerified rec_ = true
        /\ ~ In (gp_id gp)
                (map Payment.razorpayPaymentId (payments db))).
Proof. apply razorpay_verify_cases. Qed.


Lemma X8_verify_witness :
  razorpay_verify c1_hmac false (Some "secret") c1_gateway (Verified 0)
    (Some "order_1") (Some "pay_1") (Some "secret:order_1|pay_1")
    c1_registered
  = (fst (razorpay_verify c1_hmac false (Some "secret") c1_gateway
            (Verified 0) (Some "order_1") (Some "pay_1")
            (Some "secret:order_1|pay_1") c1_registered), c1_upgraded)
  /\ map Payment.razorpayPaymentId (payments c1_upgraded) = ["pay_1"]
  /\ map User.plan (users c1_upgraded) = [premium].
Proof.
  split; [apply surjective_pairing|].
  destruct (X8_verify_upgrades_only_on_evidence c1_hmac false (Some "secret")
              c1_gateway (Verified 0) (Some "order_1") (Some "pay_1")
              (Some "secret:order_1|pay_1") c1_registered _ _
              (surjective_pairing _)) as [_ H].
  destruct (H eq_refl)
    as (u & o & p & s & gp & rc & Hu & _ & _ & _ & _ & _ & _ & _ & _ & _
        & Hus & Hps & _).
  injection Hu as <-.
  change (snd (razorpay_verify c1_hmac false (Some "secret") c1_gateway
                 (Verified 0) (Some "order_1") (Some "pay_1")
                 (Some "secret:order_1|pay_1") c1_registered))
    with c1_upgraded in *.
  split; [reflexivity|]. rewrite Hus. reflexivity.
Defined.

(** X9.  A verified payment cannot be replayed: once a verification has
    succeeded, the same request is refused and records nothing, because the
    payment's gateway id is already stored. *)
Theorem X9_verify_not_replayable
    (hmac : string -> string -> string) (dev : bool)
    (keySecret : option string) (gw : Gateway) (tok : Token)
    (order_id payment_id signature : option string) (db : DB)
    (r : Response) (db' : DB) :
  razorpay_verify hmac dev keySecret gw tok order_id payment_id signature db
  = (r, db') ->
  is_success r = true ->
  let again :=
    razorpay_verify hmac dev keySecret gw tok order_id payment_id signature
                    db' in
  is_success (fst again) = false
  /\ users (snd again) = users db'
  /\ payments (snd again) = payments db'.
Proof.
  intros H Hok again. subst again.
  destruct (razorpay_verify_cases _ _ _ _ _ _ _ _ _ _ _ H) as [_ H1].
  destruct (H1 Hok)
    as (u & o & p & s & gp & rc & _ & Ho & Hp & _ & _ & _ & _ & Hgp & _ & _
        & _ & Hps & _ & Hid & _).
  destruct (razorpay_verify hmac dev keySecret gw tok order_id payment_id
                            signature db') as [r2 db2] eqn:H2.
  destruct (razorpay_verify_cases _ _ _ _ _ _ _ _ _ _ _ H2) as [Hfail Hsucc].
  simpl fst. simpl snd.
  destruct (is_success r2) eqn:E; [exfalso|split; [reflexivity|auto]].
  destruct (Hsucc eq_refl)
    as (u2 & o2 & p2 & s2 & gp2 & rc2 & _ & Ho2 & Hp2 & _ & _ & _ & _ & Hgp2
        & _ & _ & _ & _ & _ & _ & _ & _ & Hnew).
  rewrite Hp in Hp2. injection Hp2 as <-. rewrite Hgp in Hgp2.
  injection Hgp2 as <-. apply Hnew. rewrite Hps, map_app, in_app_iff.
  right. simpl. left. exact Hid.
Qed.

Lemma X9_verify_replay_witness :
  is_success
    (fst (razorpay_verify c1_hmac false (Some "secret") c1_gateway
            (Verified 0) (Some "order_1") (Some "pay_1")
            (Some "secret:order_1|pay_1") c1_upgraded)) = false
  /\ List.length
       (payments
          (snd (razorpay_verify c1_hmac false (Some "secret") c1_gateway
                  (Verified 0) (Some "order_1") (Some "pay_1")
                  (Some "secret:order_1|pay_1") c1_upgraded))) = 1%nat.
Proof.
  destruct (X9_verify_not_replayable c1_hmac false (Some "secret") c1_gateway
              (Verified 0) (Some "order_1") (Some "pay_1")
              (Some "secret:order_1|pay_1") c1_registered _ c1_upgraded
              (surjective_pairing _) eq_refl) as (H1 & _ & H3).
  split; [exact H1|]. rewrite H3. reflexivity.
Defined.

(** X10.  In development mode, and for every order whose id starts with
    "order_mock_", verification never succeeds and changes nothing: the
    mock branch reads [order] before its declaration and ends in the
    handler's [catch]. *)
Theorem X10_mock_verification_never_succeeds
    (hmac : string -> string -> string) (dev : bool)
    (keySecret : option string) (gw : Gateway) (tok : Token)
    (order_id payment_id signature : option string) (db : DB) :
  dev = true
  \/ (exists o, order_id = Some o /\ String.prefix "order_mock_" o = true) ->
  is_success
    (fst (razorpay_verify hmac dev keySecret gw tok order_id payment_id
                          signature db)) = false
  /\ snd (razorpay_verify hmac dev keySecret gw tok order_id payment_id
                          signature db) = db.
Proof.
  intros Hmock. unfold razorpay_verify.
  destruct (authenticateToken tok db) as [r0|u] eqn:Hu.
  { split; [apply authenticateToken_failure in Hu; exact Hu|reflexivity]. }
  destruct order_id as [o|], payment_id as [p|], signature as [sg|];
    try (split; reflexivity).
  destruct (negb (truthy (Some o) && truthy (Some p) && truthy (Some sg)));
    [split; reflexivity|].
  assert (E : dev || String.prefix "order_mock_" o = true).
  { destruct Hmock as [->|(o' & Ho & Hpre)]; [reflexivity|].
    injection Ho as <-. rewrite Hpre. apply orb_true_r. }
  rewrite E. split; reflexivity.
Qed.

Lemma X10_mock_verification_witness :
  is_success
    (fst (razorpay_verify c1_hmac true (Some "secret") c1_gateway (Verified 0)
            (Some "order_mock_17") (Some "pay_mock_17") (Some "mock")
            c1_registered)) = false
  /\ snd (razorpay_verify c1_hmac true (Some "secret") c1_gateway (Verified 0)
            (Some "order_mock_17") (Some "pay_mock_17") (Some "mock")
            c1_registered) = c1_registered.
Proof.
  apply X10_mock_verification_never_succeeds. left. reflexivity.
Defined.

(** ** Subscription cancellation *)

(** X11.  Cancelling a subscription is a one-off: every answer leaves all
    collections but the users as they were and every other user's document
    untouched, and after a successful cancellation the same request is
    refused with 'You are already on the free plan' and changes nothing. *)
Theorem X11_cancel_subscription_once (tok : Token) (db : DB) (r : Response)
    (db' : DB) :
  cancel_subscription tok db = (r, db') ->
  apps db' = apps db /\ licenses db' = licenses db
  /\ resellers db' = resellers db /\ clients db' = clients db
  /\ payments db' = payments db
  /\ (forall uid j, tok = Verified uid -> j <> uid ->
        findById User._id j (users db') = findById User._id j (users db))
  /\ (is_success r = false -> db' = db)
  /\ (is_success r = true ->
      cancel_subscription tok db'
      = (Json 400 false "You are already on the free plan" NoData, db')).
Proof.
  intros H. unfold cancel_subscription in H.
  destruct (authenticateToken tok db) as [r0|u] eqn:Hu.
  { finish H. repeat split; auto.
    apply authenticateToken_failure in Hu. congruence. }
  destruct (Plan_eqb (User.plan u) free); [finish H; repeat split; auto;
                                           discriminate|].
  destruct (2 <? Z.of_nat (List.length (populate_apps db (User.apps u))));
    [finish H; repeat split; auto; discriminate|].
  pose proof (authenticateToken_found _ _ _ Hu) as Hfound.
  unfold User_findByIdAndUpdate in H. cbv zeta in H. simpl users in H.
  rewrite (findById_updateById_found User._id (User._id u) downgrade_update u)
    in H; [|exact Hfound|reflexivity].
  finish H. simpl.
  split; [reflexivity|]. split; [reflexivity|]. split; [reflexivity|].
  split; [reflexivity|]. split; [reflexivity|]. split; [|split].
  - intros uid j -> Hj. simpl in Hu.
    destruct (findById User._id uid (users db)) as [u0|] eqn:F;
      [|discriminate].
    injection Hu as ->. destruct (findById_some _ _ _ _ F) as [_ Hid].
    rewrite Hid. apply updateById_other; [reflexivity|congruence].
  - discriminate.
  - intros _. unfold cancel_subscription.
    assert (Hu' : authenticateToken tok
                    (with_users
                       (updateById User._id (User._id u) downgrade_update
                                   (users db)) db)
                  = inr (downgrade_update u)).
    { destruct tok; simpl in *; try discriminate.
      destruct (findById User._id userId (users db)) as [u0|] eqn:F;
        [|discriminate].
      injection Hu as ->. destruct (findById_some _ _ _ _ F) as [_ Hid].
      rewrite <- Hid.
      rewrite (findById_updateById_found User._id (User._id u)
                 downgrade_update u); [reflexivity|exact Hfound|reflexivity]. }
    rewrite Hu'. reflexivity.
Qed.

Lemma X11_cancel_subscription_witness :
  cancel_subscription (Verified 0) c1_upgraded
  = (fst (cancel_subscription (Verified 0) c1_upgraded), c1_downgraded)
  /\ cancel_subscription (Verified 0) c1_downgraded
     = (Json 400 false "You are already on the free plan" NoData,
        c1_downgraded).
Proof.
  split; [apply surjective_pairing|].
  apply (X11_cancel_subscription_once (Verified 0) c1_upgraded _ c1_downgraded
           (surjective_pairing _)).
  reflexivity.
Defined.

(** ** Apps *)

Lemma generateAppId_fresh (rnd : list string) (c : list App.t) (k : string)
    (rnd' : list string) :
  generateAppId rnd c = Some (k, rnd') -> ~ In k (map App.appId c).
Proof.
  induction rnd as [|x rnd IH]; simpl; [discriminate|].
  destruct (findOne (fun a => String.eqb (App.appId a) x) c) eqn:F; simpl.
  - exact IH.
  - intros H. injection H as <- <-. intros Hin. apply in_map_iff in Hin.
    destruct Hin as [a [Ha Hin]]. unfold findOne in F.
    apply (find_none _ _ F) in Hin. rewrite Ha, String.eqb_refl in Hin.
    discriminate.
Qed.

(** X12.  App creation respects the plan quota and hands out new ids.  An
    answer that is not successful changes nothing.  A successful one means
    the caller's [maxApps] is -1 or exceeds the number of the caller's
    stored apps; it appends one app owned by the caller, not paused, with
    the default settings and an [appId] that no stored app has, and pushes
    that app onto the caller's [apps]. *)
Theorem X12_create_app_quota_and_fresh_id (tok : Token) (name : string)
    (rnd : list string) (secret : string) (db : DB) (r : Response)
    (db' : DB) :
  create_app tok name rnd secret db = Some (r, db') ->
  (is_success r = false -> db' = db)
  /\ (is_success r = true ->
      exists u a,
        authenticateToken tok db = inr u
        /\ (User.maxApps u = -1
            \/ Z.of_nat (List.length (populate_apps db (User.apps u)))
               < User.maxApps u)
        /\ apps db' = apps db ++ [a]
        /\ App.owner a = User._id u
        /\ App.paused a = false
        /\ App.settings a = App.default_settings
        /\ ~ In (App.appId a) (map App.appId (apps db))
        /\ findById User._id (User._id u) (users db')
           = Some (User_push_app (App._id a) u)).
Proof.
  intros H. unfold create_app in H.
  destruct (authenticateToken tok db) as [r0|u] eqn:Hu.
  { injection H as <- <-. split; [reflexivity|].
    apply authenticateToken_failure in Hu. congruence. }
  destruct (User.canCreateApp (populate_user db u)) eqn:Hcan;
    [|injection H as <- <-; split; [reflexivity|discriminate]].
  simpl negb in H. cbv iota in H.
  destruct (String.eqb (trim name) ""
            || (100 <? js_length (trim name))%nat);
    [injection H as <- <-; split; [reflexivity|discriminate]|].
  destruct (generateAppId rnd (apps db)) as [[appId rnd']|] eqn:Hgen;
    [|discriminate].
  unfold fresh_id in H. cbv beta iota zeta in H. injection H as <- <-.
  split; [discriminate|]. intros _.
  eexists u, _. split; [reflexivity|]. split.
  { unfold User.canCreateApp in Hcan. simpl in Hcan.
    rewrite length_map in Hcan. apply orb_true_iff in Hcan.
    destruct Hcan as [E|E]; [left; apply Z.eqb_eq; exact E|].
    right. apply Z.ltb_lt. exact E. }
  split; [reflexivity|]. split; [reflexivity|]. split; [reflexivity|].
  split; [reflexivity|]. split.
  - simpl. eapply generateAppId_fresh. exact Hgen.
  - simpl.
    apply (findById_updateById_found User._id (User._id u) _ u);
      [apply authenticateToken_found in Hu; exact Hu|reflexivity].
Qed.

Lemma X12_create_app_witness :
  (exists r,
     create_app (Verified 0) "Third" ["A1B2C3D4"; "CAFE0001"] "abcdef"
                x_two_apps_db = Some (r, x_two_apps_db)
     /\ is_success r = false)
  /\ (exists r db',
        create_app (Verified 0) "Third" ["A1B2C3D4"; "CAFE0001"] "abcdef"
                   x_two_apps_premium_db = Some (r, db')
        /\ is_success r = true
        /\ map App.appId (apps db') = ["A1B2C3D4"; "0F0F0F0F"; "CAFE0001"]).
Proof.
  split.
  - eexists. split; [reflexivity|reflexivity].
  - eexists _, _. split; [reflexivity|]. split; [reflexivity|].
    destruct (X12_create_app_quota_and_fresh_id (Verified 0) "Third"
                ["A1B2C3D4"; "CAFE0001"] "abcdef" x_two_apps_premium_db _ _
                eq_refl) as [_ H].
    destruct (H eq_refl) as (u & a & _ & _ & Happs & _).
    reflexivity.
Defined.

Lemma App_save_identity (a a' : App.t) (db : DB) (i : ObjectId) :
  findById App._id i (apps db) = Some a ->
  App._id a' = App._id a -> App.owner a' = App.owner a ->
  App.appId a' = App.appId a -> App.appSecret a' = App.appSecret a ->
  map (fun x => (App._id x, App.owner x, App.appId x, App.appSecret x))
      (apps (App_save a' db))
  = map (fun x => (App._id x, App.owner x, App.appId x, App.appSecret x))
        (apps db).
Proof.
  intros Hf H1 H2 H3 H4. unfold App_save. simpl.
  destruct (findById_some _ _ _ _ Hf) as [_ Hid].
  rewrite H1, Hid.
  apply (updateById_found_map App._id _ i a a'); [exact Hf|].
  rewrite H1, H2, H3, H4. reflexivity.
Qed.

(** X13.  The identity of an app is immutable: whatever [PUT /apps/:id]
    and [PUT /apps/:id/error-messages] are sent and whatever they answer,
    every stored app keeps its [_id], owner, [appId] and [appSecret], and no
    other collection is written. *)
Theorem X13_app_identity_immutable (tok : Token) (appId : ObjectId)
    (name version : option string) (paused hwidLock allowCustom : option bool)
    (body : MessageKey -> option (option string)) (db : DB) :
  let identity (d : DB) :=
    map (fun x => (App._id x, App.owner x, App.appId x, App.appSecret x))
        (apps d) in
  let rest (d : DB) :=
    (users d, licenses d, resellers d, clients d, payments d) in
  identity (snd (update_app tok appId name version paused hwidLock
                            allowCustom db)) = identity db
  /\ rest (snd (update_app tok appId name version paused hwidLock
                           allowCustom db)) = rest db
  /\ identity (snd (update_error_messages tok appId body db)) = identity db
  /\ rest (snd (update_error_messages tok appId body db)) = rest db.
Proof.
  cbv zeta. unfold update_app, update_error_messages.
  destruct (authenticateToken tok db) as [r0|u]; [repeat split|].
  destruct (negb (requireAppOwnership db u appId)); [repeat split|].
  destruct (findById App._id appId (apps db)) as [a|] eqn:Ha;
    [|repeat split].
  split; [|split; [|split]].
  - match goal with
    | |- context [if ?b then _ else _] => destruct b
    end; [reflexivity|].
    simpl snd. apply (App_save_identity a _ db appId); auto.
  - match goal with
    | |- context [if ?b then _ else _] => destruct b
    end; reflexivity.
  - simpl snd. apply (App_save_identity a _ db appId); auto.
  - reflexivity.
Qed.

(** X14.  Error messages round-trip through their update.  After a
    successful [PUT /apps/:id/error-messages], looking a message up on the
    stored app gives the text of the body for every key the body sets to a
    non-empty text, the fallback 'An error occurred' for every key it sets
    to the empty text or to [null], and the previous message for every key
    it leaves out. *)
Theorem X14_error_messages_round_trip (tok : Token) (appId : ObjectId)
    (body : MessageKey -> option (option string)) (db : DB) (u : User.t)
    (a : App.t) :
  authenticateToken tok db = inr u ->
  requireAppOwnership db u appId = true ->
  findById App._id appId (apps db) = Some a ->
  fst (update_error_messages tok appId body db)
  = Json 200 true "Error messages updated successfully" NoData
  /\ exists a',
       findById App._id appId
         (apps (snd (update_error_messages tok appId body db))) = Some a'
       /\ forall k,
            getErrorMessage a' k
            = match body k with
              | Some (Some s) =>
                  if String.eqb s "" then "An error occurred" else s
              | Some None => "An error occurred"
              | None => getErrorMessage a k
              end.
Proof.
  intros Hu Hown Ha. unfold update_error_messages.
  rewrite Hu, Hown, Ha. simpl. split; [reflexivity|].
  destruct (findById_some _ _ _ _ Ha) as [_ Hid].
  eexists. split.
  - rewrite Hid. apply findById_updateById; [reflexivity|congruence].
  - intros k. unfold getErrorMessage. simpl.
    destruct (body k) as [[s|]|]; reflexivity.
Qed.

Lemma X14_error_messages_witness :
  option_map (fun a => (getErrorMessage a hwidMismatch,
                        getErrorMessage a userBanned,
                        getErrorMessage a keyUsed,
                        getErrorMessage a pausedApp))
    (findById App._id 1%nat
       (apps (snd (update_error_messages (Verified 0) 1 x_messages_body
                                         ex_db))))
  = Some ("Wrong machine", "An error occurred", "An error occurred",
          "Application is currently paused, please wait for the developer to say otherwise.").
Proof.
  destruct (X14_error_messages_round_trip (Verified 0) 1%nat x_messages_body
              ex_db ex_owner ex_app eq_refl eq_refl eq_refl)
    as (_ & a' & Hf & Hmsg).
  rewrite Hf. simpl. rewrite !Hmsg. reflexivity.
Defined.

(** X15.  Deleting an app deletes its licenses and nothing else of its
    data.  After a successful [DELETE /apps/:id] the stored licenses are
    exactly the former licenses of the other apps, while the resellers and
    the clients of the deleted app, like all others, are still stored; an
    answer that is not successful changes nothing. *)
Theorem X15_delete_app_cascades_to_licenses_only (tok : Token)
    (appId : ObjectId) (db : DB) (r : Response) (db' : DB) :
  delete_app tok appId db = (r, db') ->
  (is_success r = false -> db' = db)
  /\ (is_success r = true ->
      licenses db'
      = filter (fun l => negb (Nat.eqb (License.app l) appId)) (licenses db)
      /\ (forall l, In l (licenses db') -> License.app l <> appId)
      /\ resellers db' = resellers db
      /\ clients db' = clients db
      /\ payments db' = payments db
      /\ apps db' = findByIdAndDelete App._id appId (apps db)).
Proof.
  intros H. unfold delete_app in H.
  destruct (authenticateToken tok db) as [r0|u] eqn:Hu.
  { finish H. split; [reflexivity|].
    apply authenticateToken_failure in Hu. congruence. }
  destruct (negb (requireAppOwnership db u appId));
    [finish H; split; [reflexivity|discriminate]|].
  destruct (findById App._id appId (apps db));
    [|finish H; split; [reflexivity|discriminate]].
  finish H. split; [discriminate|]. intros _. simpl.
  split; [reflexivity|]. split; [|repeat split].
  intros l Hin. unfold deleteMany in Hin. apply filter_In in Hin.
  destruct Hin as [_ Hne]. apply negb_true_iff in Hne.
  apply Nat.eqb_neq. exact Hne.
Qed.

Lemma X15_delete_app_witness :
  is_success (fst (delete_app (Verified 0) 1 ex_db)) = true
  /\ licenses (snd (delete_app (Verified 0) 1 ex_db)) = []
  /\ resellers (snd (delete_app (Verified 0) 1 ex_db)) = [ex_reseller]
  /\ clients (snd (delete_app (Verified 0) 1 ex_db)) = [ex_client].
Proof.
  destruct (X15_delete_app_cascades_to_licenses_only (Verified 0) 1%nat ex_db
              _ _ (surjective_pairing _)) as [_ H].
  destruct (H eq_refl) as (Hl & _ & Hr & Hc & _).
  split; [reflexivity|]. rewrite Hl, Hr, Hc. repeat split.
Defined.

(** ** Clients *)

Lemma findOne_snoc_none {A : Type} (p : A -> bool) (c : list A) (x : A) :
  findOne p c = None -> p x = true -> findOne p (c ++ [x]) = Some x.
Proof.
  unfold findOne. induction c as [|y c IH]; simpl; intros Hn Hx.
  - rewrite Hx. reflexivity.
  - destruct (p y); [discriminate|]. apply IH; assumption.
Qed.

Lemma findById_snoc_new {A : Type} (id_of : A -> ObjectId) (c : list A)
    (x : A) :
  Forall (fun d => (id_of d < id_of x)%nat) c ->
  findById id_of (id_of x) (c ++ [x]) = Some x.
Proof.
  unfold findById. induction c as [|y c IH]; simpl; intros Hall.
  - rewrite Nat.eqb_refl. reflexivity.
  - inversion Hall as [|? ? Hy Hc]; subst.
    destruct (Nat.eqb (id_of y) (id_of x)) eqn:E.
    + apply Nat.eqb_eq in E. lia.
    + apply IH. exact Hc.
Qed.

Lemma findByIdAndDelete_snoc_new {A : Type} (id_of : A -> ObjectId)
    (c : list A) (x : A) :
  Forall (fun d => (id_of d < id_of x)%nat) c ->
  findByIdAndDelete id_of (id_of x) (c ++ [x]) = c.
Proof.
  induction c as [|y c IH]; simpl; intros Hall.
  - rewrite Nat.eqb_refl. reflexivity.
  - inversion Hall as [|? ? Hy Hc]; subst.
    destruct (Nat.eqb (id_of y) (id_of x)) eqn:E.
    + apply Nat.eqb_eq in E. lia.
    + rewrite IH; auto.
Qed.

(** A client found under its app and name is found there again after a
    save that keeps its id, app and name. *)
Lemma Client_findByAppUsername_save (c x : Client.t) (a : ObjectId)
    (u : string) (db : DB) :
  Client_findByAppUsername a u db = Some c ->
  Client._id x = Client._id c -> Client.app x = Client.app c ->
  Client.username x = Client.username c ->
  Client_findByAppUsername a u (Client_save x db) = Some x.
Proof.
  unfold Client_findByAppUsername, Client_save. simpl. intros Hf Hi Ha Hu.
  apply (findOne_updateById Client._id _ (Client._id x) c x);
    [exact Hf|symmetry; exact Hi|].
  rewrite Ha, Hu. unfold findOne in Hf. apply (find_some _ _ Hf).
Qed.

(** What a successful registration has checked and written. *)
Lemma register_success (hash : string -> string) (now : Date)
    (username password licenseKey : string) (hwid : JsString) (db : DB)
    (r : Response) (db' : DB) :
  register hash now username password licenseKey hwid db = (r, db') ->
  is_success r = true ->
  exists l a,
    License_findByKey licenseKey db = Some l
    /\ findById App._id (License.app l) (apps db) = Some a
    /\ App.paused a = false
    /\ License.used l = false
    /\ License.status l = ACTIVE
    /\ License.isExpired now l = false
    /\ Client_findByAppUsername (App._id a) (trim username) db = None
    /\ db' = License_save
               (License.set_usage true (Some (nextId db)) l)
               (mkDB (users db) (apps db) (licenses db) (resellers db)
                  (clients db
                   ++ [Client.new_doc (nextId db) username (hash password)
                         hwid (App._id a) licenseKey (License.expiresAt l)])
                  (payments db) (S (nextId db))).
Proof.
  unfold register. intros H Hs.
  destruct (License_findByKey licenseKey db) as [l|] eqn:Hl;
    [|injection H as <- <-; discriminate Hs].
  destruct (findById App._id (License.app l) (apps db)) as [a|] eqn:Ha;
    [|injection H as <- <-; discriminate Hs].
  destruct (App.paused a) eqn:Hp; [injection H as <- <-; discriminate Hs|].
  destruct (License.used l) eqn:Hu; [injection H as <- <-; discriminate Hs|].
  destruct (negb (Status_eqb (License.status l) ACTIVE)) eqn:Hst;
    [injection H as <- <-; discriminate Hs|].
  destruct (License.isExpired now l) eqn:He;
    [injection H as <- <-; discriminate Hs|].
  destruct (js_length username <? 3)%nat;
    [injection H as <- <-; discriminate Hs|].
  destruct (Client_findByAppUsername (App._id a) username db) eqn:Hd;
    [injection H as <- <-; discriminate Hs|].
  rewrite <- Client_findByAppUsername_trim in Hd.
  unfold Client_create, fresh_id in H. cbv beta iota zeta in H.
  rewrite Hd in H.
  destruct (negb (Client.valid username password));
    [injection H as <- <-; discriminate Hs|].
  simpl in H. injection H as <- <-.
  exists l, a. apply negb_false_iff, Status_eqb_eq in Hst.
  repeat split; auto.
Qed.

(** The login of a client that has just been appended to the collection:
    it succeeds unless the app locks the HWID and the presented one is not
    the stored one. *)
Lemma login_new_client (compare : string -> string -> bool)
    (now : Date) (u p pwHash : string) (h h' : JsString) (a : App.t)
    (i : ObjectId) (key : string) (e : Date) (db db' : DB) :
  App_findByCredentials (App.appId a) (App.appSecret a) db' = Some a ->
  App.paused a = false ->
  clients db' = clients db
                ++ [Client.new_doc i u pwHash h (App._id a) key e] ->
  Client_findByAppUsername (App._id a) (trim u) db = None ->
  compare p pwHash = true ->
  now <= e ->
  is_success (fst (login compare now (trim u) p h' (App.appId a)
                         (App.appSecret a) db'))
  = negb (App.hwidLock (App.settings a)
          && Client.hwid_differs
               (Client.new_doc i u pwHash h (App._id a) key e) h').
Proof.
  intros Hcred Hp Hcl Hnone Hcmp He. unfold login.
  unfold App_findByCredentials in Hcred. rewrite Hcred, Hp.
  assert (Hf : Client_findByAppUsername (App._id a) (trim u) db'
               = Some (Client.new_doc i u pwHash h (App._id a) key e)).
  { unfold Client_findByAppUsername. rewrite Hcl.
    apply findOne_snoc_none; [exact Hnone|].
    simpl. rewrite trim_idem, Nat.eqb_refl, String.eqb_refl. reflexivity. }
  rewrite Hf. cbn [Client.password Client.new_doc Client.ban]. rewrite Hcmp.
  cbn [negb]. cbv iota.
  replace (Client.isExpired now
             (Client.new_doc i u pwHash h (App._id a) key e)) with false
    by (symmetry; apply Z.ltb_ge; exact He).
  destruct (App.hwidLock (App.settings a));
    destruct (Client.hwid_differs _ h'); reflexivity.
Qed.

(** What a successful login has checked and written. *)
Lemma login_success
    (compare : string -> string -> bool) (now : Date)
    (username password : string) (hwid : JsString)
    (appId appSecret : string) (db : DB) (r : Response) (db' : DB) :
  login compare now username password hwid appId appSecret db = (r, db') ->
  is_success r = true ->
  exists a c c',
    App_findByCredentials appId appSecret db = Some a
    /\ App.paused a = false
    /\ Client_findByAppUsername (App._id a) username db = Some c
    /\ compare password (Client.password c) = true
    /\ Client.isActive now c = true
    /\ (App.hwidLock (App.settings a) = true ->
        Client.hwid_differs c hwid = false)
    /\ r = Json 200 true (getErrorMessage a loggedInMsg) (DataClient c')
    /\ db' = Client_save c' db
    /\ Client._id c' = Client._id c
    /\ Client.loginCount c' = Client.loginCount c + 1
    /\ Client.lastLogin c' = Some now
    /\ (Client.username c', Client.password c', Client.app c',
        Client.licenseKey c', Client.ban c', Client.expiresAt c')
       = (Client.username c, Client.password c, Client.app c,
          Client.licenseKey c, Client.ban c, Client.expiresAt c).
Proof.
  unfold login, App_findByCredentials. intros H Hs.
  destruct (findOne _ (apps db)) as [a|] eqn:Ha;
    [|injection H as <- <-; discriminate Hs].
  destruct (App.paused a) eqn:Hp; [injection H as <- <-; discriminate Hs|].
  destruct (Client_findByAppUsername (App._id a) username db) as [c|] eqn:Hc;
    [|injection H as <- <-; discriminate Hs].
  destruct (compare password (Client.password c)) eqn:Hcmp;
    [|injection H as <- <-; discriminate Hs].
  simpl negb in H. cbv iota in H.
  destruct (Client.ban c) eqn:Hb; [injection H as <- <-; discriminate Hs|].
  destruct (Client.isExpired now c) eqn:He;
    [injection H as <- <-; discriminate Hs|].
  assert (Hact : Client.isActive now c = true)
    by (unfold Client.isActive; rewrite Hb, He; reflexivity).
  destruct (App.hwidLock (App.settings a)) eqn:Hl;
    destruct (Client.hwid_differs c hwid) eqn:Hd;
    try (injection H as <- <-; discriminate Hs);
    injection H as <- <-; exists a, c; eexists;
    repeat (split;
            [first [eassumption|reflexivity|(intros; congruence)]|]);
    reflexivity.
Qed.

(** X16.  A login succeeds only for an active client that proves its
    password, and writes one client and nothing else.  A successful
    [POST /clients/login] has a body of five strings with a HWID that is
    not empty; it has resolved an app that is not paused and a client of
    that app under the trimmed name, the password compares equal to the
    stored hash, the client is neither banned nor expired, and under the
    HWID lock the presented HWID is the stored one; the answer carries the
    saved client, whose [loginCount] is one more and whose [lastLogin] is
    the time of the request, and every other collection is as before. *)
Theorem X16_login_admits_only_active_clients
    (compare : string -> string -> bool) (now : Date)
    (username password hwid appId appSecret : JsString) (db : DB)
    (r : Response) (db' : DB) :
  login_route compare now username password hwid appId appSecret db
  = (r, db') ->
  is_success r = true ->
  exists u p h i s a c c',
    username = JsStr u /\ password = JsStr p /\ hwid = JsStr h
    /\ appId = JsStr i /\ appSecret = JsStr s
    /\ h <> ""
    /\ App_findByCredentials i s db = Some a
    /\ App.paused a = false
    /\ Client_findByAppUsername (App._id a) (trim u) db = Some c
    /\ compare p (Client.password c) = true
    /\ Client.isActive now c = true
    /\ (App.hwidLock (App.settings a) = true ->
        Client.hwid_differs c (JsStr h) = false)
    /\ r = Json 200 true (getErrorMessage a loggedInMsg) (DataClient c')
    /\ db' = Client_save c' db
    /\ Client._id c' = Client._id c
    /\ Client.loginCount c' = Client.loginCount c + 1
    /\ Client.lastLogin c' = Some now
    /\ (Client.username c', Client.password c', Client.app c',
        Client.licenseKey c', Client.ban c', Client.expiresAt c')
       = (Client.username c, Client.password c, Client.app c,
          Client.licenseKey c, Client.ban c, Client.expiresAt c).
Proof.
  unfold login_route. intros H Hs.
  destruct (validateClientLogin username password hwid appId appSecret)
    as [[[[[u p] h] i] s]|] eqn:Hv;
    [|injection H as <- <-; discriminate Hs].
  destruct (validateClientLogin_passed _ _ _ _ _ _ _ _ _ _ Hv)
    as ((u0 & Hu & Hu0) & Hp & Hh & Hi & Hsec & Htrim & _ & _ & Hne & _).
  destruct (login_success _ _ _ _ _ _ _ _ _ _ H Hs)
    as (a & c & c' & Ha & Hpa & Hc & Hcmp & Hact & Hlock & Hrest).
  exists u0, p, h, i, s, a, c, c'.
  rewrite Hu0 in Hc.
  repeat (split; [assumption|]). exact Hrest.
Qed.

Lemma X16_login_witness :
  exists c',
    fst (login_route ex_compare 1000 (JsStr " bobby ") (JsStr "hunter22")
           (JsStr "HW-1") (JsStr "A1B2C3D4") (JsStr "s3cr3t") ex_db)
    = Json 200 true "Logged in!" (DataClient c')
    /\ Client.loginCount c' = 1
    /\ Client.lastLogin c' = Some 1000.
Proof.
  destruct (X16_login_admits_only_active_clients ex_compare 1000
              (JsStr " bobby ") (JsStr "hunter22") (JsStr "HW-1")
              (JsStr "A1B2C3D4") (JsStr "s3cr3t") ex_db _ _
              (surjective_pairing _) eq_refl)
    as (u & p & h & i & s & a & c & c' & Hu & _ & _ & Hi & Hsec & _ & Ha & _
        & Hc & _ & _ & _ & Hr & _ & _ & Hn & Hl & _).
  exists c'. rewrite Hr.
  injection Hu as <-. injection Hi as <-. injection Hsec as <-.
  injection Ha as <-. injection Hc as <-.
  split; [reflexivity|]. split; [rewrite Hn; reflexivity|exact Hl].
Defined.

(** X17.  A session is valid right after a login.  When a login with a
    non-empty, trimmed name and non-empty app credentials has succeeded,
    [POST /clients/validate-session] for the same name and credentials at
    the same time answers 200 with the very client document the login
    returned. *)
Theorem X17_login_then_session_valid (compare : string -> string -> bool)
    (now : Date) (username password : string) (hwid : JsString)
    (appId appSecret : string) (db : DB) (c' : Client.t) (m : string)
    (db' : DB) :
  login compare now username password hwid appId appSecret db
  = (Json 200 true m (DataClient c'), db') ->
  trim username = username ->
  username <> "" -> appId <> "" -> appSecret <> "" ->
  validate_session now (Some username) (Some appId) (Some appSecret) db'
  = Json 200 true "Session is valid" (DataClient c').
Proof.
  intros H Ht Hu Hi Hsec.
  unfold login in H. unfold validate_session, App_findByCredentials.
  rewrite !truthy_Some by assumption. simpl negb. cbv iota.
  destruct (findOne _ (apps db)) as [a|] eqn:Ha; [|discriminate].
  destruct (App.paused a) eqn:Hp; [discriminate|].
  destruct (Client_findByAppUsername (App._id a) username db) as [c|] eqn:Hc;
    [|discriminate].
  destruct (negb (compare password (Client.password c))); [discriminate|].
  destruct (Client.ban c) eqn:Hb; [discriminate|].
  destruct (Client.isExpired now c) eqn:He; [discriminate|].
  assert (Hsaved : forall x,
             Client._id x = Client._id c -> Client.app x = Client.app c ->
             Client.username x = Client.username c ->
             Client.ban x = false -> Client.expiresAt x = Client.expiresAt c ->
             db' = Client_save x db -> c' = x ->
             match findOne
                     (fun a0 => String.eqb (App.appId a0) appId
                                && String.eqb (App.appSecret a0) appSecret)
                     (apps db') with
             | Some app =>
                 if App.paused app
                 then Json 400 false (getErrorMessage app pausedApp) NoData
                 else
                   match Client_findByAppUsername (App._id app) username db'
                   with
                   | Some client =>
                       if Client.ban client
                       then Json 403 false (getErrorMessage app userBanned)
                                 NoData
                       else if Client.isExpired now client
                            then Json 403 false
                                      (getErrorMessage app noActiveSubs)
                                      NoData
                            else Json 200 true "Session is valid"
                                      (DataClient client)
                   | None =>
                       Json 404 false (getErrorMessage app usernameNotFound)
                            NoData
                   end
             | None => Json 401 false "Invalid application credentials" NoData
             end = Json 200 true "Session is valid" (DataClient c')).
  { intros x Hi1 Hi2 Hi3 Hi4 Hi5 -> ->.
    change (apps (Client_save x db)) with (apps db). rewrite Ha, Hp.
    rewrite (Client_findByAppUsername_save c x _ _ db Hc Hi1 Hi2 Hi3).
    rewrite Hi4. unfold Client.isExpired in *. rewrite Hi5, He.
    reflexivity. }
  destruct (App.hwidLock (App.settings a));
    destruct (Client.hwid_differs c hwid); try discriminate;
    injection H as _ <- <-;
    (eapply Hsaved; [| | | | |reflexivity|reflexivity]);
    try reflexivity; exact Hb.
Qed.

Lemma X17_login_then_session_witness :
  exists c',
    fst (login ex_compare 1000 "bobby" "hunter22" (JsStr "HW-1") "A1B2C3D4"
               "s3cr3t" ex_db)
    = Json 200 true "Logged in!" (DataClient c')
    /\ validate_session 1000 (Some "bobby") (Some "A1B2C3D4") (Some "s3cr3t")
         (snd (login ex_compare 1000 "bobby" "hunter22" (JsStr "HW-1")
                     "A1B2C3D4" "s3cr3t" ex_db))
       = Json 200 true "Session is valid" (DataClient c').
Proof.
  eexists. split; [reflexivity|].
  apply (X17_login_then_session_valid ex_compare 1000 "bobby" "hunter22"
           (JsStr "HW-1") "A1B2C3D4" "s3cr3t" ex_db _ "Logged in!");
    [reflexivity|reflexivity|discriminate|discriminate|discriminate].
Defined.

(** X18.  Registration followed by login.  After a successful
    registration under a trimmed name, a login with that name, the same
    password and the same HWID, with the credentials of the license's app
    and no later than the license expires, succeeds when the app does not
    lock the HWID.  Under the HWID lock it succeeds exactly when the HWID
    was [null] or a string without surrounding white space: the stored
    HWID is the trimmed one, the comparison is against the one sent. *)
Theorem X18_register_then_login (hash : string -> string)
    (compare : string -> string -> bool) (now now' : Date)
    (username password licenseKey : string) (hwid : JsString) (db : DB)
    (r : Response) (db' : DB) (l : License.t) (a : App.t) :
  register hash now username password licenseKey hwid db = (r, db') ->
  is_success r = true ->
  trim username = username ->
  compare password (hash password) = true ->
  License_findByKey licenseKey db = Some l ->
  findById App._id (License.app l) (apps db) = Some a ->
  App_findByCredentials (App.appId a) (App.appSecret a) db = Some a ->
  now' <= License.expiresAt l ->
  is_success (fst (login compare now' username password hwid (App.appId a)
                         (App.appSecret a) db'))
  = negb (App.hwidLock (App.settings a))
    || match hwid with
       | JsStr s => String.eqb (trim s) s
       | JsNull => true
       | JsUndefined => false
       end.
Proof.
  intros H Hs Ht Hcmp Hl Ha Hcred He.
  destruct (register_success _ _ _ _ _ _ _ _ _ H Hs)
    as (l0 & a0 & Hl0 & Ha0 & Hp & _ & _ & _ & Hnone & ->).
  rewrite Hl in Hl0. injection Hl0 as <-.
  rewrite Ha in Ha0. injection Ha0 as <-.
  rewrite <- Ht at 1.
  rewrite (login_new_client compare now' username password (hash password)
             hwid hwid a (nextId db) licenseKey (License.expiresAt l) db);
    auto.
  destruct (App.hwidLock (App.settings a)); [|reflexivity].
  destruct hwid as [| |s]; unfold Client.hwid_differs, Client.new_doc; simpl;
    try reflexivity.
  destruct (String.eqb (trim s) s); reflexivity.
Qed.

Lemma X18_register_then_login_witness :
  is_success (fst x_registered) = true
  /\ is_success
       (fst (login ex_compare 2000 "alice" "secret77" (JsStr " HW-7 ")
                   "A1B2C3D4" "s3cr3t" (snd x_registered))) = false.
Proof.
  split; [reflexivity|].
  apply (X18_register_then_login ex_hash ex_compare 1000 2000 "alice"
           "secret77" "BBBB1111BBBB1111BBBB1111" (JsStr " HW-7 ") ex_db
           (fst x_registered) (snd x_registered) ex_license2 ex_app);
    try reflexivity.
  simpl. lia.
Defined.

(** Once the handler has registered a client with a key, it answers every
    further registration with that key with the [keyUsed] message. *)
Lemma register_key_used_after (hash : string -> string)
    (now : Date) (username password licenseKey : string) (hwid : JsString)
    (db : DB) (r : Response) (db' : DB) :
  register hash now username password licenseKey hwid db = (r, db') ->
  is_success r = true ->
  exists l a,
    License_findByKey licenseKey db = Some l
    /\ findById App._id (License.app l) (apps db) = Some a
    /\ forall now2 username2 password2 hwid2,
         register hash now2 username2 password2 licenseKey hwid2 db'
         = (Json 400 false (getErrorMessage a keyUsed) NoData, db').
Proof.
  intros H Hs.
  destruct (register_success _ _ _ _ _ _ _ _ _ H Hs)
    as (l & a & Hl & Ha & Hp & _ & _ & _ & _ & ->).
  exists l, a. split; [exact Hl|]. split; [exact Ha|].
  intros now2 username2 password2 hwid2. unfold register.
  assert (Hl' : License_findByKey licenseKey
                  (License_save
                     (License.set_usage true (Some (nextId db)) l)
                     (mkDB (users db) (apps db) (licenses db) (resellers db)
                        (clients db
                         ++ [Client.new_doc (nextId db) username
                               (hash password) hwid (App._id a) licenseKey
                               (License.expiresAt l)])
                        (payments db) (S (nextId db))))
                = Some (License.set_usage true (Some (nextId db)) l)).
  { unfold License_findByKey, License_save. simpl.
    apply (findOne_updateById License._id _ (License._id l) l);
      [exact Hl|reflexivity|].
    unfold License_findByKey, findOne in Hl. apply (find_some _ _ Hl). }
  rewrite Hl'. simpl License.app.
  change (apps (License_save _ _)) with (apps db).
  rewrite Ha, Hp. reflexivity.
Qed.

(** X19.  A license key registers one client.  After a successful
    [POST /clients/register] every further registration with the same key,
    whatever its name, password, HWID and time, changes nothing: it is
    answered 400 'Validation failed' when its body fails the validation
    chain, and 400 with the [keyUsed] message of the license's app when
    its body passes. *)
Theorem X19_license_key_registers_once (v : Validator)
    (hash : string -> string) (now : Date)
    (username password licenseKey hwid : JsString) (db : DB) (r : Response)
    (db' : DB) :
  register_route v hash now username password licenseKey hwid db = (r, db') ->
  is_success r = true ->
  exists k l a,
    licenseKey = JsStr k
    /\ License_findByKey k db = Some l
    /\ findById App._id (License.app l) (apps db) = Some a
    /\ forall now2 username2 password2 hwid2,
         register_route v hash now2 username2 password2 licenseKey hwid2 db'
         = (match validateClientRegistration v username2 password2
                    licenseKey hwid2 with
            | Some _ => Json 400 false (getErrorMessage a keyUsed) NoData
            | None => Json 400 false "Validation failed" NoData
            end, db').
Proof.
  unfold register_route. intros H Hs.
  destruct (validateClientRegistration v username password licenseKey hwid)
    as [[[[u p] k] h]|] eqn:Hv;
    [|injection H as <- <-; discriminate Hs].
  destruct (validateClientRegistration_passed _ _ _ _ _ _ _ _ _ Hv)
    as (_ & _ & Hk & _).
  destruct (register_key_used_after _ _ _ _ _ _ _ _ _ H Hs)
    as (l & a & Hl & Ha & Hagain).
  exists k, l, a. split; [exact Hk|]. split; [exact Hl|]. split; [exact Ha|].
  intros now2 username2 password2 hwid2.
  destruct (validateClientRegistration v username2 password2 licenseKey
                                       hwid2)
    as [[[[u2 p2] k2] h2]|] eqn:Hv2; [|reflexivity].
  destruct (validateClientRegistration_passed _ _ _ _ _ _ _ _ _ Hv2)
    as (_ & _ & Hk2 & _).
  rewrite Hk in Hk2. injection Hk2 as <-. apply Hagain.
Qed.

Lemma X19_license_key_witness :
  is_success
    (fst (register_route ex_validator ex_hash 1000 (JsStr "alice")
            (JsStr "secret77") (JsStr "BBBB1111BBBB1111BBBB1111")
            (JsStr " HW-7 ") ex_db)) = true
  /\ register_route ex_validator ex_hash 3000 (JsStr "zoe99")
       (JsStr "another1") (JsStr "BBBB1111BBBB1111BBBB1111") (JsStr "HW-8")
       (snd x_registered)
     = (Json 400 false "License key has already been used" NoData,
        snd x_registered)
  /\ register_route ex_validator ex_hash 3000 (JsStr "zoe99")
       (JsStr "another1") (JsStr "BBBB1111BBBB1111BBBB1111") JsUndefined
       (snd x_registered)
     = (Json 400 false "Validation failed" NoData, snd x_registered).
Proof.
  split; [reflexivity|].
  destruct (X19_license_key_registers_once ex_validator ex_hash 1000
              (JsStr "alice") (JsStr "secret77")
              (JsStr "BBBB1111BBBB1111BBBB1111") (JsStr " HW-7 ") ex_db
              (fst x_registered) (snd x_registered) eq_refl eq_refl)
    as (k & l & a & Hk & Hl & Ha & Hagain).
  injection Hk as <-. injection Hl as <-. injection Ha as <-.
  split; rewrite Hagain; reflexivity.
Defined.

(** X20.  Deleting a client undoes its registration.  When a client has
    registered with a key and the owner of the app then deletes that
    client, the clients are those from before the registration and the
    license of the key is unused again, with no [usedBy] and otherwise as
    it was; the client ids stored before are taken to be ids handed out
    before. *)
Theorem X20_delete_client_undoes_registration (hash : string -> string)
    (now : Date) (username password licenseKey : string) (hwid : JsString)
    (tok : Token) (db : DB) (r : Response) (db' : DB) (u : User.t)
    (l : License.t) (a : App.t) :
  register hash now username password licenseKey hwid db = (r, db') ->
  is_success r = true ->
  Forall (fun c => (Client._id c < nextId db)%nat) (clients db) ->
  License_findByKey licenseKey db = Some l ->
  findById App._id (License.app l) (apps db) = Some a ->
  authenticateToken tok db = inr u ->
  App.owner a = User._id u ->
  is_success (fst (delete_client tok (nextId db) db')) = true
  /\ clients (snd (delete_client tok (nextId db) db')) = clients db
  /\ License_findByKey licenseKey (snd (delete_client tok (nextId db) db'))
     = Some (License.set_usage false None l).
Proof.
  intros H Hs Hids Hl Ha Hu Hown.
  destruct (register_success _ _ _ _ _ _ _ _ _ H Hs)
    as (l0 & a0 & Hl0 & Ha0 & Hp & _ & _ & _ & _ & ->).
  rewrite Hl in Hl0. injection Hl0 as <-.
  rewrite Ha in Ha0. injection Ha0 as <-.
  set (c := Client.new_doc (nextId db) username (hash password) hwid
              (App._id a) licenseKey (License.expiresAt l)).
  set (l' := License.set_usage true (Some (nextId db)) l).
  set (db1 := mkDB (users db) (apps db) (licenses db) (resellers db)
                (clients db ++ [c]) (payments db) (S (nextId db))).
  assert (Hkey : (fun x => String.eqb (License.key x) licenseKey) l = true).
  { unfold License_findByKey, findOne in Hl. apply (find_some _ _ Hl). }
  assert (Hl' : License_findByKey licenseKey (License_save l' db1) = Some l').
  { unfold License_findByKey, License_save. simpl.
    apply (findOne_updateById License._id _ (License._id l) l);
      [exact Hl|reflexivity|exact Hkey]. }
  assert (Hc : findById Client._id (nextId db)
                 (clients (License_save l' db1)) = Some c).
  { simpl. apply (findById_snoc_new Client._id (clients db) c). exact Hids. }
  assert (Happ : findById App._id (Client.app c)
                   (apps (License_save l' db1)) = Some a).
  { change (findById App._id (App._id a) (apps db) = Some a).
    destruct (findById_some _ _ _ _ Ha) as [_ Hid]. rewrite Hid. exact Ha. }
  unfold delete_client.
  rewrite (authenticateToken_users tok db (License_save l' db1) eq_refl), Hu.
  rewrite Hc, Happ, Hown, Nat.eqb_refl. simpl negb. cbv iota.
  change (Client.licenseKey c) with licenseKey. rewrite Hl'.
  split; [reflexivity|]. split.
  - simpl. apply (findByIdAndDelete_snoc_new Client._id (clients db) c).
    exact Hids.
  - simpl snd. unfold License_findByKey. simpl.
    apply (findOne_updateById License._id _ (License._id l) l');
      [exact Hl'|reflexivity|exact Hkey].
Qed.

Lemma X20_delete_client_witness :
  is_success (fst x_registered) = true
  /\ clients (snd (delete_client (Verified 0) 6 (snd x_registered)))
     = clients ex_db
  /\ licenses (snd (delete_client (Verified 0) 6 (snd x_registered)))
     = licenses ex_db.
Proof.
  split; [reflexivity|].
  destruct (X20_delete_client_undoes_registration ex_hash 1000 "alice"
              "secret77" "BBBB1111BBBB1111BBBB1111" (JsStr " HW-7 ")
              (Verified 0) ex_db (fst x_registered) (snd x_registered)
              ex_owner ex_license2 ex_app eq_refl eq_refl)
    as (_ & Hc & _); try reflexivity.
  - repeat constructor.
  - split; [exact Hc|reflexivity].
Defined.

(** The owner check of the client management routes, read backwards. *)
Lemma owned_client_inr (denied : string) (tok : Token) (i : ObjectId)
    (db : DB) (c : Client.t) :
  owned_client denied tok i db = inr c ->
  findById Client._id i (clients db) = Some c.
Proof.
  unfold owned_client.
  destruct (authenticateToken tok db); [discriminate|].
  destruct (findById Client._id i (clients db)) as [c0|]; [|discriminate].
  destruct (findById App._id (Client.app c0) (apps db)); [|discriminate].
  destruct (negb _); [discriminate|]. intros H. injection H as ->.
  reflexivity.
Qed.

Lemma owned_client_inl (denied : string) (tok : Token) (i : ObjectId)
    (db : DB) (r : Response) :
  owned_client denied tok i db = inl r -> is_success r = false.
Proof.
  unfold owned_client.
  destruct (authenticateToken tok db) eqn:Hu.
  { intros H. injection H as <-.
    apply authenticateToken_failure in Hu. exact Hu. }
  destruct (findById Client._id i (clients db)) as [c0|];
    [|intros H; injection H as <-; reflexivity].
  destruct (findById App._id (Client.app c0) (apps db));
    [|intros H; injection H as <-; reflexivity].
  destruct (negb _); [|discriminate]. intros H. injection H as <-.
  reflexivity.
Qed.

(** The owner check reads the users, the apps and, of the client, its id
    and app only. *)
Lemma owned_client_save (denied : string) (tok : Token) (i : ObjectId)
    (db : DB) (c x : Client.t) :
  owned_client denied tok i db = inr c ->
  Client._id x = Client._id c -> Client.app x = Client.app c ->
  owned_client denied tok i (Client_save x db) = inr x.
Proof.
  intros H Hid Happ. pose proof (owned_client_inr _ _ _ _ _ H) as Hf.
  unfold owned_client in *.
  rewrite (authenticateToken_users tok db (Client_save x db) eq_refl).
  destruct (authenticateToken tok db); [discriminate|].
  rewrite Hf in H.
  destruct (findById_some _ _ _ _ Hf) as [_ Hi].
  assert (Hx : findById Client._id i (clients (Client_save x db)) = Some x).
  { unfold Client_save. simpl. rewrite Hid, Hi.
    apply findById_updateById; [congruence|congruence]. }
  rewrite Hx, Happ. change (apps (Client_save x db)) with (apps db).
  destruct (findById App._id (Client.app c) (apps db)); [|discriminate].
  destruct (negb _); [discriminate|reflexivity].
Qed.

Lemma Client_save_restore (c x : Client.t) (db : DB) :
  findById Client._id (Client._id c) (clients db) = Some c ->
  Client._id x = Client._id c ->
  Client_save c (Client_save x db) = db.
Proof.
  intros Hf Hid. unfold Client_save. simpl. rewrite Hid.
  rewrite (updateById_restore Client._id (Client._id c) c x (clients db));
    [destruct db; reflexivity|exact Hf|exact Hid].
Qed.

(** X21.  The client ban toggle is its own inverse.  A successful
    [PATCH /clients/:id/toggle-ban] negates the [ban] of the client with
    that id and changes nothing else; sent again by the same caller it
    succeeds again and gives back the database from before the first. *)
Theorem X21_client_toggle_ban_involution (tok : Token) (clientId : ObjectId)
    (db : DB) (r : Response) (db' : DB) :
  client_toggle_ban tok clientId db = (r, db') ->
  is_success r = true ->
  (exists c,
     findById Client._id clientId (clients db) = Some c
     /\ db' = Client_save (Client.set_ban (negb (Client.ban c)) c) db
     /\ findById Client._id clientId (clients db')
        = Some (Client.set_ban (negb (Client.ban c)) c))
  /\ is_success (fst (client_toggle_ban tok clientId db')) = true
  /\ snd (client_toggle_ban tok clientId db') = db.
Proof.
  unfold client_toggle_ban. intros H Hs.
  destruct (owned_client _ tok clientId db) as [r0|c] eqn:Ho.
  { injection H as <- <-. apply owned_client_inl in Ho. congruence. }
  injection H as <- <-. clear Hs.
  pose proof (owned_client_inr _ _ _ _ _ Ho) as Hf.
  destruct (findById_some _ _ _ _ Hf) as [_ Hi].
  rewrite (owned_client_save _ tok clientId db c
             (Client.set_ban (negb (Client.ban c)) c) Ho eq_refl eq_refl).
  split; [|split].
  - exists c. split; [exact Hf|]. split; [reflexivity|].
    unfold Client_save. simpl. rewrite Hi.
    apply findById_updateById; [exact Hi|congruence].
  - reflexivity.
  - simpl snd.
    transitivity
      (Client_save c (Client_save (Client.set_ban (negb (Client.ban c)) c)
                                  db)).
    + f_equal. clear. destruct c as [? ? ? ? ? ? [] ? ? ?]; reflexivity.
    + apply Client_save_restore; [rewrite Hi; exact Hf|reflexivity].
Qed.

Lemma X21_client_toggle_ban_witness :
  option_map Client.ban
    (findById Client._id 4%nat
       (clients (snd (client_toggle_ban (Verified 0) 4 ex_db)))) = Some true
  /\ snd (client_toggle_ban (Verified 0) 4
            (snd (client_toggle_ban (Verified 0) 4 ex_db))) = ex_db.
Proof.
  destruct (X21_client_toggle_ban_involution (Verified 0) 4%nat ex_db _ _
              (surjective_pairing _) eq_refl) as (_ & _ & Hback).
  split; [reflexivity|exact Hback].
Defined.

(** X22.  A HWID reset locks the client out of an app that locks the
    HWID.  After a successful [PATCH /clients/:id/reset-hwid] the stored
    HWID is [null]; as long as the app has [hwidLock] on, no login of that
    client that presents a string as its HWID succeeds, whatever the
    string, the password and the time. *)
Theorem X22_reset_hwid_locks_out (tok : Token) (clientId : ObjectId)
    (db : DB) (r : Response) (db' : DB) (a : App.t) (c : Client.t)
    (appId appSecret : string) :
  reset_hwid tok clientId db = (r, db') ->
  is_success r = true ->
  findById Client._id clientId (clients db) = Some c ->
  App_findByCredentials appId appSecret db = Some a ->
  Client_findByAppUsername (App._id a) (Client.username c) db = Some c ->
  App.hwidLock (App.settings a) = true ->
  option_map Client.hwid (findById Client._id clientId (clients db'))
  = Some None
  /\ forall compare now password s,
       is_success
         (fst (login compare now (Client.username c) password (JsStr s)
                     appId appSecret db')) = false.
Proof.
  unfold reset_hwid. intros H Hs Hf Ha Hc Hl.
  destruct (owned_client _ tok clientId db) as [r0|c0] eqn:Ho.
  { injection H as <- <-. apply owned_client_inl in Ho. congruence. }
  injection H as <- <-. clear Hs.
  pose proof (owned_client_inr _ _ _ _ _ Ho) as Hf0.
  rewrite Hf in Hf0. injection Hf0 as <-.
  destruct (findById_some _ _ _ _ Hf) as [_ Hi].
  split.
  - unfold Client_save. simpl. rewrite Hi.
    rewrite findById_updateById; [reflexivity|exact Hi|congruence].
  - intros compare now password s. unfold login.
    unfold App_findByCredentials in Ha.
    change (apps (Client_save _ db)) with (apps db). rewrite Ha.
    destruct (App.paused a); [reflexivity|].
    rewrite (Client_findByAppUsername_save c (Client.set_hwid None c) _ _ db
               Hc eq_refl eq_refl eq_refl).
    destruct (negb (compare password _)); [reflexivity|].
    destruct (Client.ban _); [reflexivity|].
    destruct (Client.isExpired now _); [reflexivity|].
    rewrite Hl. reflexivity.
Qed.

Lemma X22_reset_hwid_witness :
  is_success (fst (reset_hwid (Verified 0) 4 ex_db)) = true
  /\ is_success
       (fst (login ex_compare 1000 "bobby" "hunter22" (JsStr "HW-1")
                   "A1B2C3D4" "s3cr3t" ex_db)) = true
  /\ is_success
       (fst (login ex_compare 1000 "bobby" "hunter22" (JsStr "HW-1")
                   "A1B2C3D4" "s3cr3t"
                   (snd (reset_hwid (Verified 0) 4 ex_db)))) = false.
Proof.
  split; [reflexivity|]. split; [reflexivity|].
  destruct (X22_reset_hwid_locks_out (Verified 0) 4%nat ex_db _ _ ex_app
              ex_client "A1B2C3D4" "s3cr3t" (surjective_pairing _) eq_refl
              eq_refl eq_refl eq_refl eq_refl) as [_ Hout].
  apply (Hout ex_compare 1000 "hunter22" "HW-1").
Defined.

(** X23.  Direct creation followed by login.  A successful
    [POST /clients/create-direct] has an app of the caller that is not
    paused and an expiry after the time of the request, appends one client
    and leaves the licenses alone.  The new client then logs in through
    [POST /clients/login] under its name with the password the owner
    chose, up to its expiry, with any HWID that is not empty when the app
    does not lock the HWID; under the lock it logs in only with the
    trimmed HWID the owner supplied, and not at all when the owner
    supplied none.  A login with an empty HWID is refused. *)
Theorem X23_create_direct_then_login (hash : string -> string) (now : Date)
    (tok : Token) (username password : option string)
    (appId : option ObjectId) (hwid : option string)
    (expiresAt : option (option Date)) (db : DB) (r : Response) (db' : DB) :
  create_direct hash now tok username password appId hwid expiresAt db
  = (r, db') ->
  is_success r = true ->
  exists a uname pw e,
    username = Some uname /\ password = Some pw
    /\ appId = Some (App._id a) /\ expiresAt = Some (Some e)
    /\ now < e
    /\ In a (apps db) /\ App.paused a = false
    /\ (exists u, authenticateToken tok db = inr u
                  /\ App.owner a = User._id u)
    /\ licenses db' = licenses db
    /\ forall (compare : string -> string -> bool) (now' : Date) (s : string),
         App_findByCredentials (App.appId a) (App.appSecret a) db = Some a ->
         App.appId a <> "" -> App.appSecret a <> "" ->
         compare pw (hash pw) = true ->
         now' <= e ->
         is_success (fst (login_route compare now' (JsStr uname) (JsStr pw)
                            (JsStr s) (JsStr (App.appId a))
                            (JsStr (App.appSecret a)) db'))
         = negb (String.eqb s "")
           && (negb (App.hwidLock (App.settings a))
               || match hwid with
                  | Some h => negb (String.eqb h "") && String.eqb (trim h) s
                  | None => false
                  end).
Proof.
  unfold create_direct. intros H Hs.
  destruct (authenticateToken tok db) as [r0|u] eqn:Hu.
  { injection H as <- <-. apply authenticateToken_failure in Hu. congruence. }
  destruct username as [uname|]; [|injection H as <- <-; discriminate Hs].
  destruct password as [pw|]; [|injection H as <- <-; discriminate Hs].
  destruct appId as [aid|]; [|injection H as <- <-; discriminate Hs].
  destruct expiresAt as [e|]; [|injection H as <- <-; discriminate Hs].
  destruct (negb (truthy (Some uname) && truthy (Some pw)));
    [injection H as <- <-; discriminate Hs|].
  destruct (findOne _ (apps db)) as [a|] eqn:Ha;
    [|injection H as <- <-; discriminate Hs].
  destruct (App.paused a) eqn:Hp; [injection H as <- <-; discriminate Hs|].
  destruct (js_length uname <? 3)%nat;
    [injection H as <- <-; discriminate Hs|].
  destruct (js_length pw <? 6)%nat;
    [injection H as <- <-; discriminate Hs|].
  destruct (Client_findByAppUsername (App._id a) uname db) eqn:Hnone;
    [injection H as <- <-; discriminate Hs|].
  rewrite <- Client_findByAppUsername_trim in Hnone.
  simpl is_some in H. cbv iota in H.
  destruct e as [e|]; [|injection H as <- <-; discriminate Hs].
  destruct (e <=? now) eqn:He; [injection H as <- <-; discriminate Hs|].
  unfold Client_create, fresh_id in H. cbv beta iota zeta in H.
  destruct (negb (Client.valid uname pw)) eqn:Hvalid;
    [injection H as <- <-; discriminate Hs|].
  rewrite Hnone in H. simpl is_some in H. cbv iota in H.
  injection H as <- <-. clear Hs.
  unfold findOne in Ha. destruct (find_some _ _ Ha) as [Hin Hq].
  apply andb_true_iff in Hq. destruct Hq as [Hid Hown].
  apply Nat.eqb_eq in Hid. apply Nat.eqb_eq in Hown.
  apply Z.leb_gt in He.
  exists a, uname, pw, e.
  split; [reflexivity|]. split; [reflexivity|].
  split; [rewrite Hid; reflexivity|]. split; [reflexivity|].
  split; [exact He|]. split; [exact Hin|]. split; [exact Hp|].
  split; [exists u; split; [reflexivity|exact Hown]|].
  split; [reflexivity|].
  intros compare now' s Hcred Hid' Hsec' Hcmp Hle.
  apply negb_false_iff in Hvalid. unfold Client.valid in Hvalid.
  apply andb_true_iff in Hvalid. destruct Hvalid as [Hvalid Hpw].
  apply andb_true_iff in Hvalid. destruct Hvalid as [Hun _].
  apply Nat.leb_le in Hun, Hpw.
  assert (Hu1 : notEmpty (trim uname) = true).
  { apply notEmpty_true. intros E. rewrite E in Hun. simpl in Hun. lia. }
  assert (Hp1 : notEmpty pw = true).
  { apply notEmpty_true. intros E. rewrite E in Hpw. simpl in Hpw. lia. }
  apply notEmpty_true in Hid', Hsec'.
  unfold login_route, validateClientLogin.
  rewrite Hu1, Hp1, Hid', Hsec'. unfold notEmpty at 1.
  destruct (String.eqb s "") eqn:Hs0; [reflexivity|].
  cbn [negb andb].
  match goal with
  | |- context [Client.new_doc ?i ?un ?ph ?h ?ap ?k ?ex] =>
      rewrite (login_new_client compare now' uname pw ph h (JsStr s) a i k ex
                 db); auto
  end.
  destruct (App.hwidLock (App.settings a)); [|reflexivity].
  destruct hwid as [h|]; [|reflexivity].
  unfold truthy. destruct (String.eqb h ""); [reflexivity|].
  unfold Client.hwid_differs, Client.new_doc. simpl.
  destruct (String.eqb (trim h) s); reflexivity.
Qed.

Lemma X23_create_direct_witness :
  is_success (fst x_created_direct) = true
  /\ is_success
       (fst (login_route ex_compare 2000 (JsStr "dave1") (JsStr "passw0rd")
               (JsStr "HW-5") (JsStr "A1B2C3D4") (JsStr "s3cr3t")
               (snd x_created_direct))) = false.
Proof.
  split; [reflexivity|].
  destruct (X23_create_direct_then_login ex_hash 1000 (Verified 0)
              (Some "dave1") (Some "passw0rd") (Some 1%nat) None
              (Some (Some 9000)) ex_db _ _ (surjective_pairing _) eq_refl)
    as (a & uname & pw & e & Hn & Hpw & Ha & He & _ & Hin & _ & _ & _ & Hlog).
  injection Hn as <-. injection Hpw as <-. injection He as <-.
  destruct Hin as [<-|[]].
  apply (Hlog ex_compare 2000 "HW-5");
    [reflexivity|discriminate|discriminate|reflexivity|lia].
Defined.

(** ** Resellers *)

(** The two outcomes of [POST /resellers]. *)
Lemma create_reseller_cases (hash : string -> string)
    (tok : Token) (email password : option string)
    (app_id : option ObjectId) (allowed_license_keys : option Z) (db : DB)
    (r : Response) (db' : DB) :
  create_reseller hash tok email password app_id allowed_license_keys db
  = (r, db') ->
  (is_success r = false -> db' = db)
  /\ (is_success r = true ->
      exists u a em pw,
        authenticateToken tok db = inr u
        /\ User.plan u = premium
        /\ email = Some em /\ password = Some pw
        /\ app_id = Some (App._id a)
        /\ In a (apps db) /\ App.owner a = User._id u
        /\ ~ In (toLowerCase (trim em)) (map Reseller.email (resellers db))
        /\ resellers db'
           = resellers db
             ++ [Reseller.mk (nextId db) (toLowerCase (trim em)) (hash pw)
                   (App._id a)
                   (match allowed_license_keys with
                    | Some n => n
                    | None => -1
                    end) 0 true Reseller.default_allowedActions]).
Proof.
  unfold create_reseller. intros H.
  destruct (authenticateToken tok db) as [r0|u] eqn:Hu.
  { injection H as <- <-. split; [reflexivity|].
    apply authenticateToken_failure in Hu. congruence. }
  destruct email as [em|];
    [|injection H as <- <-; split; [reflexivity|discriminate]].
  destruct password as [pw|];
    [|injection H as <- <-; split; [reflexivity|discriminate]].
  destruct app_id as [aid|];
    [|injection H as <- <-; split; [reflexivity|discriminate]].
  destruct (negb (truthy (Some em) && truthy (Some pw)));
    [injection H as <- <-; split; [reflexivity|discriminate]|].
  destruct (findOne _ (apps db)) as [a|] eqn:Ha;
    [|injection H as <- <-; split; [reflexivity|discriminate]].
  destruct (User_canCreateReseller u db) eqn:Hcan;
    [|injection H as <- <-; split; [reflexivity|discriminate]].
  simpl negb in H. cbv iota in H.
  destruct (findOne (fun r1 => String.eqb (Reseller.email r1)
                                          (toLowerCase (trim em)))
                    (resellers db)) eqn:Hdup;
    [injection H as <- <-; split; [reflexivity|discriminate]|].
  simpl is_some in H. cbv iota in H.
  assert (Hplan : User.plan u = premium).
  { unfold User_canCreateReseller in Hcan.
    destruct (User.plan u); [discriminate|reflexivity]. }
  rewrite Hplan in H. unfold Reseller_create, fresh_id in H.
  cbv beta iota zeta in H.
  destruct (String.eqb (toLowerCase (trim em)) ""
            || (js_length pw <? 6)%nat);
    [injection H as <- <-; split; [reflexivity|discriminate]|].
  rewrite Hdup in H. simpl is_some in H. cbv iota in H.
  injection H as <- <-. split; [discriminate|]. intros _.
  unfold findOne in Ha. destruct (find_some _ _ Ha) as [Hin Hq].
  apply andb_true_iff in Hq. destruct Hq as [Hid Hown].
  apply Nat.eqb_eq in Hid. apply Nat.eqb_eq in Hown.
  exists u, a, em, pw.
  split; [reflexivity|]. split; [exact Hplan|]. split; [reflexivity|].
  split; [reflexivity|]. split; [rewrite Hid; reflexivity|].
  split; [exact Hin|]. split; [exact Hown|]. split.
  - intros Hmem. apply in_map_iff in Hmem. destruct Hmem as [x [Hx Hxin]].
    unfold findOne in Hdup. apply (find_none _ _ Hdup) in Hxin.
    rewrite Hx, String.eqb_refl in Hxin. discriminate.
  - rewrite Hid. reflexivity.
Qed.

(** X24.  Only premium owners create resellers.  An answer of
    [POST /resellers] that is not successful changes nothing.  A successful
    one has a caller on the premium plan who owns the app and a body whose
    email passes [isEmail]; it appends one reseller of that app with the
    email as [normalizeEmail] hands it on and the schema's setters trim
    and lower-case it, which no stored reseller has, the hashed password,
    no license used, active, with the default permissions, and with the
    requested license limit, which is at least -1, or -1 when none was
    requested: the cap of 30 written for the free plan is never applied, a
    free caller is rejected before. *)
Theorem X24_create_reseller_premium_only (v : Validator)
    (hash : string -> string)
    (tok : Token) (email password : option string)
    (app_id : option ObjectId) (allowed_license_keys : option Z) (db : DB)
    (r : Response) (db' : DB) :
  create_reseller_route v hash tok email password app_id allowed_license_keys
                        db
  = (r, db') ->
  (is_success r = false -> db' = db)
  /\ (is_success r = true ->
      exists u a em pw,
        authenticateToken tok db = inr u
        /\ User.plan u = premium
        /\ email = Some em /\ password = Some pw
        /\ isEmail v em = true
        /\ app_id = Some (App._id a)
        /\ In a (apps db) /\ App.owner a = User._id u
        /\ ~ In (toLowerCase (trim (normalizeEmail v em)))
                (map Reseller.email (resellers db))
        /\ resellers db'
           = resellers db
             ++ [Reseller.mk (nextId db)
                   (toLowerCase (trim (normalizeEmail v em))) (hash pw)
                   (App._id a)
                   (match allowed_license_keys with
                    | Some n => n
                    | None => -1
                    end) 0 true Reseller.default_allowedActions]
        /\ -1 <= match allowed_license_keys with
                 | Some n => n
                 | None => -1
                 end).
Proof.
  unfold create_reseller_route. intros H.
  destruct (authenticateToken tok db) as [r0|u0] eqn:Hu.
  { injection H as <- <-. split; [reflexivity|].
    apply authenticateToken_failure in Hu. congruence. }
  unfold validateResellerCreation in H.
  destruct email as [em|];
    [|injection H as <- <-; split; [reflexivity|discriminate]].
  destruct password as [pw|];
    [|injection H as <- <-; split; [reflexivity|discriminate]].
  destruct app_id as [aid|];
    [|injection H as <- <-; split; [reflexivity|discriminate]].
  destruct (isEmail v em) eqn:Hem;
    [|injection H as <- <-; split; [reflexivity|discriminate]].
  destruct (isLength v 6 None pw);
    [|injection H as <- <-; split; [reflexivity|discriminate]].
  destruct (match allowed_license_keys with
            | Some n => -1 <=? n
            | None => true
            end) eqn:Hmin;
    [|injection H as <- <-; split; [reflexivity|discriminate]].
  cbn [andb] in H.
  destruct (create_reseller_cases _ _ _ _ _ _ _ _ _ H) as [Hfail Hok].
  split; [exact Hfail|]. intros Hs.
  destruct (Hok Hs) as (u & a & em' & pw' & Hu' & Hplan & Hem' & Hpw' & Haid
                        & Hin & Hown & Hnew & Hres).
  injection Hem' as <-. injection Hpw' as <-.
  exists u, a, em, pw.
  rewrite Hu in Hu'. injection Hu' as <-.
  repeat (split; [first [assumption|reflexivity]|]).
  destruct allowed_license_keys as [n|]; [apply Z.leb_le; exact Hmin|lia].
Qed.

Lemma X24_create_reseller_witness :
  is_success
    (fst (create_reseller_route ex_validator ex_hash (Verified 0)
            (Some "New@Example.org") (Some "secret3") (Some 1%nat) None
            x_two_apps_db)) = false
  /\ map (fun r => (Reseller.email r, Reseller.licenseLimit r))
       (resellers
          (snd (create_reseller_route ex_validator ex_hash (Verified 0)
                  (Some "New@Example.org") (Some "secret3") (Some 1%nat)
                  None ex_db)))
     = [("res@example.org", 5); ("new@example.org", -1)].
Proof.
  split; [reflexivity|].
  destruct (X24_create_reseller_premium_only ex_validator ex_hash
              (Verified 0) (Some "New@Example.org") (Some "secret3")
              (Some 1%nat) None ex_db _ _ (surjective_pairing _)) as [_ H].
  destruct (H eq_refl) as (u & a & em & pw & _ & _ & Hem & Hpw & _ & _ & _
                           & _ & _ & Hres & _).
  injection Hem as <-. rewrite Hres. reflexivity.
Defined.

Lemma Reseller_save_Forall (P : Reseller.t -> Prop) (r : Reseller.t)
    (db : DB) :
  Forall P (resellers db) -> P r -> Forall P (resellers (Reseller_save r db)).
Proof.
  intros Hall Hr. unfold Reseller_save. simpl.
  apply updateById_Forall; [exact Hall|intros d _ _; exact Hr].
Qed.

(** X25.  No reseller is ever given the permission to delete.  When no
    stored reseller has [allowedActions.delete], none has it after
    [POST /resellers], [PUT /resellers/:id] or [DELETE /resellers/:id],
    whatever the request; and an update that carries [allowedActions]
    and passes the checks of the handler clears the flag of its reseller
    even where it was stored set. *)
Theorem X25_resellers_never_may_delete (hash : string -> string)
    (sp : bool) (tok : Token) (email password : option string)
    (app_id : option ObjectId) (allowed_license_keys : option Z)
    (resellerId : ObjectId) (licenseLimit : option Z) (active : option bool)
    (allowedActions : option ActionsPatch) (db : DB) :
  (Forall no_delete_permission (resellers db) ->
   Forall no_delete_permission
     (resellers (snd (create_reseller hash tok email password app_id
                                      allowed_license_keys db)))
   /\ Forall no_delete_permission
        (resellers (snd (update_reseller sp tok resellerId licenseLimit
                                         active allowedActions db)))
   /\ Forall no_delete_permission
        (resellers (snd (delete_reseller tok resellerId db))))
  /\ (allowedActions <> None ->
      is_success (fst (update_reseller false tok resellerId licenseLimit
                                       active allowedActions db)) = true ->
      exists r',
        findById Reseller._id resellerId
          (resellers (snd (update_reseller sp tok resellerId licenseLimit
                                           active allowedActions db)))
        = Some r'
        /\ Reseller.hasPermission Reseller.ActDelete r' = false).
Proof.
  split.
  - intros Hall. split; [|split].
    + destruct (create_reseller hash tok email password app_id
                                allowed_license_keys db) as [r db'] eqn:H.
      destruct (create_reseller_cases hash tok email password app_id
                  allowed_license_keys db r db' H) as [Hf Hs].
      destruct (is_success r) eqn:Hr.
      * destruct (Hs eq_refl) as (u & a & em & pw & _ & _ & _ & _ & _ & _ & _
                                  & _ & Hres).
        simpl snd. rewrite Hres. apply Forall_app. split; [exact Hall|].
        constructor; [reflexivity|constructor].
      * simpl snd. rewrite (Hf eq_refl). exact Hall.
    + unfold update_reseller.
      destruct (authenticateToken tok db); [exact Hall|].
      destruct (findById Reseller._id resellerId (resellers db)) as [x|] eqn:Hx;
        [|exact Hall].
      destruct (findById App._id (Reseller.app x) (apps db)); [|exact Hall].
      destruct (negb _); [exact Hall|].
      destruct (match licenseLimit with Some _ => _ | None => _ end);
        [exact Hall|].
      simpl snd. apply Reseller_save_Forall; [exact Hall|].
      unfold no_delete_permission. simpl.
      destruct allowedActions; [reflexivity|].
      apply findById_some in Hx. destruct Hx as [Hin _].
      rewrite Forall_forall in Hall. apply (Hall x Hin).
    + unfold delete_reseller.
      destruct (authenticateToken tok db); [exact Hall|].
      destruct (findById Reseller._id resellerId (resellers db)) as [x|];
        [|exact Hall].
      destruct (findById App._id (Reseller.app x) (apps db)); [|exact Hall].
      destruct (negb _); [exact Hall|].
      destruct (0 <? _)%nat; [exact Hall|].
      simpl snd. simpl. apply findByIdAndDelete_Forall. exact Hall.
  - intros Hsome Hch. unfold update_reseller in *.
    destruct (authenticateToken tok db) eqn:Hu;
      [apply authenticateToken_failure in Hu; simpl in Hch; congruence|].
    destruct (findById Reseller._id resellerId (resellers db)) as [x|] eqn:Hx;
      [|discriminate Hch].
    destruct (findById App._id (Reseller.app x) (apps db));
      [|discriminate Hch].
    destruct (negb _); [discriminate Hch|].
    destruct (match licenseLimit with Some _ => _ | None => _ end);
      [discriminate Hch|].
    destruct allowedActions as [p|]; [|congruence].
    destruct (findById_some _ _ _ _ Hx) as [_ Hid].
    eexists. split.
    + simpl snd. unfold Reseller_save. simpl. rewrite Hid.
      apply findById_updateById; [reflexivity|congruence].
    + unfold Reseller.hasPermission. simpl.
      destruct (negb _); reflexivity.
Qed.

Lemma X25_resellers_never_may_delete_witness :
  option_map (Reseller.hasPermission Reseller.ActDelete)
    (findById Reseller._id 2%nat (resellers x_deleting_db)) = Some true
  /\ exists r',
       findById Reseller._id 2%nat
         (resellers (snd (update_reseller true (Verified 0) 2 None None
                            (Some (mkActionsPatch None None None))
                            x_deleting_db))) = Some r'
       /\ Reseller.hasPermission Reseller.ActDelete r' = false.
Proof.
  split; [reflexivity|].
  apply (X25_resellers_never_may_delete ex_hash true (Verified 0) None None
           None None 2%nat None None (Some (mkActionsPatch None None None))
           x_deleting_db); [discriminate|reflexivity].
Defined.

(** X26.  A reseller update is saved before the handler can fail on its
    last step.  What [PUT /resellers/:id] writes does not depend on
    whether populating the undeclared path [user] throws: where it throws,
    the request is answered as an error although the reseller was saved.
    The update never changes a reseller's [_id], email, password, app or
    [usedLicenses], nor any other collection, and a caller on the free
    plan who asks for a license limit above 30 changes nothing. *)
Theorem X26_update_reseller_saved_before_populate (sp : bool) (tok : Token)
    (resellerId : ObjectId) (licenseLimit : option Z) (active : option bool)
    (allowedActions : option ActionsPatch) (db : DB) :
  let db' := snd (update_reseller sp tok resellerId licenseLimit active
                                  allowedActions db) in
  db' = snd (update_reseller (negb sp) tok resellerId licenseLimit active
                             allowedActions db)
  /\ (sp = true ->
      is_success (fst (update_reseller sp tok resellerId licenseLimit active
                                       allowedActions db)) = false)
  /\ map (fun r => (Reseller._id r, Reseller.email r, Reseller.password r,
                    Reseller.app r, Reseller.usedLicenses r)) (resellers db')
     = map (fun r => (Reseller._id r, Reseller.email r, Reseller.password r,
                      Reseller.app r, Reseller.usedLicenses r)) (resellers db)
  /\ (users db', apps db', licenses db', clients db', payments db', nextId db')
     = (users db, apps db, licenses db, clients db, payments db, nextId db)
  /\ (forall u n,
        authenticateToken tok db = inr u -> User.plan u = free ->
        licenseLimit = Some n -> 30 < n -> db' = db).
Proof.
  cbv zeta. unfold update_reseller.
  destruct (authenticateToken tok db) as [r0|u] eqn:Hu.
  { apply authenticateToken_failure in Hu. simpl. repeat split; auto. }
  destruct (findById Reseller._id resellerId (resellers db)) as [x|] eqn:Hx;
    [|simpl; repeat split; auto; discriminate].
  destruct (findById App._id (Reseller.app x) (apps db));
    [|simpl; repeat split; auto; discriminate].
  destruct (negb _); [simpl; repeat split; auto; discriminate|].
  destruct licenseLimit as [n|].
  - destruct (Plan_eqb (User.plan u) free && (30 <? n)) eqn:Hcap.
    + simpl. repeat split; auto; discriminate.
    + simpl snd. simpl fst.
      split; [destruct sp; reflexivity|].
      split; [intros ->; reflexivity|].
      split.
      * unfold Reseller_save. simpl.
        destruct (findById_some _ _ _ _ Hx) as [_ Hid]. rewrite Hid.
        apply (updateById_found_map Reseller._id _ resellerId x);
          [exact Hx|simpl; rewrite Hid; reflexivity].
      * split; [reflexivity|].
        intros u0 n0 Hu0 Hfree Hn Hgt. injection Hu0 as <-.
        injection Hn as <-. rewrite Hfree in Hcap. simpl in Hcap.
        apply Z.ltb_ge in Hcap. lia.
  - simpl snd. simpl fst.
    split; [destruct sp; reflexivity|].
    split; [intros ->; reflexivity|].
    split.
    + unfold Reseller_save. simpl.
      destruct (findById_some _ _ _ _ Hx) as [_ Hid]. rewrite Hid.
      apply (updateById_found_map Reseller._id _ resellerId x);
        [exact Hx|simpl; rewrite Hid; reflexivity].
    + split; [reflexivity|]. intros; discriminate.
Qed.

(** ** Licenses *)

(** The counter loop of the bulk deletion writes reseller counters only. *)
Lemma fold_inc_frame (ls : list License.t) (db : DB) :
  let db' := fold_left
               (fun acc l =>
                  match License.reseller l with
                  | Some i => Reseller_inc_usedLicenses i (-1) acc
                  | None => acc
                  end) ls db in
  users db' = users db /\ apps db' = apps db /\ clients db' = clients db
  /\ payments db' = payments db.
Proof.
  cbv zeta. revert db. induction ls as [|l ls IH]; intros db; simpl; [auto|].
  destruct (IH (match License.reseller l with
                | Some i => Reseller_inc_usedLicenses i (-1) db
                | None => db
                end)) as (H1 & H2 & H3 & H4).
  rewrite H1, H2, H3, H4. destruct (License.reseller l); auto.
Qed.

Lemma fold_inc_no_reseller (ls : list License.t) (db : DB) :
  Forall (fun l => License.reseller l = None) ls ->
  fold_left
    (fun acc l =>
       match License.reseller l with
       | Some i => Reseller_inc_usedLicenses i (-1) acc
       | None => acc
       end) ls db = db.
Proof.
  induction ls as [|l ls IH]; simpl; intros Hall; [reflexivity|].
  inversion Hall as [|? ? Hl Hls]; subst. rewrite Hl. apply IH. exact Hls.
Qed.

(** A login reads the apps and the clients only. *)
Lemma login_reads_apps_clients (compare : string -> string -> bool)
    (now : Date) (username password : string) (hwid : JsString)
    (appId appSecret : string) (db db' : DB) :
  apps db' = apps db -> clients db' = clients db ->
  fst (login compare now username password hwid appId appSecret db')
  = fst (login compare now username password hwid appId appSecret db).
Proof.
  intros Ha Hc. unfold login, Client_findByAppUsername. rewrite Ha, Hc.
  repeat match goal with
         | |- context [match ?x with _ => _ end] => destruct x
         end; reflexivity.
Qed.

Lemma validate_session_reads_apps_clients (now : Date)
    (username appId appSecret : option string) (db db' : DB) :
  apps db' = apps db -> clients db' = clients db ->
  validate_session now username appId appSecret db'
  = validate_session now username appId appSecret db.
Proof.
  intros Ha Hc.
  unfold validate_session, App_findByCredentials, Client_findByAppUsername.
  rewrite Ha, Hc. reflexivity.
Qed.

(** The license routes of the owner write neither apps nor clients. *)
Lemma license_routes_frame (sq : bool) (tok : Token) (i : ObjectId)
    (st : option Status) (e : option Date) (note : option string)
    (appId : option ObjectId) (db : DB) :
  (apps (snd (toggle_ban sq tok i db)) = apps db
   /\ clients (snd (toggle_ban sq tok i db)) = clients db)
  /\ (apps (snd (update_license sq tok i st e note db)) = apps db
      /\ clients (snd (update_license sq tok i st e note db)) = clients db)
  /\ (apps (snd (delete_license tok i db)) = apps db
      /\ clients (snd (delete_license tok i db)) = clients db)
  /\ (apps (snd (delete_licenses tok appId db)) = apps db
      /\ clients (snd (delete_licenses tok appId db)) = clients db).
Proof.
  split; [|split; [|split]].
  - unfold toggle_ban.
    repeat match goal with
           | |- context [match ?x with _ => _ end] => destruct x
           end; split; reflexivity.
  - unfold update_license.
    repeat match goal with
           | |- context [match ?x with _ => _ end] => destruct x
           end; split; reflexivity.
  - unfold delete_license.
    repeat match goal with
           | |- context [match ?x with _ => _ end] => destruct x
           end; split; reflexivity.
  - unfold delete_licenses.
    destruct (authenticateToken tok db); [split; reflexivity|].
    match goal with
    | |- context [match ?x with Some _ => _ | None => _ end] => destruct x
    end; [|split; reflexivity].
    simpl snd. cbn [apps clients with_licenses].
    match goal with
    | |- context [fold_left ?f ?ls ?d] =>
        destruct (fold_inc_frame ls d) as (_ & H2 & H3 & _)
    end.
    split; assumption.
Qed.

(** X27.  What is done to a license does not reach the client that
    registered with it.  Banning, unbanning, revoking, re-dating or
    deleting licenses, one by one or in bulk, changes the answer of no
    login and of no session check: the client routes read the apps and the
    clients, never the licenses. *)
Theorem X27_license_changes_do_not_reach_clients (sq : bool) (tok : Token)
    (i : ObjectId) (st : option Status) (e : option Date)
    (note : option string) (appId : option ObjectId) (db : DB)
    (compare : string -> string -> bool) (now : Date)
    (username password : string) (hwid : JsString) (aid asec : string)
    (susername said sasec : option string) :
  let answers (d : DB) :=
    (fst (login compare now username password hwid aid asec d),
     validate_session now susername said sasec d) in
  answers (snd (toggle_ban sq tok i db)) = answers db
  /\ answers (snd (update_license sq tok i st e note db)) = answers db
  /\ answers (snd (delete_license tok i db)) = answers db
  /\ answers (snd (delete_licenses tok appId db)) = answers db.
Proof.
  cbv zeta.
  destruct (license_routes_frame sq tok i st e note appId db)
    as ((A1 & C1) & (A2 & C2) & (A3 & C3) & (A4 & C4)).
  repeat split;
    rewrite (login_reads_apps_clients _ _ _ _ _ _ _ db),
      (validate_session_reads_apps_clients _ _ _ _ db); auto.
Qed.

(** X28.  The bulk deletion spares what resellers created.  A successful
    [DELETE /licenses] removes licenses and adds none; every license
    created by a reseller is still stored, and with an app named so is
    every license of another app, while of the named app only the
    reseller-created licenses are left.  The clients that registered with
    a deleted license stay, and where the owner-created licenses name no
    reseller the reseller counters stay as well. *)
Theorem X28_bulk_delete_spares_reseller_licenses (tok : Token)
    (appId : option ObjectId) (db : DB) (r : Response) (db' : DB) :
  delete_licenses tok appId db = (r, db') ->
  is_success r = true ->
  incl (licenses db') (licenses db)
  /\ (forall l, In l (licenses db) ->
                License.createdByType l = byReseller -> In l (licenses db'))
  /\ (forall l a, appId = Some a -> In l (licenses db) ->
                  License.app l <> a -> In l (licenses db'))
  /\ (forall l a, appId = Some a -> In l (licenses db') ->
                  License.app l = a -> License.createdByType l = byReseller)
  /\ clients db' = clients db
  /\ (Forall (fun l => License.createdByType l = byOwner ->
                       License.reseller l = None) (licenses db) ->
      resellers db' = resellers db).
Proof.
  unfold delete_licenses. intros H Hs.
  destruct (authenticateToken tok db) as [r0|u] eqn:Hu.
  { injection H as <- <-. apply authenticateToken_failure in Hu. congruence. }
  match type of H with
  | context [match ?x with Some _ => _ | None => _ end] =>
      destruct x as [inApp|] eqn:Hscope
  end; [|injection H as <- <-; discriminate Hs].
  injection H as _ <-. clear Hs.
  match goal with
  | |- context [fold_left ?f ?ls ?d] =>
      destruct (fold_inc_licenses ls d) as [HL _];
      destruct (fold_inc_frame ls d) as (_ & _ & HC & _);
      pose proof (fold_inc_no_reseller ls d) as HR
  end.
  cbn [licenses clients resellers with_licenses]. rewrite HL. unfold deleteMany.
  split; [intros l Hin; apply filter_In in Hin; tauto|].
  split.
  { intros l Hin Hty. apply filter_In. split; [exact Hin|].
    rewrite Hty. simpl. rewrite andb_false_r. reflexivity. }
  split.
  { intros l a -> Hin Hne. apply filter_In. split; [exact Hin|].
    destruct (findOne _ (apps db)); [|discriminate].
    injection Hscope as <-. apply Nat.eqb_neq in Hne. rewrite Hne.
    reflexivity. }
  split.
  { intros l a -> Hin Happ. apply filter_In in Hin. destruct Hin as [_ Hq].
    destruct (findOne _ (apps db)); [|discriminate].
    injection Hscope as <-. rewrite Happ, Nat.eqb_refl in Hq.
    destruct (License.createdByType l); [discriminate|reflexivity]. }
  split; [exact HC|].
  intros Hall. rewrite HR; [reflexivity|].
  apply Forall_forall. intros l Hin. apply filter_In in Hin.
  destruct Hin as [Hin Hq]. rewrite Forall_forall in Hall.
  apply (Hall l Hin). apply andb_true_iff in Hq. destruct Hq as [Hq _].
  apply andb_true_iff in Hq. destruct Hq as [_ Hty].
  destruct (License.createdByType l); [reflexivity|discriminate].
Qed.

Lemma X28_bulk_delete_witness :
  licenses (snd (delete_licenses (Verified 0) (Some 1%nat) ex_db))
  = [ex_license]
  /\ clients (snd (delete_licenses (Verified 0) (Some 1%nat) ex_db))
     = [ex_client].
Proof.
  destruct (X28_bulk_delete_spares_reseller_licenses (Verified 0)
              (Some 1%nat) ex_db _ _ (surjective_pairing _) eq_refl)
    as (_ & _ & _ & _ & Hc & _).
  split; [reflexivity|exact Hc].
Defined.

(** Saving the same document twice is saving it once. *)
Lemma updateById_idem {A : Type} (id_of : A -> ObjectId) (i : ObjectId)
    (x : A) (c : list A) :
  id_of x = i ->
  updateById id_of i (fun _ => x) (updateById id_of i (fun _ => x) c)
  = updateById id_of i (fun _ => x) c.
Proof.
  intros Hx. induction c as [|y c IH]; simpl; [reflexivity|].
  destruct (Nat.eqb (id_of y) i) eqn:E; simpl.
  - rewrite Hx, Nat.eqb_refl. reflexivity.
  - rewrite E, IH. reflexivity.
Qed.

(** X29.  A license update is idempotent and touches three fields.  A
    successful [PUT /licenses/:id], sent again, gives the same answer and
    leaves the database as the first one left it.  It changes no license's
    [_id], app, key, creator, reseller, [used] or [usedBy], so only
    [status], [expiresAt] and [note] of the one license, and no other
    collection: the reseller counters stay as they are. *)
Theorem X29_update_license_idempotent (sq : bool) (tok : Token)
    (i : ObjectId) (st : option Status) (e : option Date)
    (n : option string) (db : DB) (r : Response) (db' : DB) :
  update_license sq tok i st e n db = (r, db') ->
  is_success r = true ->
  update_license sq tok i st e n db' = (r, db')
  /\ map (fun l => (License._id l, License.app l, License.key l,
                    License.createdByUser l, License.createdByType l,
                    License.reseller l, License.used l, License.usedBy l))
         (licenses db')
     = map (fun l => (License._id l, License.app l, License.key l,
                      License.createdByUser l, License.createdByType l,
                      License.reseller l, License.used l, License.usedBy l))
           (licenses db)
  /\ (users db', apps db', resellers db', clients db', payments db',
      nextId db')
     = (users db, apps db, resellers db, clients db, payments db, nextId db).
Proof.
  unfold update_license. intros H Hs.
  destruct (authenticateToken tok db) as [r0|u] eqn:Hu.
  { injection H as <- <-. apply authenticateToken_failure in Hu. congruence. }
  destruct (findById License._id i (licenses db)) as [l|] eqn:Hl;
    [|injection H as <- <-; discriminate Hs].
  destruct (findById App._id (License.app l) (apps db)) as [a|] eqn:Ha;
    [|injection H as <- <-; discriminate Hs].
  case_in H; [injection H as <- <-; discriminate Hs|].
  case_in H; [injection H as <- <-; discriminate Hs|].
  set (l3 := match n with
             | Some n0 =>
                 License.set_note (Some n0)
                   match e with
                   | Some e0 =>
                       License.set_expiresAt e0
                         match st with
                         | Some s => License.set_status s l
                         | None => l
                         end
                   | None =>
                       match st with
                       | Some s => License.set_status s l
                       | None => l
                       end
                   end
             | None =>
                 match e with
                 | Some e0 =>
                     License.set_expiresAt e0
                       match st with
                       | Some s => License.set_status s l
                       | None => l
                       end
                 | None =>
                     match st with
                     | Some s => License.set_status s l
                     | None => l
                     end
                 end
             end) in *.
  assert (Hfix : match n with
                 | Some n0 =>
                     License.set_note (Some n0)
                       match e with
                       | Some e0 =>
                           License.set_expiresAt e0
                             match st with
                             | Some s => License.set_status s l3
                             | None => l3
                             end
                       | None =>
                           match st with
                           | Some s => License.set_status s l3
                           | None => l3
                           end
                       end
                 | None =>
                     match e with
                     | Some e0 =>
                         License.set_expiresAt e0
                           match st with
                           | Some s => License.set_status s l3
                           | None => l3
                           end
                     | None =>
                         match st with
                         | Some s => License.set_status s l3
                         | None => l3
                         end
                     end
                 end = l3).
  { subst l3. destruct l, st, e, n; reflexivity. }
  assert (Hkeep : (License._id l3, License.app l3, License.key l3,
                   License.createdByUser l3, License.createdByType l3,
                   License.reseller l3, License.used l3, License.usedBy l3)
                  = (License._id l, License.app l, License.key l,
                     License.createdByUser l, License.createdByType l,
                     License.reseller l, License.used l, License.usedBy l)).
  { subst l3. destruct st, e, n; reflexivity. }
  assert (Hid3 : License._id l3 = i).
  { destruct (findById_some _ _ _ _ Hl) as [_ Hid]. rewrite <- Hid.
    congruence. }
  assert (Happ3 : License.app l3 = License.app l) by congruence.
  injection H as <- <-. clear Hs. split; [|split].
  - rewrite (authenticateToken_users tok db (License_save l3 db) eq_refl), Hu.
    assert (Hl3 : findById License._id i (licenses (License_save l3 db))
                  = Some l3).
    { unfold License_save. simpl. rewrite Hid3.
      apply findById_updateById; [exact Hid3|congruence]. }
    rewrite Hl3, Happ3.
    change (apps (License_save l3 db)) with (apps db). rewrite Ha.
    replace (Reseller_findForUser sq (User._id u) (App._id a)
               (License_save l3 db))
      with (Reseller_findForUser sq (User._id u) (App._id a) db)
      by reflexivity.
    rewrite Heqo, Hfix, Heqb. f_equal.
    unfold License_save. simpl. rewrite Hid3.
    rewrite updateById_idem by exact Hid3. reflexivity.
  - unfold License_save. simpl. rewrite Hid3.
    apply (updateById_found_map License._id _ i l); [exact Hl|exact Hkeep].
  - reflexivity.
Qed.

Lemma X29_update_license_witness :
  is_success (fst (update_license false (Verified 0) 3 (Some REVOKED)
                     (Some 7000) None ex_db)) = true
  /\ update_license false (Verified 0) 3 (Some REVOKED) (Some 7000) None
       (snd (update_license false (Verified 0) 3 (Some REVOKED) (Some 7000)
               None ex_db))
     = update_license false (Verified 0) 3 (Some REVOKED) (Some 7000) None
         ex_db.
Proof.
  split; [reflexivity|].
  destruct (X29_update_license_idempotent false (Verified 0) 3%nat
              (Some REVOKED) (Some 7000) None ex_db _ _
              (surjective_pairing _) eq_refl) as [Hagain _].
  rewrite Hagain. symmetry. apply surjective_pairing.
Defined.

(** What [License.create] inserts. *)
Lemma License_create_Created (a c : ObjectId) (ty : CreatedByType)
    (res : option ObjectId) (k : option string) (e : Date)
    (n : option string) (rnd : list string) (db : DB) (l : License.t)
    (rnd' : list string) (db1 : DB) :
  License_create a c ty res k e n rnd db = Created l rnd' db1 ->
  licenses db1 = licenses db ++ [l] /\ License.app l = a
  /\ resellers db1 = resellers db.
Proof.
  unfold License_create, fresh_id. destruct (match n with
                                             | Some s => _
                                             | None => false
                                             end); [discriminate|].
  cbv beta iota zeta.
  destruct (truthy k).
  - destruct k; [|discriminate]. intros H. injection H as <- _ <-.
    repeat split.
  - destruct (License.generateKey rnd _) as [[k' r']|]; [|discriminate].
    intros H. injection H as <- _ <-. repeat split.
Qed.

Lemma countDocuments_snoc {A : Type} (p : A -> bool) (c : list A) (x : A) :
  p x = true -> countDocuments p (c ++ [x]) = S (countDocuments p c).
Proof.
  intros Hx. unfold countDocuments. rewrite filter_app, length_app. simpl.
  rewrite Hx. simpl. lia.
Qed.

(** X30.  The owner's license quota holds after every creation.  When
    the owner of an app has created a license with [POST /licenses], the
    app holds one license more than before and, unless the owner's
    [maxLicensesPerApp] is -1, no more than [maxLicensesPerApp]; the
    reseller counters are not touched. *)
Theorem X30_owner_license_quota (sq : bool) (tok : Token) (appId : ObjectId)
    (key : option string) (e : Date) (note : option string)
    (rnd : list string) (db : DB) (r : Response) (db' : DB) (u : User.t)
    (a : App.t) :
  create_license sq tok appId key e note rnd db = Some (r, db') ->
  is_success r = true ->
  authenticateToken tok db = inr u ->
  findById App._id appId (apps db) = Some a ->
  App.owner a = User._id u ->
  countDocuments (fun l => Nat.eqb (License.app l) appId) (licenses db')
  = S (countDocuments (fun l => Nat.eqb (License.app l) appId) (licenses db))
  /\ (User.maxLicensesPerApp u = -1
      \/ Z.of_nat (countDocuments (fun l => Nat.eqb (License.app l) appId)
                                  (licenses db'))
         <= User.maxLicensesPerApp u)
  /\ resellers db' = resellers db.
Proof.
  unfold create_license. intros H Hs Hu Ha Hown.
  rewrite Hu, Ha, Hown, Nat.eqb_refl in H. simpl CreatedByType_eqb in H.
  cbv iota beta in H. rewrite andb_true_l in H.
  destruct (App_canCreateLicense a (User._id u) db) eqn:Hcan;
    [|injection H as <- <-; discriminate Hs].
  simpl negb in H. cbv iota in H.
  destruct (truthy key && negb _);
    [injection H as <- <-; discriminate Hs|].
  destruct (truthy key && _);
    [injection H as <- <-; discriminate Hs|].
  destruct (License_create appId (User._id u) byOwner _ _ e note rnd db)
    as [l rnd' db1| |] eqn:Hc;
    [|injection H as <- <-; discriminate Hs|discriminate].
  injection H as _ <-.
  destruct (License_create_Created _ _ _ _ _ _ _ _ _ _ _ _ Hc)
    as (HL & Happ & HR).
  rewrite HL.
  rewrite (countDocuments_snoc _ (licenses db) l)
    by (rewrite Happ; apply Nat.eqb_refl).
  split; [reflexivity|]. split; [|exact HR].
  unfold App_canCreateLicense in Hcan.
  rewrite (authenticateToken_found _ _ _ Hu) in Hcan.
  destruct (User.maxLicensesPerApp u =? -1) eqn:Hm.
  - left. apply Z.eqb_eq. exact Hm.
  - right. apply Z.ltb_lt in Hcan.
    destruct (findById_some _ _ _ _ Ha) as [_ Hid]. rewrite Hid in Hcan.
    lia.
Qed.

Lemma X30_owner_license_quota_witness :
  exists r db',
    create_license false (Verified 0) 1 None 9000 None
                   ["FFFF5555FFFF5555FFFF5555"] x_two_apps_db = Some (r, db')
    /\ is_success r = true
    /\ Z.of_nat (countDocuments (fun l => Nat.eqb (License.app l) 1)
                                (licenses db')) <= 30.
Proof.
  eexists _, _. split; [reflexivity|]. split; [reflexivity|].
  destruct (X30_owner_license_quota false (Verified 0) 1%nat None 9000 None
              ["FFFF5555FFFF5555FFFF5555"] x_two_apps_db _ _ x_free_owner
              ex_app eq_refl eq_refl eq_refl eq_refl eq_refl)
    as (_ & [Hm|Hq] & _); [discriminate Hm|exact Hq].
Defined.
